(** * Backtester event handlers: timeline store, results aggregation, order sizing

    A shallow embedding of
    - [backtester/eventhandlers/statistics/statistics.go] (timeline store and
      results aggregator), and
    - the sizing engine exercised by
      [backtester/eventhandlers/portfolio/size/size_test.go],
    together with the properties stated about them.

    Layout: Part I holds the embedding (data model, then operations), Part II
    the vocabulary of the properties and the data of the scenarios, Part III
    the general lemmas and the properties, Part IV the scenarios. *)

From Stdlib Require Import ZArith QArith Qminmax List Lia Permutation.
From stdpp Require Import gmap strings list fin_maps.

Set Default Proof Using "Type".

(* ===================================================================== *)
(** * Part I: the embedding                                               *)
(* ===================================================================== *)

(** ** Go values *)

(** Every Go type has a zero value ([T{}], [var x T]). *)
Class GoZero (A : Type) := zeroValue : A.
#[global] Hint Mode GoZero ! : typeclass_instances.

#[global] Instance Z_GoZero : GoZero Z := 0%Z.
#[global] Instance bool_GoZero : GoZero bool := false.
#[global] Instance string_GoZero : GoZero string := EmptyString.
#[global] Instance Q_GoZero : GoZero Q := 0%Q.
#[global] Instance option_GoZero {A} : GoZero (option A) := None.
#[global] Instance list_GoZero {A} : GoZero (list A) := [].

(** [currency.Pair] is declared outside the files embedded here; it is used as
    a map key (Go's [==]) and compared with its [Equal] method. *)
Class PairEqual (P : Type) := pairEqual : P -> P -> bool.
#[global] Hint Mode PairEqual ! : typeclass_instances.

(** [int64] arithmetic wraps around. *)
Definition wrap64 (z : Z) : Z := ((z + 2 ^ 63) mod 2 ^ 64 - 2 ^ 63)%Z.

(** Slice indexing [l[i]] with Go's bounds check: [None] stands for the
    run-time panic "index out of range". *)
Definition index {A} (l : list A) (i : Z) : option A :=
  if (i <? 0)%Z then None else l !! Z.to_nat i.

(** Sentinel errors.  [fmt.Errorf("%w ...", e, ...)] wraps [e]; a wrapped error
    is identified with its sentinel, as [errors.Is] does. *)
Inductive Error :=
| ErrNilArguments
| ErrNilEvent
| ErrAlreadyProcessed
| errExchangeAssetPairStatsUnset
| errCurrencyStatisticsUnset
| errUnknownEventType
| errNoFunds
| errLessThanMinimum
| errCannotAllocate
| errExternal (msg : string).

Inductive PanicKind :=
| IndexOutOfRange
| NilDereference.

(** What a call of a function with result type [error] does: it returns (nil
    or an error) or it panics. *)
Inductive Result :=
| Returns (err : option Error)
| Panics (p : PanicKind).

(** ** Decimals

    [decimal.Decimal] values are exact; they are embedded as rationals, and
    the methods of the decimal library as the operations of [Q].  Division is
    [Q]'s exact and total division ([x / 0] is [0]); the rounding of quotients
    to the library's division precision is not modelled. *)

Definition decimal : Type := Q.
Bind Scope Q_scope with decimal.

Definition IsZero (d : decimal) : bool := Qeq_bool d 0%Q.
Definition LessThanOrEqual (a b : decimal) : bool := Qle_bool a b.
Definition GreaterThan (a b : decimal) : bool := negb (Qle_bool a b).
Definition LessThan (a b : decimal) : bool := negb (Qle_bool b a).
Definition decimalMin (a b : decimal) : decimal :=
  if LessThanOrEqual a b then a else b.

(** ** Sizing engine *)

(** [config.MinMax], as size_test.go fills it: the per-direction
    constraints. *)
Record MinMax := {
  MinimumSize : decimal;
  MaximumSize : decimal;
  MaximumTotal : decimal
}.

#[global] Instance MinMax_GoZero : GoZero MinMax :=
  {| MinimumSize := zeroValue; MaximumSize := zeroValue; MaximumTotal := zeroValue |}.

(** Modelled from the spec: the body of [calculateBuySize] and
    [calculateSellSize] (size.go is not among the sources; size_test.go calls
    them).  Steps 1 to 7 of the sizing algorithm:
    fail with [errNoFunds] on zero or negative funds; the funds ceiling is
    [availableFunds * (1 - feeRate) / price]; the exposure ceiling
    [maximumTotal * (1 - feeRate) / price] applies when [maximumTotal] is
    nonzero; the candidate is the minimum of the directional limit and the
    ceilings; a nonzero [maximumSize] caps the candidate; a result strictly
    below a nonzero [minimumSize] fails with [errLessThanMinimum].  The lower
    end of the interval is enforced by that failure and not by raising the
    candidate: [TestSizingUnderMinSize] expects the failure for a candidate of
    about 0.979 with [minimumSize = 1] and [maximumSize = 2]. *)
Definition sizeWithinLimits (price availableFunds feeRate directionalLimit : decimal)
    (constraints : MinMax) : Error + decimal :=
  if LessThanOrEqual availableFunds 0%Q then inl errNoFunds
  else
    let fundsCeiling := (availableFunds * (1 - feeRate) / price)%Q in
    let candidate := decimalMin directionalLimit fundsCeiling in
    let candidate :=
      if IsZero (MaximumTotal constraints) then candidate
      else decimalMin candidate (MaximumTotal constraints * (1 - feeRate) / price)%Q in
    let amount :=
      if IsZero (MaximumSize constraints) then candidate
      else decimalMin candidate (MaximumSize constraints) in
    if negb (IsZero (MinimumSize constraints)) && LessThan amount (MinimumSize constraints)
    then inl errLessThanMinimum
    else inr amount.

(** Modelled from the spec: [calculateBuySize] (size.go is absent); it shares
    its algorithm with the sell path. *)
Definition calculateBuySize (price availableFunds feeRate buyLimit : decimal)
    (minMaxSettings : MinMax) : Error + decimal :=
  sizeWithinLimits price availableFunds feeRate buyLimit minMaxSettings.

(** Modelled from the spec: [calculateSellSize] (size.go is absent); the fee
    buffer is applied as on the buy path. *)
Definition calculateSellSize (price availableFunds feeRate sellLimit : decimal)
    (minMaxSettings : MinMax) : Error + decimal :=
  sizeWithinLimits price availableFunds feeRate sellLimit minMaxSettings.

(** [gctorder.Side]: only buy and sell are sized; every other value,
    the unset side [OtherSide ""] included, is not. *)
Inductive Side :=
| Buy
| Sell
| OtherSide (name : string).

#[global] Instance Side_GoZero : GoZero Side := OtherSide EmptyString.

(** The fields of [order.Order] that sizing reads and writes; size_test.go
    sets the first two. *)
Record Order := {
  Direction : Side;
  Price : decimal;
  Amount : decimal
}.

#[global] Instance Order_GoZero : GoZero Order :=
  {| Direction := zeroValue; Price := zeroValue; Amount := zeroValue |}.

Definition SetAmount (o : Order) (amount : decimal) : Order :=
  {| Direction := Direction o; Price := Price o; Amount := amount |}.

(** The sizer: its buy-side and sell-side constraints. *)
Record Size := {
  BuySide : MinMax;
  SellSide : MinMax
}.

(** Modelled from the spec: [SizeOrder] (size.go is absent).  The order is a
    pointer and may be nil.  The funds check comes before the dispatch on the
    direction; it rejects zero funds whatever the price is, which covers the
    nonzero-price case the spec names and the zero-valued order of
    [TestSizeOrder], where [errNoFunds] is expected too.  The directional
    limit is the raw affordable quantity [availableFunds / price].  The fee
    rate is read from the exchange settings through [feeRate]. *)
Definition SizeOrder {Settings : Type} (feeRate : Settings -> decimal) (s : Size)
    (o : option Order) (availableFunds : decimal) (cs : Settings) : Error + Order :=
  match o with
  | None => inl ErrNilArguments
  | Some o =>
    if IsZero availableFunds then inl errNoFunds
    else
      let limit := (availableFunds / Price o)%Q in
      match Direction o with
      | Buy =>
        match calculateBuySize (Price o) availableFunds (feeRate cs) limit (BuySide s) with
        | inl e => inl e
        | inr amount => inr (SetAmount o amount)
        end
      | Sell =>
        match calculateSellSize (Price o) availableFunds (feeRate cs) limit (SellSide s) with
        | inl e => inl e
        | inr amount => inr (SetAmount o amount)
        end
      | OtherSide _ => inl errCannotAllocate
      end
  end.

(** ** Timeline store: data model *)

(** [time.Time] is embedded as its instant (nanoseconds on the time line);
    [Equal], [Before] and [After] compare instants. *)
Definition Time : Type := Z.

Definition timeEqual (t u : Time) : bool := (t =? u)%Z.

Section DataModel.
Context {Pair : Type} `{Countable Pair}.
Context {Holding Snapshot : Type}.

(** An event behind one of the interfaces [common.EventHandler],
    [common.DataEventHandler], [signal.Event], [order.Event], [fill.Event].
    The getters are those of [event.Base]; the four flags say which of the
    interfaces the dynamic type of the value satisfies, which is what a type
    switch inspects. *)
Record Event := {
  GetOffset : Z;
  GetExchange : string;
  GetTime : Time;
  GetPair : Pair;
  GetAssetType : string;
  GetInterval : Z;
  GetReason : string;
  isDataEventHandler : bool;
  isSignalEvent : bool;
  isOrderEvent : bool;
  isFillEvent : bool
}.

(** [currencystatistics.EventStore] (declared outside the embedded files),
    by the fields statistics.go reads and writes: one record per offset.  The
    four events are interface values and may be nil. *)
Record EventStore := {
  DataEvent : option Event;
  SignalEvent : option Event;
  OrderEvent : option Event;
  FillEvent : option Event;
  Holdings : Holding;
  Transactions : Snapshot
}.

(** [currencystatistics.Swing], of which the aggregator reads the drawdown
    percentage. *)
Record Swing := {
  DrawdownPercent : decimal
}.

(** [currencystatistics.CurrencyStatistic] (declared outside the embedded
    files), by the fields statistics.go reads and writes: the timeline of one
    tuple and its aggregated fields. *)
Record CurrencyStatistic := {
  Events : list EventStore;
  MaxDrawdown : Swing;
  MarketMovement : decimal;
  StrategyMovement : decimal;
  BuyOrders : Z;
  SellOrders : Z;
  ShowMissingDataWarning : bool;
  FinalHoldings : Holding;
  InitialHoldings : Holding;
  FinalOrders : Snapshot
}.

(** [FinalResultsHolder]: the terminal summary of one tuple.  Its fields
    [Pair], [MaxDrawdown], [MarketMovement] and [StrategyMovement] carry the
    prefix [Holder] here, next to those of [CurrencyStatistic]. *)
Record FinalResultsHolder := {
  Exchange : string;
  Asset : string;
  HolderPair : Pair;
  HolderMaxDrawdown : Swing;
  HolderMarketMovement : decimal;
  HolderStrategyMovement : decimal
}.

(** The fields of [Statistic] that the embedded functions read or write.
    The nested map is nil until first use; the three best-performer fields
    are pointers and hold the value they point to. *)
Record Statistic {Report : Type} := {
  StrategyName : string;
  ExchangeAssetPairStatistics :
    option (gmap string (gmap string (gmap Pair CurrencyStatistic)));
  AllStats : list CurrencyStatistic;
  TotalBuyOrders : Z;
  TotalSellOrders : Z;
  TotalOrders : Z;
  WasAnyDataMissing : bool;
  Funding : option Report;
  BiggestDrawdown : option FinalResultsHolder;
  BestMarketMovement : option FinalResultsHolder;
  BestStrategyResults : option FinalResultsHolder
}.

End DataModel.

Arguments Event : clear implicits.
Arguments EventStore : clear implicits.
Arguments CurrencyStatistic : clear implicits.
Arguments FinalResultsHolder : clear implicits.
Arguments Statistic Pair {_ _} Holding Snapshot Report.

(** [holdings.Holding] is declared outside the embedded files; these are the
    fields [AddHoldingsForTime] reads. *)
Class HoldingFields (Pair Holding : Type) := {
  HoldingExchange : Holding -> string;
  HoldingAsset : Holding -> string;
  HoldingPair : Holding -> Pair;
  HoldingOffset : Holding -> Z
}.
#[global] Hint Mode HoldingFields - ! : typeclass_instances.

(** The funding source [funding.IFundingManager], by the methods the
    aggregator calls.  [PairReader] is [funding.IPairReader]. *)
Record IFundingManager {Pair Report PairReader : Type} := {
  GetFundingForEvent : Event Pair -> Error + PairReader;
  GenerateReport : Time -> Time -> Report;
  IsUsingExchangeLevelFunding : bool
}.
Arguments IFundingManager : clear implicits.

(** Modelled from the spec: what the per-tuple calculator
    [CurrencyStatistic.CalculateResults] (package currencystatistics, not
    among the sources) leaves on the timeline it is bound to: drawdown, the
    two movements, the buy and sell counts and the missing-data flag. *)
Record Calculated := {
  calcMaxDrawdown : Swing;
  calcMarketMovement : decimal;
  calcStrategyMovement : decimal;
  calcBuyOrders : Z;
  calcSellOrders : Z;
  calcShowMissingDataWarning : bool
}.

(** A [*FinalResultsHolder] as the selectors return it: the address of a
    fresh zero-valued holder, or of an element of the results slice. *)
Inductive HolderRef :=
| FreshHolder
| ElementAt (i : nat).

(** Outcome of a scan over a timeline. *)
Inductive Scan :=
| NotFound
| Found (i : nat)
| ScanPanics (p : PanicKind).

#[global] Instance Swing_GoZero : GoZero Swing :=
  {| DrawdownPercent := zeroValue |}.

(** ** Timeline store: operations *)

Section Operations.
Context {Pair : Type} `{Countable Pair} `{!GoZero Pair} `{!PairEqual Pair}.
Context {Holding Snapshot Report PairReader : Type}.
Context `{!GoZero Holding} `{!GoZero Snapshot}.

Local Abbreviation EventT := (Event Pair).
Local Abbreviation EventStoreT := (EventStore Pair Holding Snapshot).
Local Abbreviation CurrencyStatisticT := (CurrencyStatistic Pair Holding Snapshot).
Local Abbreviation HolderT := (FinalResultsHolder Pair).
Local Abbreviation StatisticT := (Statistic Pair Holding Snapshot Report).
Local Abbreviation PairStats := (gmap string (gmap string (gmap Pair CurrencyStatisticT))).
Local Abbreviation FundingT := (IFundingManager Pair Report PairReader).

#[global] Instance CurrencyStatistic_GoZero : GoZero CurrencyStatisticT :=
  {| Events := []; MaxDrawdown := zeroValue; MarketMovement := zeroValue;
     StrategyMovement := zeroValue; BuyOrders := zeroValue; SellOrders := zeroValue;
     ShowMissingDataWarning := zeroValue; FinalHoldings := zeroValue;
     InitialHoldings := zeroValue; FinalOrders := zeroValue |}.

#[global] Instance FinalResultsHolder_GoZero : GoZero HolderT :=
  {| Exchange := zeroValue; Asset := zeroValue; HolderPair := zeroValue;
     HolderMaxDrawdown := zeroValue; HolderMarketMovement := zeroValue;
     HolderStrategyMovement := zeroValue |}.

#[global] Instance Statistic_GoZero : GoZero StatisticT :=
  {| StrategyName := zeroValue; ExchangeAssetPairStatistics := None; AllStats := [];
     TotalBuyOrders := zeroValue; TotalSellOrders := zeroValue; TotalOrders := zeroValue;
     WasAnyDataMissing := zeroValue; Funding := None; BiggestDrawdown := None;
     BestMarketMovement := None; BestStrategyResults := None |}.

(** [*s = Statistic{}] *)
Definition Reset (s : StatisticT) : StatisticT := zeroValue.

(** [s.StrategyName = name] *)
Definition SetStrategyName (name : string) (s : StatisticT) : StatisticT :=
  {| StrategyName := name;
     ExchangeAssetPairStatistics := ExchangeAssetPairStatistics s;
     AllStats := AllStats s; TotalBuyOrders := TotalBuyOrders s;
     TotalSellOrders := TotalSellOrders s; TotalOrders := TotalOrders s;
     WasAnyDataMissing := WasAnyDataMissing s; Funding := Funding s;
     BiggestDrawdown := BiggestDrawdown s; BestMarketMovement := BestMarketMovement s;
     BestStrategyResults := BestStrategyResults s |}.

(** [s.ExchangeAssetPairStatistics = m] *)
Definition withStatistics (s : StatisticT) (m : option PairStats) : StatisticT :=
  {| StrategyName := StrategyName s;
     ExchangeAssetPairStatistics := m;
     AllStats := AllStats s; TotalBuyOrders := TotalBuyOrders s;
     TotalSellOrders := TotalSellOrders s; TotalOrders := TotalOrders s;
     WasAnyDataMissing := WasAnyDataMissing s; Funding := Funding s;
     BiggestDrawdown := BiggestDrawdown s; BestMarketMovement := BestMarketMovement s;
     BestStrategyResults := BestStrategyResults s |}.

(** [lookup.Events = events] *)
Definition withEvents (c : CurrencyStatisticT) (events : list EventStoreT) : CurrencyStatisticT :=
  {| Events := events; MaxDrawdown := MaxDrawdown c; MarketMovement := MarketMovement c;
     StrategyMovement := StrategyMovement c; BuyOrders := BuyOrders c;
     SellOrders := SellOrders c; ShowMissingDataWarning := ShowMissingDataWarning c;
     FinalHoldings := FinalHoldings c; InitialHoldings := InitialHoldings c;
     FinalOrders := FinalOrders c |}.

(** [currencystatistics.EventStore{DataEvent: ev}] *)
Definition newEventStore (ev : EventT) : EventStoreT :=
  {| DataEvent := Some ev; SignalEvent := None; OrderEvent := None; FillEvent := None;
     Holdings := zeroValue; Transactions := zeroValue |}.

(** [s.ExchangeAssetPairStatistics[ex][a][p]]: a missing key at any level, or
    a nil map, reads as nil. *)
Definition lookupStats (m : PairStats) (ex a : string) (p : Pair) : option CurrencyStatisticT :=
  am ← m !! ex; pm ← am !! a; pm !! p.

(** [setupMap]: makes the nested maps for [ex] and [a] where they are nil. *)
Definition setupMap (ex a : string) (m : option PairStats) : PairStats :=
  let m0 := default ∅ m in
  let m1 := match m0 !! ex with
            | None => <[ex := ∅]> m0
            | Some _ => m0
            end in
  let am := default ∅ (m1 !! ex) in
  match am !! a with
  | None => <[ex := <[a := ∅]> am]> m1
  | Some _ => m1
  end.

(** [s.ExchangeAssetPairStatistics[ex][a][p] = c], also the effect of a write
    through the pointer stored there. *)
Definition storeStats (m : PairStats) (ex a : string) (p : Pair) (c : CurrencyStatisticT) : PairStats :=
  let am := default ∅ (m !! ex) in
  let pm := default ∅ (am !! a) in
  <[ex := <[a := <[p := c]> pm]> am]> m.

(** The condition of the duplicate scan, in the source's order of conjuncts. *)
Definition sameEvent (d ev : EventT) : bool :=
  timeEqual (GetTime d) (GetTime ev)
  && String.eqb (GetExchange d) (GetExchange ev)
  && String.eqb (GetAssetType d) (GetAssetType ev)
  && pairEqual (GetPair d) (GetPair ev)
  && (GetOffset d =? GetOffset ev)%Z.

(** [for i := range lookup.Events { if ... { return ErrAlreadyProcessed } }];
    a method call on a nil [DataEvent] panics. *)
Fixpoint scanDuplicate (ev : EventT) (events : list EventStoreT) (i : nat) : Scan :=
  match events with
  | [] => NotFound
  | r :: rest =>
    match DataEvent r with
    | None => ScanPanics NilDereference
    | Some d => if sameEvent d ev then Found i else scanDuplicate ev rest (S i)
    end
  end.

Definition SetupEventForTime (ev : option EventT) (s : StatisticT) : Result * StatisticT :=
  match ev with
  | None => (Returns (Some ErrNilEvent), s)
  | Some ev =>
    let ex := GetExchange ev in
    let a := GetAssetType ev in
    let p := GetPair ev in
    let m := setupMap ex a (ExchangeAssetPairStatistics s) in
    let lookup := default zeroValue (lookupStats m ex a p) in
    match scanDuplicate ev (Events lookup) 0 with
    | ScanPanics k => (Panics k, withStatistics s (Some m))
    | Found _ => (Returns (Some ErrAlreadyProcessed), withStatistics s (Some m))
    | NotFound =>
      let lookup' := withEvents lookup (Events lookup ++ [newEventStore ev]) in
      (Returns None, withStatistics s (Some (storeStats m ex a p lookup')))
    end
  end.

(** [for i := len(lookup.Events) - 1; i >= 0; i--]: [n] is [i + 1]. *)
Fixpoint scanOffset (events : list EventStoreT) (offset : Z) (n : nat) : Scan :=
  match n with
  | O => NotFound
  | S i =>
    match events !! i with
    | None => ScanPanics IndexOutOfRange
    | Some r =>
      match DataEvent r with
      | None => ScanPanics NilDereference
      | Some d =>
        if (GetOffset d =? offset)%Z then Found i else scanOffset events offset i
      end
    end
  end.

(** The four assignments of [applyEventAtOffset]. *)
Definition withDataEvent (r : EventStoreT) (t : EventT) : EventStoreT :=
  {| DataEvent := Some t; SignalEvent := SignalEvent r; OrderEvent := OrderEvent r;
     FillEvent := FillEvent r; Holdings := Holdings r; Transactions := Transactions r |}.

Definition withSignalEvent (r : EventStoreT) (t : EventT) : EventStoreT :=
  {| DataEvent := DataEvent r; SignalEvent := Some t; OrderEvent := OrderEvent r;
     FillEvent := FillEvent r; Holdings := Holdings r; Transactions := Transactions r |}.

Definition withOrderEvent (r : EventStoreT) (t : EventT) : EventStoreT :=
  {| DataEvent := DataEvent r; SignalEvent := SignalEvent r; OrderEvent := Some t;
     FillEvent := FillEvent r; Holdings := Holdings r; Transactions := Transactions r |}.

Definition withFillEvent (r : EventStoreT) (t : EventT) : EventStoreT :=
  {| DataEvent := DataEvent r; SignalEvent := SignalEvent r; OrderEvent := OrderEvent r;
     FillEvent := Some t; Holdings := Holdings r; Transactions := Transactions r |}.

(** [applyEventAtOffset]: the type switch takes the first interface, in the
    order written, that the event satisfies. *)
Definition applyEventAtOffset (ev : EventT) (lookup : CurrencyStatisticT) (i : nat)
    : Result * CurrencyStatisticT :=
  match Events lookup !! i with
  | None => (Panics IndexOutOfRange, lookup)
  | Some r =>
    if isDataEventHandler ev then
      (Returns None, withEvents lookup (<[i := withDataEvent r ev]> (Events lookup)))
    else if isSignalEvent ev then
      (Returns None, withEvents lookup (<[i := withSignalEvent r ev]> (Events lookup)))
    else if isOrderEvent ev then
      (Returns None, withEvents lookup (<[i := withOrderEvent r ev]> (Events lookup)))
    else if isFillEvent ev then
      (Returns None, withEvents lookup (<[i := withFillEvent r ev]> (Events lookup)))
    else (Returns (Some errUnknownEventType), lookup)
  end.

Definition SetEventForOffset (ev : option EventT) (s : StatisticT) : Result * StatisticT :=
  match ev with
  | None => (Returns (Some ErrNilEvent), s)
  | Some ev =>
    match ExchangeAssetPairStatistics s with
    | None => (Returns (Some errExchangeAssetPairStatsUnset), s)
    | Some m =>
      let exch := GetExchange ev in
      let a := GetAssetType ev in
      let p := GetPair ev in
      let offset := GetOffset ev in
      match lookupStats m exch a p with
      | None => (Returns (Some errCurrencyStatisticsUnset), s)
      | Some lookup =>
        match scanOffset (Events lookup) offset (length (Events lookup)) with
        | ScanPanics k => (Panics k, s)
        | NotFound => (Returns None, s)
        | Found i =>
          let '(r, lookup') := applyEventAtOffset ev lookup i in
          (r, withStatistics s (Some (storeStats m exch a p lookup')))
        end
      end
    end
  end.

(** [lookup.Events[i].Holdings = *h] and [lookup.Events[i].Transactions = c] *)
Definition withHoldings (r : EventStoreT) (h : Holding) : EventStoreT :=
  {| DataEvent := DataEvent r; SignalEvent := SignalEvent r; OrderEvent := OrderEvent r;
     FillEvent := FillEvent r; Holdings := h; Transactions := Transactions r |}.

Definition withTransactions (r : EventStoreT) (c : Snapshot) : EventStoreT :=
  {| DataEvent := DataEvent r; SignalEvent := SignalEvent r; OrderEvent := OrderEvent r;
     FillEvent := FillEvent r; Holdings := Holdings r; Transactions := c |}.

(** The write to the record the backward scan stopped at. *)
Definition updateRecord (s : StatisticT) (m : PairStats) (ex a : string) (p : Pair)
    (lookup : CurrencyStatisticT) (i : nat) (f : EventStoreT -> EventStoreT)
    : Result * StatisticT :=
  match Events lookup !! i with
  | None => (Panics IndexOutOfRange, s)
  | Some r =>
    (Returns None,
     withStatistics s
       (Some (storeStats m ex a p (withEvents lookup (<[i := f r]> (Events lookup))))))
  end.

(** [AddHoldingsForTime]: [h] is a pointer, read without a nil check once
    the store is known to be set. *)
Definition AddHoldingsForTime `{!HoldingFields Pair Holding} (h : option Holding)
    (s : StatisticT) : Result * StatisticT :=
  match ExchangeAssetPairStatistics s with
  | None => (Returns (Some errExchangeAssetPairStatsUnset), s)
  | Some m =>
    match h with
    | None => (Panics NilDereference, s)
    | Some h =>
      let ex := HoldingExchange h in
      let a := HoldingAsset h in
      let p := HoldingPair h in
      match lookupStats m ex a p with
      | None => (Returns (Some errCurrencyStatisticsUnset), s)
      | Some lookup =>
        match scanOffset (Events lookup) (HoldingOffset h) (length (Events lookup)) with
        | ScanPanics k => (Panics k, s)
        | NotFound => (Returns None, s)
        | Found i => updateRecord s m ex a p lookup i (fun r => withHoldings r h)
        end
      end
    end
  end.

Definition AddComplianceSnapshotForTime (c : Snapshot) (e : option EventT)
    (s : StatisticT) : Result * StatisticT :=
  match e with
  | None => (Returns (Some ErrNilEvent), s)
  | Some e =>
    match ExchangeAssetPairStatistics s with
    | None => (Returns (Some errExchangeAssetPairStatsUnset), s)
    | Some m =>
      let exch := GetExchange e in
      let a := GetAssetType e in
      let p := GetPair e in
      match lookupStats m exch a p with
      | None => (Returns (Some errCurrencyStatisticsUnset), s)
      | Some lookup =>
        match scanOffset (Events lookup) (GetOffset e) (length (Events lookup)) with
        | ScanPanics k => (Panics k, s)
        | NotFound => (Returns None, s)
        | Found i => updateRecord s m exch a p lookup i (fun r => withTransactions r c)
        end
      end
    end
  end.

(** ** Results aggregator: best-performer selectors *)

(** [*result] *)
Definition deref (results : list HolderT) (result : HolderRef) : HolderT :=
  match result with
  | FreshHolder => zeroValue
  | ElementAt i => default zeroValue (results !! i)
  end.

(** The loop of [GetBestStrategyPerformer] and of
    [GetTheBiggestDrawdownAcrossCurrencies], over the metric each compares:
    [rest] is [results[i:]]. *)
Fixpoint rangeBest (metric : HolderT -> decimal) (results rest : list HolderT)
    (i : nat) (result : HolderRef) : HolderRef :=
  match rest with
  | [] => result
  | candidate :: rest' =>
    if GreaterThan (metric candidate) (metric (deref results result))
       || IsZero (metric (deref results result))
    then rangeBest metric results rest' (S i) (ElementAt i)
    else rangeBest metric results rest' (S i) result
  end.

(** The loop of [GetBestMarketPerformer]: as above, with the [break] that
    follows the assignment. *)
Fixpoint rangeBestBreak (metric : HolderT -> decimal) (results rest : list HolderT)
    (i : nat) (result : HolderRef) : HolderRef :=
  match rest with
  | [] => result
  | candidate :: rest' =>
    if GreaterThan (metric candidate) (metric (deref results result))
       || IsZero (metric (deref results result))
    then ElementAt i
    else rangeBestBreak metric results rest' (S i) result
  end.

Definition GetBestMarketPerformer (results : list HolderT) : HolderRef :=
  rangeBestBreak HolderMarketMovement results results 0 FreshHolder.

Definition GetBestStrategyPerformer (results : list HolderT) : HolderRef :=
  rangeBest HolderStrategyMovement results results 0 FreshHolder.

Definition drawdownOf (h : HolderT) : decimal := DrawdownPercent (HolderMaxDrawdown h).

Definition GetTheBiggestDrawdownAcrossCurrencies (results : list HolderT) : HolderRef :=
  rangeBest drawdownOf results results 0 FreshHolder.

(** ** Results aggregator: [CalculateAllResults] *)

(** The per-tuple calculator [stats.CalculateResults(f)]: what it computes
    from the timeline and the funding view, and its error. *)
Variable CalculateResults : CurrencyStatisticT -> PairReader -> Calculated * option Error.

(** The calculator's side effects on [stats]. *)
Definition withCalculated (c : CurrencyStatisticT) (r : Calculated) : CurrencyStatisticT :=
  {| Events := Events c; MaxDrawdown := calcMaxDrawdown r;
     MarketMovement := calcMarketMovement r;
     StrategyMovement := calcStrategyMovement r; BuyOrders := calcBuyOrders r;
     SellOrders := calcSellOrders r;
     ShowMissingDataWarning := calcShowMissingDataWarning r;
     FinalHoldings := FinalHoldings c; InitialHoldings := InitialHoldings c;
     FinalOrders := FinalOrders c |}.

(** [stats.FinalHoldings = fh; stats.InitialHoldings = ih; stats.FinalOrders = fo] *)
Definition withTerminal (c : CurrencyStatisticT) (fh ih : Holding) (fo : Snapshot)
    : CurrencyStatisticT :=
  {| Events := Events c; MaxDrawdown := MaxDrawdown c; MarketMovement := MarketMovement c;
     StrategyMovement := StrategyMovement c; BuyOrders := BuyOrders c;
     SellOrders := SellOrders c; ShowMissingDataWarning := ShowMissingDataWarning c;
     FinalHoldings := fh; InitialHoldings := ih; FinalOrders := fo |}.

(** The tuple's entry of the results list. *)
Definition holderOf (exchangeName assetItem : string) (pair : Pair)
    (stats : CurrencyStatisticT) : HolderT :=
  {| Exchange := exchangeName; Asset := assetItem; HolderPair := pair;
     HolderMaxDrawdown := MaxDrawdown stats;
     HolderMarketMovement := MarketMovement stats;
     HolderStrategyMovement := StrategyMovement stats |}.

(** The writes of one loop iteration to [s]: the tuple's statistic, changed
    through the pointer the map holds, the copy appended to [AllStats], the
    order totals and the missing-data flag. *)
Definition recordTuple (s : StatisticT) (ex a : string) (p : Pair)
    (stats : CurrencyStatisticT) : StatisticT :=
  {| StrategyName := StrategyName s;
     ExchangeAssetPairStatistics :=
       (fun m => storeStats m ex a p stats) <$> ExchangeAssetPairStatistics s;
     AllStats := AllStats s ++ [stats];
     TotalBuyOrders := wrap64 (TotalBuyOrders s + BuyOrders stats);
     TotalSellOrders := wrap64 (TotalSellOrders s + SellOrders stats);
     TotalOrders := TotalOrders s;
     WasAnyDataMissing :=
       if ShowMissingDataWarning stats then true else WasAnyDataMissing s;
     Funding := Funding s;
     BiggestDrawdown := BiggestDrawdown s; BestMarketMovement := BestMarketMovement s;
     BestStrategyResults := BestStrategyResults s |}.

(** The local variables of [CalculateAllResults] next to the receiver. *)
Record Aggregation := {
  statistic : StatisticT;
  currCount : Z;
  finalResults : list HolderT;
  startDate : Time;
  endDate : Time
}.

(** One iteration either falls through to the next one, or leaves the
    function by [return] or by a panic. *)
Inductive Flow :=
| Next (st : Aggregation)
| Stop (r : Result) (s : StatisticT).

(** The reads [stats.Events[len(stats.Events)-1]] and [stats.Events[0]]. *)
Definition lastRecord (stats : CurrencyStatisticT) : option EventStoreT :=
  index (Events stats) (Z.of_nat (length (Events stats)) - 1).

Definition firstRecord (stats : CurrencyStatisticT) : option EventStoreT := index (Events stats) 0.

(** The period a timeline covers: the times of its first and last record. *)
Definition spanOf (stats : CurrencyStatisticT) : option (Time * Time) :=
  first ← firstRecord stats; last ← lastRecord stats;
  d0 ← DataEvent first; dl ← DataEvent last;
  Some (GetTime d0, GetTime dl).

(** The event handed to the funding source: the fill event of the last
    record, else its signal event, else its data event. *)
Definition activeEvent (last : EventStoreT) (dataEvent : EventT) : EventT :=
  match FillEvent last with
  | Some f => f
  | None =>
    match SignalEvent last with
    | Some g => g
    | None => dataEvent
    end
  end.

(** The body of the innermost loop for the tuple [(ex, a, p)] with statistic
    [stats].  Writes to the log are not part of the state.  The calculator
    leaves [stats.Events] as it is, so the read of [stats.Events[0]] after it
    yields [first] again. *)
Definition tupleStep (funds : FundingT) (ex a : string) (p : Pair)
    (stats : CurrencyStatisticT) (st : Aggregation) : Flow :=
  let s := statistic st in
  match lastRecord stats with
  | None => Stop (Panics IndexOutOfRange) s
  | Some last =>
    match firstRecord stats with
    | None => Stop (Panics IndexOutOfRange) s
    | Some first =>
      match DataEvent first, DataEvent last with
      | None, _ | _, None => Stop (Panics NilDereference) s
      | Some d0, Some dl =>
        match GetFundingForEvent funds (activeEvent last dl) with
        | inl err => Stop (Returns (Some err)) s
        | inr f =>
          let '(calculated, _) := CalculateResults stats f in
          let stats1 := withCalculated stats calculated in
          let stats2 :=
            withTerminal stats1 (Holdings last) (Holdings first) (Transactions last) in
          Next {| statistic := recordTuple s ex a p stats2;
                  currCount := currCount st + 1;
                  finalResults := finalResults st ++ [holderOf ex a p stats2];
                  startDate := GetTime d0;
                  endDate := GetTime dl |}
        end
      end
    end
  end.

(** A tuple as the three nested [range] loops reach it. *)
Definition Tuple : Type := string * string * Pair * CurrencyStatisticT.

(** The tuples of the store. *)
Definition tuples (s : StatisticT) : list Tuple :=
  match ExchangeAssetPairStatistics s with
  | None => []
  | Some m =>
    '(ex, am) ← map_to_list m;
    '(a, pm) ← map_to_list am;
    '(p, stats) ← map_to_list pm;
    [(ex, a, p, stats)]
  end.

(** Go leaves the order of a [range] over a map unspecified: [order] is the
    order the run takes, some arrangement of the store's tuples. *)
Definition Traversal (s : StatisticT) (order : list Tuple) : Prop :=
  order ≡ₚ tuples s.

Fixpoint rangeTuples (funds : FundingT) (order : list Tuple) (st : Aggregation) : Flow :=
  match order with
  | [] => Next st
  | (ex, a, p, stats) :: rest =>
    match tupleStep funds ex a p stats st with
    | Next st' => rangeTuples funds rest st'
    | Stop r s => Stop r s
    end
  end.

(** The state on entry: [currCount := 0], a nil results slice and two zero
    times. *)
Definition enter (s : StatisticT) : Aggregation :=
  {| statistic := s; currCount := 0; finalResults := []; startDate := 0%Z; endDate := 0%Z |}.

(** The writes after the loops. *)
Definition finish (funds : FundingT) (st : Aggregation) : StatisticT :=
  let s := statistic st in
  let totalOrders := wrap64 (TotalBuyOrders s + TotalSellOrders s) in
  let many := (1 <? currCount st)%Z in
  let best (sel : list HolderT -> HolderRef) (old : option HolderT) :=
    if many then Some (deref (finalResults st) (sel (finalResults st))) else old in
  {| StrategyName := StrategyName s;
     ExchangeAssetPairStatistics := ExchangeAssetPairStatistics s;
     AllStats := AllStats s;
     TotalBuyOrders := TotalBuyOrders s;
     TotalSellOrders := TotalSellOrders s;
     TotalOrders := totalOrders;
     WasAnyDataMissing := WasAnyDataMissing s;
     Funding := Some (GenerateReport funds (startDate st) (endDate st));
     BiggestDrawdown := best GetTheBiggestDrawdownAcrossCurrencies (BiggestDrawdown s);
     BestMarketMovement := best GetBestMarketPerformer (BestMarketMovement s);
     BestStrategyResults := best GetBestStrategyPerformer (BestStrategyResults s) |}.

(** [CalculateAllResults]: the three nested loops, then the report and the
    cross-tuple summaries.  [PrintAllEventsChronologically], [PrintResults]
    and [PrintTotalResults] only write to the log. *)
Definition CalculateAllResults (funds : FundingT) (order : list Tuple) (s : StatisticT)
    : Result * StatisticT :=
  match rangeTuples funds order (enter s) with
  | Stop r s' => (r, s')
  | Next st => (Returns None, finish funds st)
  end.

End Operations.

(** ** Results aggregator: the chronological audit log *)

From Stdlib Require Import Sorted.
From stdpp Require sorting.

(** [eventOutputHolder]: the lines logged for one instant.  Its fields
    [Time] and [Events] carry the prefix [Output] here. *)
Record eventOutputHolder := {
  OutputTime : Time;
  OutputEvents : list string
}.

(** [events[i].Events = append(events[i].Events, message)] *)
Definition withMessage (e : eventOutputHolder) (message : string) : eventOutputHolder :=
  {| OutputTime := OutputTime e; OutputEvents := OutputEvents e ++ [message] |}.

(** [addEventOutputToTime]: the message joins the first holder of its
    instant, or a new holder at the end. *)
Fixpoint addEventOutputToTime (events : list eventOutputHolder) (t : Time)
    (message : string) : list eventOutputHolder :=
  match events with
  | [] => [{| OutputTime := t; OutputEvents := [message] |}]
  | e :: rest =>
    if timeEqual (OutputTime e) t then withMessage e message :: rest
    else e :: addEventOutputToTime rest t message
  end.

(** [b1.Time.Before(b2.Time)], the order [sort.Slice] is given. *)
Definition outputBefore (b1 b2 : eventOutputHolder) : bool :=
  (OutputTime b1 <? OutputTime b2)%Z.

(** What [sort.Slice] establishes between an element and a later one: the
    later one is not before it. *)
Definition notAfter (b1 b2 : eventOutputHolder) : Prop :=
  outputBefore b2 b1 = false.

#[global] Instance notAfter_dec : RelDecision notAfter :=
  fun b1 b2 => decide (outputBefore b2 b1 = false).

(** [sort.Slice(results, ...)].  It leaves the order of holders of equal
    time open; [addEventOutputToTime] makes no two of them, so the sorted
    slice is determined by its elements, and a merge sort computes it. *)
Definition sortSlice (results : list eventOutputHolder) : list eventOutputHolder :=
  sorting.merge_sort notAfter results.

Section AuditLog.
Context {Pair : Type} `{Countable Pair}.
Context {Holding Snapshot Report : Type}.

Local Abbreviation EventT := (Event Pair).
Local Abbreviation EventStoreT := (EventStore Pair Holding Snapshot).
Local Abbreviation CurrencyStatisticT := (CurrencyStatistic Pair Holding Snapshot).
Local Abbreviation StatisticT := (Statistic Pair Holding Snapshot Report).
Local Abbreviation TupleT := (@Tuple Pair Holding Snapshot).

(** What the audit log reads from outside the embedded files: the direction
    of a fill event, the five directions of package common that mark a fill
    as a note, and the texts [fmt.Sprintf] and [fmt.Errorf] make of an event
    or of a record. *)
Variable GetDirection : EventT -> string.
Variables CouldNotBuy CouldNotSell DoNothing MissingData TransferredFunds : string.
Variables fillNote fillLine signalLine dataLine : EventT -> string.
Variable unexpectedData : string -> string -> Pair -> EventStoreT -> string.

(** The condition under which a fill is rendered in the short form. *)
Definition isNote (direction : string) : bool :=
  String.eqb direction CouldNotBuy
  || String.eqb direction CouldNotSell
  || String.eqb direction DoNothing
  || String.eqb direction MissingData
  || String.eqb direction TransferredFunds
  || String.eqb direction EmptyString.

(** The [switch] of [PrintAllEventsChronologically] for one record: the
    instant and the text it hands to [addEventOutputToTime], or the error
    it appends to [errs]. *)
Definition renderRecord (exch a : string) (p : Pair) (r : EventStoreT)
    : Time * string + string :=
  match FillEvent r with
  | Some f =>
    if isNote (GetDirection f) then inl (GetTime f, fillNote f)
    else inl (GetTime f, fillLine f)
  | None =>
    match SignalEvent r with
    | Some g => inl (GetTime g, signalLine g)
    | None =>
      match DataEvent r with
      | Some d => inl (GetTime d, dataLine d)
      | None => inr (unexpectedData exch a p r)
      end
    end
  end.

(** One iteration of the innermost loop: [results] gains a line, or [errs]
    an error. *)
Definition printRecord (exch a : string) (p : Pair) (r : EventStoreT)
    (acc : list eventOutputHolder * list string) : list eventOutputHolder * list string :=
  let '(results, errs) := acc in
  match renderRecord exch a p r with
  | inl (t, message) => (addEventOutputToTime results t message, errs)
  | inr e => (results, errs ++ [e])
  end.

(** [for i := range currencyStatistic.Events] *)
Definition printTimeline (t : TupleT) (acc : list eventOutputHolder * list string)
    : list eventOutputHolder * list string :=
  let '(exch, a, p, currencyStatistic) := t in
  fold_left (fun acc r => printRecord exch a p r acc) (Events currencyStatistic) acc.

(** The three nested loops over the store, in the order the run takes. *)
Definition printTuples (order : list TupleT) : list eventOutputHolder * list string :=
  fold_left (fun acc t => printTimeline t acc) order ([], []).

Definition eventsHeader : string :=
  "------------------Events-------------------------------------".

Definition errorsHeader : string :=
  "------------------Errors-------------------------------------".

(** [PrintAllEventsChronologically], by the lines it hands to [log.Info]:
    the header, the lines of the holders in the order of their instants,
    and the errors under their header if there are any.  The receiver is
    only read. *)
Definition PrintAllEventsChronologically (order : list TupleT) : list string :=
  let '(results, errs) := printTuples order in
  eventsHeader :: concat (OutputEvents <$> sortSlice results)
  ++ match errs with
     | [] => []
     | _ => errorsHeader :: errs
     end.

End AuditLog.

(** ** Strategy base (strategies/base/base.go) *)

Module base.
Section Base.
Context {Pair : Type} `{!GoZero Pair}.

(** [Strategy]: the base implementation of the strategy handler. *)
Record Strategy := {
  useSimultaneousProcessing : bool;
  usingExchangeLevelFunding : bool
}.

Definition UsingSimultaneousProcessing (s : Strategy) : bool :=
  useSimultaneousProcessing s.

Definition SetSimultaneousProcessing (b : bool) (s : Strategy) : Strategy :=
  {| useSimultaneousProcessing := b;
     usingExchangeLevelFunding := usingExchangeLevelFunding s |}.

Definition UsingExchangeLevelFunding (s : Strategy) : bool :=
  usingExchangeLevelFunding s.

Definition SetExchangeLevelFunding (b : bool) (s : Strategy) : Strategy :=
  {| useSimultaneousProcessing := useSimultaneousProcessing s;
     usingExchangeLevelFunding := b |}.

(** [event.Base], by the fields [GetBaseData] fills; its field [Time] is
    [BaseTime] here. *)
Record Base := {
  Offset : Z;
  Exchange : string;
  BaseTime : Time;
  CurrencyPair : Pair;
  AssetType : string;
  Interval : Z;
  Reason : string
}.

(** [signal.Signal], by the fields [GetBaseData] fills. *)
Record Signal := {
  SignalBase : Base;
  ClosePrice : decimal;
  HighPrice : decimal;
  OpenPrice : decimal;
  LowPrice : decimal
}.

#[global] Instance Base_GoZero : GoZero Base :=
  {| Offset := zeroValue; Exchange := zeroValue; BaseTime := 0%Z;
     CurrencyPair := zeroValue; AssetType := zeroValue; Interval := zeroValue;
     Reason := zeroValue |}.

#[global] Instance Signal_GoZero : GoZero Signal :=
  {| SignalBase := zeroValue; ClosePrice := zeroValue; HighPrice := zeroValue;
     OpenPrice := zeroValue; LowPrice := zeroValue |}.

(** The data event [d.Latest()] returns, a [common.DataEventHandler]: an
    event and the four prices its methods [ClosePrice], [HighPrice],
    [OpenPrice] and [LowPrice] give. *)
Record DataEventHandler := {
  dataEvent : Event Pair;
  closePrice : decimal;
  highPrice : decimal;
  openPrice : decimal;
  lowPrice : decimal
}.

(** [data.Handler], by the one method [GetBaseData] calls; the latest event
    may be nil. *)
Record Handler := {
  Latest : option DataEventHandler
}.

(** [GetBaseData]: the handler is an interface value and may be nil. *)
Definition GetBaseData (d : option Handler) : Signal * option Error :=
  match d with
  | None => (zeroValue, Some ErrNilArguments)
  | Some d =>
    match Latest d with
    | None => (zeroValue, Some ErrNilEvent)
    | Some latest =>
      ({| SignalBase :=
            {| Offset := GetOffset (dataEvent latest);
               Exchange := GetExchange (dataEvent latest);
               BaseTime := GetTime (dataEvent latest);
               CurrencyPair := GetPair (dataEvent latest);
               AssetType := GetAssetType (dataEvent latest);
               Interval := GetInterval (dataEvent latest);
               Reason := GetReason (dataEvent latest) |};
          ClosePrice := closePrice latest;
          HighPrice := highPrice latest;
          OpenPrice := openPrice latest;
          LowPrice := lowPrice latest |}, None)
    end
  end.

(** A signal behind the interface [common.EventHandler]: its getters are
    those of the embedded [event.Base].  Which interfaces of the type switch
    of the statistics it satisfies is decided outside the embedded files. *)
Definition readsBase (g : Signal) (e : Event Pair) : Prop :=
  GetOffset e = Offset (SignalBase g)
  /\ GetExchange e = Exchange (SignalBase g)
  /\ GetTime e = BaseTime (SignalBase g)
  /\ GetPair e = CurrencyPair (SignalBase g)
  /\ GetAssetType e = AssetType (SignalBase g)
  /\ GetInterval e = Interval (SignalBase g)
  /\ GetReason e = Reason (SignalBase g).

End Base.
End base.

(* ===================================================================== *)
(** * Part II: the vocabulary of the properties, and scenario data        *)
(* ===================================================================== *)

(** ** Sizing engine *)

(** The exposure ceiling [maximumTotal * (1 - feeRate) / price]. *)
Definition exposureCeiling (price feeRate : decimal) (c : MinMax) : decimal :=
  (MaximumTotal c * (1 - feeRate) / price)%Q.

(** The candidate quantity of the spec's step 4: the minimum of the
    directional limit, the funds ceiling and, where [maximumTotal] is
    nonzero, the exposure ceiling. *)
Definition candidateQuantity (price availableFunds feeRate limit : decimal) (c : MinMax)
    : decimal :=
  let byFunds := decimalMin limit (availableFunds * (1 - feeRate) / price)%Q in
  if IsZero (MaximumTotal c) then byFunds
  else decimalMin byFunds (exposureCeiling price feeRate c).

(** The exposure ceiling binds when no other limit of the call lies below
    it. *)
Definition exposureBinds (price availableFunds feeRate limit : decimal) (c : MinMax) : Prop :=
  (exposureCeiling price feeRate c <= limit)%Q
  /\ (exposureCeiling price feeRate c <= availableFunds * (1 - feeRate) / price)%Q
  /\ (~ (MaximumSize c == 0)%Q -> (exposureCeiling price feeRate c <= MaximumSize c)%Q).

(** What a sized quantity [q] respects: a nonzero maximum size (a zero one
    leaves the candidate as it is), the directional limit, and a nonzero
    maximum total, reached when the exposure ceiling binds. *)
Definition sizedWithin (price availableFunds feeRate limit : decimal) (c : MinMax)
    (q : decimal) : Prop :=
  (~ (MaximumSize c == 0)%Q -> (q <= MaximumSize c)%Q)
  /\ ((MaximumSize c == 0)%Q -> q = candidateQuantity price availableFunds feeRate limit c)
  /\ (q <= limit)%Q
  /\ (~ (MaximumTotal c == 0)%Q ->
      (price * q + feeRate * MaximumTotal c <= MaximumTotal c)%Q
      /\ (exposureBinds price availableFunds feeRate limit c ->
          (price * q + feeRate * MaximumTotal c == MaximumTotal c)%Q)).

(** ** Timeline store *)

Section StoreVocabulary.
Context {Pair : Type} `{Countable Pair}.
Context {Holding Snapshot Report : Type}.

Local Abbreviation EventT := (Event Pair).
Local Abbreviation EventStoreT := (EventStore Pair Holding Snapshot).
Local Abbreviation StatisticT := (Statistic Pair Holding Snapshot Report).

Implicit Types (s : StatisticT) (ev : EventT) (r : EventStoreT) (events : list EventStoreT).

(** Every record of a timeline the store's operations build holds its data
    event. *)
Definition timelineOk events : Prop :=
  Forall (fun r => is_Some (DataEvent r)) events.

(** The offset a record stands for. *)
Definition offsetOf r : option Z := GetOffset <$> DataEvent r.

(** The invariant of the store: every registered timeline holds at least one
    record, and every record holds its data event. *)
Definition storeOk s : Prop :=
  forall m ex a p c,
    ExchangeAssetPairStatistics s = Some m ->
    lookupStats m ex a p = Some c ->
    Events c <> [] /\ timelineOk (Events c).

(** The latest record of [events] that stands for [offset]. *)
Definition latestAt events (offset : Z) (i : nat) r : Prop :=
  events !! i = Some r /\ offsetOf r = Some offset
  /\ forall j r', i < j -> events !! j = Some r' -> offsetOf r' <> Some offset.

(** The kind of an event: the first of the four interfaces it satisfies. *)
Inductive EventKind :=
| MarketDataKind
| SignalKind
| OrderKind
| FillKind.

Definition kindOf ev : option EventKind :=
  if isDataEventHandler ev then Some MarketDataKind
  else if isSignalEvent ev then Some SignalKind
  else if isOrderEvent ev then Some OrderKind
  else if isFillEvent ev then Some FillKind
  else None.

(** The field of a record that holds the events of a kind. *)
Definition fieldOf (k : EventKind) r : option EventT :=
  match k with
  | MarketDataKind => DataEvent r
  | SignalKind => SignalEvent r
  | OrderKind => OrderEvent r
  | FillKind => FillEvent r
  end.

End StoreVocabulary.

(** ** Best-performer selectors *)

Section SelectorVocabulary.
Context {Pair : Type} `{!GoZero Pair}.

Local Abbreviation HolderT := (FinalResultsHolder Pair).

Implicit Types (rs : list HolderT) (metric : HolderT -> decimal).

(** The selection rule in the spec's words, on values: a running best that
    starts at the zero value and is replaced by a candidate whose metric is
    strictly greater, or whenever its own metric is zero. *)
Definition replaces metric (candidate best : HolderT) : bool :=
  GreaterThan (metric candidate) (metric best) || IsZero (metric best).

Definition runningBest metric rs : HolderT :=
  fold_left (fun best candidate => if replaces metric candidate best then candidate else best)
            rs zeroValue.

(** A reference that points into [rs], or to the fresh holder. *)
Definition refWithin rs (ref : HolderRef) : Prop :=
  match ref with
  | FreshHolder => True
  | ElementAt j => j < length rs
  end.

(** What it is for a selector to follow the rule over a metric. *)
Definition selectsBy (sel : list HolderT -> HolderRef) metric : Prop :=
  (forall rs, refWithin rs (sel rs) /\ deref rs (sel rs) = runningBest metric rs)
  /\ (forall z p, (metric z == 0)%Q -> (0 < metric p)%Q -> sel [z; p] = ElementAt 1)
  /\ (forall rs, rs <> [] -> Forall (fun r => (metric r == 0)%Q) rs ->
        sel rs = ElementAt (length rs - 1)).

End SelectorVocabulary.

(** ** Scenario data: sizing (size_test.go) *)

Section SizingScenarios.
Local Open Scope Q_scope.

(** [config.MinMax{MinimumSize: lo, MaximumSize: hi, MaximumTotal: total}] *)
Definition minMax (lo hi total : decimal) : MinMax :=
  {| MinimumSize := lo; MaximumSize := hi; MaximumTotal := total |}.

(** [TestSizingAccuracy] (Scenario A). *)
Definition scenarioA : MinMax :=
  {| MinimumSize := 0; MaximumSize := 1; MaximumTotal := 10 |}.

(** An exposure limit of 10 and no size limits. *)
Definition exposureTen : MinMax :=
  {| MinimumSize := 0; MaximumSize := 0; MaximumTotal := 10 |}.

(** An order of nonzero price with no direction set. *)
Definition undirected : Order :=
  {| Direction := OtherSide EmptyString; Price := 1; Amount := 0 |}.

Definition noFee : unit -> decimal := fun _ => 0%Q.

Definition unconstrained : Size :=
  {| BuySide := zeroValue; SellSide := zeroValue |}.

End SizingScenarios.

(** ** Scenario data: store and aggregator

    Pairs are written as strings and compared as such; holdings and
    compliance snapshots are numbered; a funding report is the period it was
    asked for. *)

#[local] Instance string_PairEqual : PairEqual string := String.eqb.

Definition StatisticF : Type := Statistic string Z Z (Time * Time).

Definition candle (exchange asset pair : string) (time offset : Z) : Event string :=
  {| GetOffset := offset; GetExchange := exchange; GetTime := time; GetPair := pair;
     GetAssetType := asset; GetInterval := 3600; GetReason := EmptyString;
     isDataEventHandler := true; isSignalEvent := false; isOrderEvent := false;
     isFillEvent := false |}.

Definition signalFor (exchange asset pair : string) (time offset : Z) : Event string :=
  {| GetOffset := offset; GetExchange := exchange; GetTime := time; GetPair := pair;
     GetAssetType := asset; GetInterval := 3600; GetReason := EmptyString;
     isDataEventHandler := false; isSignalEvent := true; isOrderEvent := false;
     isFillEvent := false |}.

(** The store after [SetupEventForTime(ev)]. *)
Definition recorded (ev : Event string) (s : StatisticF) : StatisticF :=
  (SetupEventForTime (Some ev) s).2.

Definition btc0 : Event string := candle "binance" "spot" "BTC-USD" 1 0.
Definition btc1 : Event string := candle "binance" "spot" "BTC-USD" 2 1.
Definition eth0 : Event string := candle "kraken" "spot" "ETH-USD" 5 0.
Definition eth1 : Event string := candle "kraken" "spot" "ETH-USD" 9 1.
Definition btcSignal1 : Event string := signalFor "binance" "spot" "BTC-USD" 2 1.

Definition btcTimeline : CurrencyStatistic string Z Z :=
  withEvents zeroValue [newEventStore btc0; newEventStore btc1].

Definition ethTimeline : CurrencyStatistic string Z Z :=
  withEvents zeroValue [newEventStore eth0; newEventStore eth1].

Definition btcTuple : @Tuple string Z Z := ("binance", "spot", "BTC-USD", btcTimeline).
Definition ethTuple : @Tuple string Z Z := ("kraken", "spot", "ETH-USD", ethTimeline).

(** Two tuples of two records each: BTC-USD from time 1 to 2, ETH-USD from
    time 5 to 9. *)
Definition mapTwo : gmap string (gmap string (gmap string (CurrencyStatistic string Z Z))) :=
  storeStats (storeStats ∅ "binance" "spot" "BTC-USD" btcTimeline)
             "kraken" "spot" "ETH-USD" ethTimeline.

Definition storeTwo : StatisticF := withStatistics zeroValue (Some mapTwo).

(** A store whose one registered timeline holds no record. *)
Definition storeHollow : StatisticF :=
  withStatistics zeroValue (Some (storeStats ∅ "binance" "spot" "BTC-USD" zeroValue)).

(** A funding source that serves every event, and one that serves none. *)
Definition fundsServing : IFundingManager string (Time * Time) unit :=
  {| GetFundingForEvent := fun _ => inr tt;
     GenerateReport := fun startDate endDate => (startDate, endDate);
     IsUsingExchangeLevelFunding := false |}.

Definition fundsFailing : IFundingManager string (Time * Time) unit :=
  {| GetFundingForEvent := fun _ => inl (errExternal "funding");
     GenerateReport := fun startDate endDate => (startDate, endDate);
     IsUsingExchangeLevelFunding := false |}.

Definition threeBuys : Calculated :=
  {| calcMaxDrawdown := zeroValue; calcMarketMovement := 0%Q; calcStrategyMovement := 0%Q;
     calcBuyOrders := 3; calcSellOrders := 2; calcShowMissingDataWarning := false |}.

(** A calculator that succeeds, and one that reports an error. *)
Definition calculates : CurrencyStatistic string Z Z -> unit -> Calculated * option Error :=
  fun _ _ => (threeBuys, None).

Definition miscalculates : CurrencyStatistic string Z Z -> unit -> Calculated * option Error :=
  fun _ _ => (threeBuys, Some (errExternal "calculation")).

(** The times of all records of the store. *)
Definition recordTimes (s : StatisticF) : list Time :=
  t ← tuples s; r ← Events t.2; d ← option_list (DataEvent r); [GetTime d].

Definition earliest (times : list Time) : option Time :=
  match times with
  | [] => None
  | t :: rest => Some (foldr Z.min t rest)
  end.

Definition latest (times : list Time) : option Time :=
  match times with
  | [] => None
  | t :: rest => Some (foldr Z.max t rest)
  end.

(** ** Scenario data: selectors *)

Definition holderWith (exchange : string) (drawdown market strategy : decimal)
    : FinalResultsHolder string :=
  {| Exchange := exchange; Asset := "spot"; HolderPair := "BTC-USD";
     HolderMaxDrawdown := {| DrawdownPercent := drawdown |};
     HolderMarketMovement := market; HolderStrategyMovement := strategy |}.

(** An entry with all metrics zero, another one, and an entry with all
    metrics positive. *)
Definition flat : FinalResultsHolder string := holderWith "binance" 0 0 0.
Definition flatToo : FinalResultsHolder string := holderWith "kraken" 0 0 0.
Definition rising : FinalResultsHolder string := holderWith "bitstamp" 5 5 5.

(** ** Timeline store: reading the store *)

Section StoreReading.
Context {Pair : Type} `{Countable Pair}.
Context {Holding Snapshot Report : Type}.

Local Abbreviation EventT := (Event Pair).
Local Abbreviation EventStoreT := (EventStore Pair Holding Snapshot).
Local Abbreviation CurrencyStatisticT := (CurrencyStatistic Pair Holding Snapshot).
Local Abbreviation StatisticT := (Statistic Pair Holding Snapshot Report).

(** The tuple an event belongs to. *)
Definition tupleOf (ev : EventT) : string * string * Pair :=
  (GetExchange ev, GetAssetType ev, GetPair ev).

(** The statistic registered for a tuple, if the store is set and holds
    one. *)
Definition lookupIn (s : StatisticT) (k : string * string * Pair) : option CurrencyStatisticT :=
  m ← ExchangeAssetPairStatistics s; lookupStats m k.1.1 k.1.2 k.2.

(** The timeline of a tuple; a tuple without a statistic has none. *)
Definition timelineOf (s : StatisticT) (k : string * string * Pair) : list EventStoreT :=
  match lookupIn s k with
  | Some c => Events c
  | None => []
  end.

(** What the enrichment by offset leaves alone in a record: its offset, its
    holdings and its compliance snapshot. *)
Definition recordFrame (r : EventStoreT) : option Z * Holding * Snapshot :=
  (offsetOf r, Holdings r, Transactions r).

(** The fields of the store that hold no record: its name, its totals and
    its summaries across tuples.  [AllStats] is left out: it holds copies of
    statistics, and the [Events] of a copy share their backing array with
    the timeline they were copied from. *)
Definition summaryOf (s : StatisticT) :=
  (StrategyName s, TotalBuyOrders s, TotalSellOrders s, TotalOrders s,
   WasAnyDataMissing s, Funding s, BiggestDrawdown s, BestMarketMovement s,
   BestStrategyResults s).

End StoreReading.

(** ** Timeline store: enrichment, on timelines *)

Section Enrichment.
Context {Pair : Type} `{Countable Pair}.
Context {Holding Snapshot Report : Type}.

Local Abbreviation EventT := (Event Pair).
Local Abbreviation EventStoreT := (EventStore Pair Holding Snapshot).
Local Abbreviation StatisticT := (Statistic Pair Holding Snapshot Report).

(** The write [f] at the record of index [i], and at the record the
    backward scan for [offset] stops at; a timeline the scan finds nothing
    in stays as it is. *)
Definition setAt (f : EventStoreT -> EventStoreT) (i : nat)
    (events : list EventStoreT) : list EventStoreT :=
  match events !! i with
  | Some r => <[i := f r]> events
  | None => events
  end.

Definition setLatest (f : EventStoreT -> EventStoreT) (offset : Z)
    (events : list EventStoreT) : list EventStoreT :=
  match scanOffset events offset (length events) with
  | Found i => setAt f i events
  | _ => events
  end.

(** The assignment [applyEventAtOffset] makes for an event, by its kind. *)
Definition enrichWith (ev : EventT) (r : EventStoreT) : EventStoreT :=
  match kindOf ev with
  | Some MarketDataKind => withDataEvent r ev
  | Some SignalKind => withSignalEvent r ev
  | Some OrderKind => withOrderEvent r ev
  | Some FillKind => withFillEvent r ev
  | None => r
  end.

(** The tuple a holding belongs to. *)
Definition holdingTuple `{!HoldingFields Pair Holding} (h : Holding) : string * string * Pair :=
  (HoldingExchange h, HoldingAsset h, HoldingPair h).

(** What the statistics answer when nothing was recorded: the store is not
    set, or it holds no statistic for the tuple [k]. *)
Definition unsetVerdict (res : Result) (s : StatisticT) (k : string * string * Pair) : Prop :=
  (res = Returns (Some errExchangeAssetPairStatsUnset)
   <-> ExchangeAssetPairStatistics s = None)
  /\ (res = Returns (Some errCurrencyStatisticsUnset)
      <-> ExchangeAssetPairStatistics s <> None /\ lookupIn s k = None).

(** What an enrichment returns: the two unset errors, the outcome of the
    scan, and [found] where the scan stops at a record. *)
Definition enrichVerdict (s : StatisticT) (k : string * string * Pair) (offset : Z)
    (found : Result) : Result :=
  match ExchangeAssetPairStatistics s with
  | None => Returns (Some errExchangeAssetPairStatsUnset)
  | Some _ =>
    match lookupIn s k with
    | None => Returns (Some errCurrencyStatisticsUnset)
    | Some c =>
      match scanOffset (Events c) offset (length (Events c)) with
      | ScanPanics kind => Panics kind
      | NotFound => Returns None
      | Found _ => found
      end
    end
  end.

(** What the type switch returns for an event. *)
Definition kindVerdict (ev : EventT) : Result :=
  match kindOf ev with
  | Some _ => Returns None
  | None => Returns (Some errUnknownEventType)
  end.

(** [events'] is [events] with [f] applied to the latest record at
    [offset], and to no other. *)
Definition attachedAt (f : EventStoreT -> EventStoreT) (offset : Z)
    (events events' : list EventStoreT) : Prop :=
  length events' = length events
  /\ forall i r, events !! i = Some r ->
       (latestAt events offset i r -> events' !! i = Some (f r))
       /\ (~ latestAt events offset i r -> events' !! i = Some r).

End Enrichment.

(** ** Timeline store: histories of calls *)

Section Histories.
Context {Pair : Type} `{Countable Pair} `{!GoZero Pair} `{!PairEqual Pair}.
Context {Holding Snapshot Report : Type}.
Context `{!GoZero Holding} `{!GoZero Snapshot} `{!HoldingFields Pair Holding}.

Local Abbreviation EventT := (Event Pair).
Local Abbreviation StatisticT := (Statistic Pair Holding Snapshot Report).

(** The calls a run makes on the store while it processes events. *)
Inductive Call :=
| CallReset
| CallSetStrategyName (name : string)
| CallSetupEventForTime (ev : option EventT)
| CallSetEventForOffset (ev : option EventT)
| CallAddHoldingsForTime (h : option Holding)
| CallAddComplianceSnapshotForTime (c : Snapshot) (e : option EventT).

(** A method without a result returns normally. *)
Definition call (x : Call) (s : StatisticT) : Result * StatisticT :=
  match x with
  | CallReset => (Returns None, Reset s)
  | CallSetStrategyName name => (Returns None, SetStrategyName name s)
  | CallSetupEventForTime ev => SetupEventForTime ev s
  | CallSetEventForOffset ev => SetEventForOffset ev s
  | CallAddHoldingsForTime h => AddHoldingsForTime h s
  | CallAddComplianceSnapshotForTime c e => AddComplianceSnapshotForTime c e s
  end.

(** The store after the calls [xs], in this order, on a fresh [Statistic]. *)
Definition history (xs : list Call) : StatisticT :=
  fold_left (fun s x => (call x s).2) xs zeroValue.

End Histories.


(** ** Best-performer selectors: the greatest entry *)

Section SelectorReading.
Context {Pair : Type}.

Local Abbreviation HolderT := (FinalResultsHolder Pair).

(** [ref] points at the first entry of [rs] among those of greatest
    metric. *)
Definition leftmostMaximum (metric : HolderT -> decimal) (rs : list HolderT)
    (ref : HolderRef) : Prop :=
  exists j best,
    ref = ElementAt j /\ rs !! j = Some best
    /\ (forall r, r ∈ rs -> (metric r <= metric best)%Q)
    /\ (forall i r, i < j -> rs !! i = Some r -> (metric r < metric best)%Q).

End SelectorReading.

(** ** Results aggregator: what a run settles *)

Section AggregatorReading.
Context {Pair : Type} `{Countable Pair}.
Context {Holding Snapshot Report PairReader : Type}.

Local Abbreviation CurrencyStatisticT := (CurrencyStatistic Pair Holding Snapshot).
Local Abbreviation HolderT := (FinalResultsHolder Pair).
Local Abbreviation StatisticT := (Statistic Pair Holding Snapshot Report).
Local Abbreviation FundingT := (IFundingManager Pair Report PairReader).
Local Abbreviation TupleT := (@Tuple Pair Holding Snapshot).

Variable CalculateResults : CurrencyStatisticT -> PairReader -> Calculated * option Error.

(** The statistic an iteration of [CalculateAllResults] leaves behind the
    tuple's pointer, when its reads are in range and the funding source
    serves the tuple. *)
Definition settled (funds : FundingT) (stats : CurrencyStatisticT)
    : option CurrencyStatisticT :=
  last ← lastRecord stats;
  first ← firstRecord stats;
  _ ← DataEvent first;
  dl ← DataEvent last;
  match GetFundingForEvent funds (activeEvent last dl) with
  | inl _ => None
  | inr f =>
    Some (withTerminal (withCalculated stats (CalculateResults stats f).1)
            (Holdings last) (Holdings first) (Transactions last))
  end.

(** The tuples of a run with their settled statistics, if every iteration
    falls through. *)
Fixpoint settleAll (funds : FundingT) (order : list TupleT) : option (list TupleT) :=
  match order with
  | [] => Some []
  | (ex, a, p, stats) :: rest =>
    c ← settled funds stats;
    ts ← settleAll funds rest;
    Some ((ex, a, p, c) :: ts)
  end.

(** The writes of the iterations to the receiver, and the results list. *)
Definition recordAll (s : StatisticT) (ts : list TupleT) : StatisticT :=
  fold_left (fun s (t : TupleT) => recordTuple s t.1.1.1 t.1.1.2 t.1.2 t.2) ts s.

Definition holdersOf (ts : list TupleT) : list HolderT :=
  (fun t : TupleT => holderOf t.1.1.1 t.1.1.2 t.1.2 t.2) <$> ts.

(** The sum of an order count over the settled statistics. *)
Definition totalOf (count : CurrencyStatisticT -> Z) (ts : list TupleT) : Z :=
  foldr Z.add 0%Z ((fun t : TupleT => count t.2) <$> ts).

(** What the funding source answers for a tuple: it is asked for the active
    event of the last record. *)
Definition fundingFor (funds : FundingT) (stats : CurrencyStatisticT)
    : option (Error + PairReader) :=
  last ← lastRecord stats;
  dl ← DataEvent last;
  Some (GetFundingForEvent funds (activeEvent last dl)).

End AggregatorReading.

(** ** Audit log: what is logged, and where *)

(** The messages a list of holders has for an instant. *)
Definition messagesAt (u : Time) (events : list eventOutputHolder) : list string :=
  concat (OutputEvents <$> filter (fun b => OutputTime b = u) events).

(** The holders that adding the lines [es] one by one, to no holder at
    first, makes. *)
Definition bucketsOf (es : list (Time * string)) : list eventOutputHolder :=
  fold_left (fun acc e => addEventOutputToTime acc e.1 e.2) es [].

(** The texts of the lines of an instant, in the order of [es]. *)
Definition linesAt (u : Time) (es : list (Time * string)) : list string :=
  snd <$> filter (fun e => e.1 = u) es.

(** The texts in the order of their instants, each instant once; the lines
    of one instant stay in the order of [es]. *)
Definition chronological (es : list (Time * string)) : list string :=
  concat ((fun u => linesAt u es) <$> sorting.merge_sort Z.le (remove_dups (fst <$> es))).

(** The lines and the errors among what the records give. *)
Definition linesOf (xs : list (Time * string + string)) : list (Time * string) :=
  omap (fun x => match x with inl e => Some e | inr _ => None end) xs.

Definition errorsOf (xs : list (Time * string + string)) : list string :=
  omap (fun x => match x with inl _ => None | inr e => Some e end) xs.

Section AuditReading.
Context {Pair : Type} `{Countable Pair}.
Context {Holding Snapshot : Type}.

Local Abbreviation EventStoreT := (EventStore Pair Holding Snapshot).
Local Abbreviation TupleT := (@Tuple Pair Holding Snapshot).

(** What the records of the store give, in the order of the run and of
    each timeline, under the rendering [render] of one record. *)
Definition rendered (render : string -> string -> Pair -> EventStoreT -> Time * string + string)
    (order : list TupleT) : list (Time * string + string) :=
  t ← order; render t.1.1.1 t.1.1.2 t.1.2 <$> Events t.2.

(** The records of the store, in the same order. *)
Definition recordsOf (order : list TupleT) : list EventStoreT :=
  t ← order; Events t.2.

End AuditReading.

(** ** Scenario data: further events, holdings and the audit log *)

(** The third BTC-USD candle, and a signal for it. *)
Definition btc2 : Event string := candle "binance" "spot" "BTC-USD" 3 2.
Definition btcSignal2 : Event string := signalFor "binance" "spot" "BTC-USD" 3 2.

(** The holdings of the scenarios are BTC-USD holdings on binance, told
    apart by their offset. *)
#[global] Instance offsetHolding : HoldingFields string Z :=
  {| HoldingExchange := fun _ => "binance"; HoldingAsset := fun _ => "spot";
     HoldingPair := fun _ => "BTC-USD"; HoldingOffset := fun h => h |}.

(** Three entries without a zero metric; the second and the third share
    the greatest strategy movement and drawdown. *)
Definition threeHolders : list (FinalResultsHolder string) :=
  [holderWith "binance" 2 1 (-3); holderWith "kraken" 7 1 4; holderWith "bitstamp" 7 1 4].

(** Two holders of the audit log. *)
Definition twoHolders : list eventOutputHolder :=
  [{| OutputTime := 5%Z; OutputEvents := ["eth"] |};
   {| OutputTime := 1%Z; OutputEvents := ["btc"] |}].

(** The audit log of the scenarios: every fill is a purchase, and a line
    names the kind of its event and its exchange. *)
Definition lineOf (kind : string) (ev : Event string) : string :=
  (kind ++ " " ++ GetExchange ev)%string.

Definition scenarioHolders (order : list (@Tuple string Z Z)) : list eventOutputHolder :=
  (printTuples (fun _ => "BUY") "COULD NOT BUY" "COULD NOT SELL" "DO NOTHING"
     "MISSING DATA" "TRANSFERRED FUNDS" (lineOf "note") (lineOf "fill")
     (lineOf "signal") (lineOf "data") (fun _ _ _ _ => "unexpected data") order).1.

(** The holders of [storeTwo], in the order of their instants. *)
Definition fourHolders : list eventOutputHolder :=
  [{| OutputTime := 1%Z; OutputEvents := ["data binance"] |};
   {| OutputTime := 2%Z; OutputEvents := ["data binance"] |};
   {| OutputTime := 5%Z; OutputEvents := ["data kraken"] |};
   {| OutputTime := 9%Z; OutputEvents := ["data kraken"] |}].

(** A data handler whose latest event is the third BTC-USD candle. *)
Definition handlerAtBtc2 : @base.Handler string :=
  {| base.Latest :=
       Some {| base.dataEvent := btc2; base.closePrice := 10; base.highPrice := 12;
               base.openPrice := 9; base.lowPrice := 8 |} |}.
(* ===================================================================== *)
(** * Part III: properties                                                *)
(* ===================================================================== *)

(** A call that returns a pair, known by its first component. *)
Lemma outcome_with_state {A B : Type} (x : A * B) (a : A) : x.1 = a -> x = (a, x.2).
Proof. destruct x. simpl. now intros ->. Qed.

(** ** Decimal comparisons *)

Lemma IsZero_true d : IsZero d = true <-> (d == 0)%Q.
Proof. unfold IsZero. apply Qeq_bool_iff. Qed.

Lemma IsZero_false d : IsZero d = false <-> ~ (d == 0)%Q.
Proof.
  rewrite <- IsZero_true. destruct (IsZero d); split; congruence.
Qed.

Lemma LessThanOrEqual_true a b : LessThanOrEqual a b = true <-> (a <= b)%Q.
Proof. unfold LessThanOrEqual. apply Qle_bool_iff. Qed.

Lemma LessThanOrEqual_false a b : LessThanOrEqual a b = false <-> (b < a)%Q.
Proof.
  split.
  - intros E. apply Qnot_le_lt. intros L. apply LessThanOrEqual_true in L. congruence.
  - intros L. destruct (LessThanOrEqual a b) eqn:E; [|reflexivity].
    apply LessThanOrEqual_true in E. exfalso. exact (Qlt_not_le _ _ L E).
Qed.

Lemma GreaterThan_true a b : GreaterThan a b = true <-> (b < a)%Q.
Proof. unfold GreaterThan. rewrite negb_true_iff. apply LessThanOrEqual_false. Qed.

Lemma GreaterThan_false a b : GreaterThan a b = false <-> (a <= b)%Q.
Proof. unfold GreaterThan. rewrite negb_false_iff. apply LessThanOrEqual_true. Qed.

Lemma LessThan_true a b : LessThan a b = true <-> (a < b)%Q.
Proof. unfold LessThan. rewrite negb_true_iff. apply LessThanOrEqual_false. Qed.

Lemma decimalMin_le_l a b : (decimalMin a b <= a)%Q.
Proof.
  unfold decimalMin. destruct (LessThanOrEqual a b) eqn:E.
  - apply Qle_refl.
  - apply LessThanOrEqual_false in E. now apply Qlt_le_weak.
Qed.

Lemma decimalMin_le_r a b : (decimalMin a b <= b)%Q.
Proof.
  unfold decimalMin. destruct (LessThanOrEqual a b) eqn:E.
  - now apply LessThanOrEqual_true.
  - apply Qle_refl.
Qed.

Lemma decimalMin_r a b : (b <= a)%Q -> (decimalMin a b == b)%Q.
Proof.
  intros Hle. unfold decimalMin. destruct (LessThanOrEqual a b) eqn:E.
  - apply LessThanOrEqual_true in E. now apply Qle_antisym.
  - reflexivity.
Qed.

(** A quantity below a ceiling [x / p] costs at most [x] at the positive
    price [p]. *)
Lemma cost_below_ceiling (p q x : Q) : (0 < p)%Q -> (q <= x / p)%Q -> (p * q <= x)%Q.
Proof.
  intros Hp Hq.
  assert (Hne : ~ (p == 0)%Q) by (intros E; rewrite E in Hp; discriminate).
  rewrite <- (Qmult_div_r x p Hne).
  apply Qmult_le_l; assumption.
Qed.

Lemma cost_at_ceiling (p q x : Q) : (0 < p)%Q -> (q == x / p)%Q -> (p * q == x)%Q.
Proof.
  intros Hp Hq.
  assert (Hne : ~ (p == 0)%Q) by (intros E; rewrite E in Hp; discriminate).
  rewrite Hq. apply Qmult_div_r, Hne.
Qed.

(** ** Sizing engine *)

Lemma sizeWithinLimits_inr price funds fee limit c q :
  sizeWithinLimits price funds fee limit c = inr q ->
  q = (if IsZero (MaximumSize c) then candidateQuantity price funds fee limit c
       else decimalMin (candidateQuantity price funds fee limit c) (MaximumSize c)).
Proof.
  unfold sizeWithinLimits, candidateQuantity, exposureCeiling.
  destruct (LessThanOrEqual funds 0%Q); [discriminate|].
  cbv zeta.
  destruct (negb (IsZero (MinimumSize c)) && LessThan _ _); [discriminate|].
  intros [= <-]. reflexivity.
Qed.

Lemma candidateQuantity_le_limit price funds fee limit c :
  (candidateQuantity price funds fee limit c <= limit)%Q.
Proof.
  unfold candidateQuantity. cbv zeta. destruct (IsZero (MaximumTotal c)).
  - apply decimalMin_le_l.
  - eapply Qle_trans; apply decimalMin_le_l.
Qed.

Lemma candidateQuantity_le_exposure price funds fee limit c :
  ~ (MaximumTotal c == 0)%Q ->
  (candidateQuantity price funds fee limit c <= exposureCeiling price fee c)%Q.
Proof.
  intros Hmt%IsZero_false. unfold candidateQuantity. cbv zeta. rewrite Hmt.
  apply decimalMin_le_r.
Qed.

Lemma candidateQuantity_exposure price funds fee limit c :
  ~ (MaximumTotal c == 0)%Q ->
  exposureBinds price funds fee limit c ->
  (candidateQuantity price funds fee limit c == exposureCeiling price fee c)%Q.
Proof.
  intros Hmt%IsZero_false (Hlim & Hfunds & _).
  unfold candidateQuantity. cbv zeta. rewrite Hmt.
  apply decimalMin_r. unfold decimalMin at 1.
  destruct (LessThanOrEqual limit _); assumption.
Qed.

Lemma sizeWithinLimits_le_candidate price funds fee limit c q :
  sizeWithinLimits price funds fee limit c = inr q ->
  (q <= candidateQuantity price funds fee limit c)%Q.
Proof.
  intros ->%sizeWithinLimits_inr. destruct (IsZero (MaximumSize c)).
  - apply Qle_refl.
  - apply decimalMin_le_l.
Qed.

(** When the exposure ceiling binds, it is the quantity returned. *)
Lemma sizing_returns_exposure_ceiling price funds fee limit c q :
  ~ (MaximumTotal c == 0)%Q ->
  exposureBinds price funds fee limit c ->
  sizeWithinLimits price funds fee limit c = inr q ->
  (q == exposureCeiling price fee c)%Q.
Proof.
  intros Hmt Hbinds Hq.
  pose proof (candidateQuantity_exposure price funds fee limit c Hmt Hbinds) as Hcand.
  destruct Hbinds as (_ & _ & Hsize).
  apply sizeWithinLimits_inr in Hq. rewrite Hq.
  destruct (IsZero (MaximumSize c)) eqn:Ez; [exact Hcand|].
  apply IsZero_false in Ez. specialize (Hsize Ez).
  unfold decimalMin.
  destruct (LessThanOrEqual _ (MaximumSize c)) eqn:El; [exact Hcand|].
  apply LessThanOrEqual_false in El. rewrite Hcand in El.
  exfalso. exact (Qlt_not_le _ _ El Hsize).
Qed.

(** C1 (as amended).  For a positive price, a quantity returned by
    [calculateBuySize] or [calculateSellSize] never exceeds a nonzero
    [MaximumSize] (a zero one imposes no upper clamp: the candidate is
    returned as it is), never exceeds the directional limit, and, when
    [MaximumTotal] is nonzero, [price * q + feeRate * MaximumTotal] never
    exceeds [MaximumTotal], with equality when the exposure ceiling is the
    binding constraint. *)
Theorem sizing_respects_limits price funds fee limit c q :
  (0 < price)%Q ->
  calculateBuySize price funds fee limit c = inr q
  \/ calculateSellSize price funds fee limit c = inr q ->
  sizedWithin price funds fee limit c q.
Proof.
  intros Hp Hsized.
  assert (Hq : sizeWithinLimits price funds fee limit c = inr q)
    by (destruct Hsized as [Hq|Hq]; exact Hq).
  clear Hsized.
  pose proof (sizeWithinLimits_le_candidate _ _ _ _ _ _ Hq) as Hcand.
  split; [|split; [|split]].
  - intros Hmax%IsZero_false. apply sizeWithinLimits_inr in Hq.
    rewrite Hq, Hmax. apply decimalMin_le_r.
  - intros Hmax%IsZero_true. apply sizeWithinLimits_inr in Hq.
    now rewrite Hmax in Hq.
  - eapply Qle_trans; [exact Hcand|apply candidateQuantity_le_limit].
  - intros Hmt. split.
    + assert (Hle : (q <= exposureCeiling price fee c)%Q).
      { eapply Qle_trans; [exact Hcand|now apply candidateQuantity_le_exposure]. }
      apply cost_below_ceiling in Hle; [|exact Hp].
      apply Qle_trans with (MaximumTotal c * (1 - fee) + fee * MaximumTotal c)%Q.
      * apply Qplus_le_l. exact Hle.
      * apply Qle_lteq. right. ring.
    + intros Hbinds.
      pose proof (sizing_returns_exposure_ceiling _ _ _ _ _ _ Hmt Hbinds Hq) as Hqec.
      apply cost_at_ceiling in Hqec; [|exact Hp].
      rewrite Hqec. ring.
Qed.

(** C7.  [SizeOrder] fails with [ErrNilArguments] on a nil order; with
    [errNoFunds] on zero funds and a nonzero price, whatever the direction
    (the funds check precedes the dispatch); and with [errCannotAllocate] on
    nonzero funds and price when the direction is neither buy nor sell. *)
Theorem SizeOrder_errors {Settings : Type} (feeRate : Settings -> decimal) (s : Size)
    (availableFunds : decimal) (cs : Settings) :
  SizeOrder feeRate s None availableFunds cs = inl ErrNilArguments
  /\ (forall o, (availableFunds == 0)%Q -> ~ (Price o == 0)%Q ->
        SizeOrder feeRate s (Some o) availableFunds cs = inl errNoFunds)
  /\ (forall o, ~ (availableFunds == 0)%Q -> ~ (Price o == 0)%Q ->
        Direction o <> Buy -> Direction o <> Sell ->
        SizeOrder feeRate s (Some o) availableFunds cs = inl errCannotAllocate).
Proof.
  split; [reflexivity|]. split.
  - intros o Hf _. unfold SizeOrder.
    apply IsZero_true in Hf. now rewrite Hf.
  - intros o Hf _ Hb Hs. unfold SizeOrder.
    apply IsZero_false in Hf. rewrite Hf. cbv zeta.
    destruct (Direction o); congruence.
Qed.

(** ** Timeline store *)

Section StoreProperties.
Context {Pair : Type} `{Countable Pair} `{!GoZero Pair} `{!PairEqual Pair}.
Context {Holding Snapshot Report : Type}.
Context `{!GoZero Holding} `{!GoZero Snapshot}.

Local Abbreviation EventT := (Event Pair).
Local Abbreviation EventStoreT := (EventStore Pair Holding Snapshot).
Local Abbreviation CurrencyStatisticT := (CurrencyStatistic Pair Holding Snapshot).
Local Abbreviation StatisticT := (Statistic Pair Holding Snapshot Report).
Local Abbreviation PairStats := (gmap string (gmap string (gmap Pair CurrencyStatisticT))).

Implicit Types (s : StatisticT) (m : PairStats) (c : CurrencyStatisticT).
Implicit Types (ev d : EventT) (r : EventStoreT) (events : list EventStoreT).

Lemma withStatistics_same s : withStatistics s (ExchangeAssetPairStatistics s) = s.
Proof. now destruct s. Qed.

Lemma withEvents_same c : withEvents c (Events c) = c.
Proof. now destruct c. Qed.

Lemma lookupStats_Some m ex a p c :
  lookupStats m ex a p = Some c <->
  exists am pm, m !! ex = Some am /\ am !! a = Some pm /\ pm !! p = Some c.
Proof.
  unfold lookupStats. split.
  - destruct (m !! ex) as [am|] eqn:E1; simpl; [|discriminate].
    destruct (am !! a) as [pm|] eqn:E2; simpl; [|discriminate].
    intros E3. now exists am, pm.
  - intros (am & pm & -> & E2 & E3). simpl. rewrite E2. simpl. exact E3.
Qed.

Lemma setupMap_registered m ex a p c :
  lookupStats m ex a p = Some c -> setupMap ex a (Some m) = m.
Proof.
  intros (am & pm & E1 & E2 & _)%lookupStats_Some.
  unfold setupMap. simpl. rewrite !E1. simpl. now rewrite E2.
Qed.

Lemma storeStats_registered m ex a p c :
  lookupStats m ex a p = Some c -> storeStats m ex a p c = m.
Proof.
  intros (am & pm & E1 & E2 & E3)%lookupStats_Some.
  unfold storeStats. rewrite E1. simpl. rewrite E2. simpl.
  rewrite (insert_id pm p c E3), (insert_id am a pm E2).
  now apply insert_id.
Qed.

Lemma lookupStats_storeStats m ex a p c :
  lookupStats (storeStats m ex a p c) ex a p = Some c.
Proof.
  unfold lookupStats, storeStats. rewrite lookup_insert_eq. simpl.
  rewrite lookup_insert_eq. simpl. apply lookup_insert_eq.
Qed.

Lemma lookupStats_storeStats_ne m ex a p c ex' a' p' :
  (ex', a', p') <> (ex, a, p) ->
  lookupStats (storeStats m ex a p c) ex' a' p' = lookupStats m ex' a' p'.
Proof.
  intros Hne. unfold lookupStats, storeStats.
  destruct (decide (ex' = ex)) as [->|Hex]; [|now rewrite lookup_insert_ne].
  rewrite lookup_insert_eq. simpl.
  destruct (m !! ex) as [am|] eqn:E1; simpl.
  - destruct (decide (a' = a)) as [->|Ha]; [|now rewrite lookup_insert_ne].
    rewrite lookup_insert_eq. simpl.
    assert (p' <> p) by congruence.
    destruct (am !! a) as [pm|] eqn:E2; simpl; now rewrite lookup_insert_ne.
  - destruct (decide (a' = a)) as [->|Ha].
    + rewrite lookup_insert_eq. simpl. assert (p' <> p) by congruence.
      now rewrite lookup_insert_ne.
    + now rewrite lookup_insert_ne.
Qed.

Lemma lookupStats_setupMap (om : option PairStats) ex a ex' a' p' :
  lookupStats (setupMap ex a om) ex' a' p' = lookupStats (default ∅ om) ex' a' p'.
Proof.
  unfold setupMap. set (m0 := default ∅ om).
  assert (Hm1 : forall m1,
    m1 = match m0 !! ex with None => <[ex := ∅]> m0 | Some _ => m0 end ->
    lookupStats m1 ex' a' p' = lookupStats m0 ex' a' p'
    /\ default ∅ (m1 !! ex) = default ∅ (m0 !! ex)
    /\ is_Some (m1 !! ex)).
  { intros m1 ->. destruct (m0 !! ex) as [am|] eqn:E; [rewrite E; eauto|].
    rewrite lookup_insert_eq. split; [|split; [reflexivity|eauto]].
    unfold lookupStats.
    destruct (decide (ex' = ex)) as [->|Hex]; [|now rewrite lookup_insert_ne].
    rewrite lookup_insert_eq, E. reflexivity. }
  cbv zeta.
  destruct (Hm1 _ eq_refl) as (Hl & Hd & [am Ham]).
  rewrite Ham. simpl.
  destruct (am !! a) as [pm|] eqn:E2; [exact Hl|].
  rewrite <- Hl. unfold lookupStats.
  destruct (decide (ex' = ex)) as [->|Hex]; [|now rewrite lookup_insert_ne].
  rewrite lookup_insert_eq, Ham. simpl.
  destruct (decide (a' = a)) as [->|Ha]; [|now rewrite lookup_insert_ne].
  rewrite lookup_insert_eq, E2. reflexivity.
Qed.

(** *** Duplicate scan *)

Lemma sameEvent_true d ev :
  sameEvent d ev = true <->
  GetTime d = GetTime ev /\ GetExchange d = GetExchange ev
  /\ GetAssetType d = GetAssetType ev
  /\ pairEqual (GetPair d) (GetPair ev) = true
  /\ GetOffset d = GetOffset ev.
Proof.
  unfold sameEvent, timeEqual.
  rewrite !andb_true_iff, !String.eqb_eq, !Z.eqb_eq. tauto.
Qed.

Lemma scanDuplicate_found ev events k i r d :
  timelineOk events ->
  events !! i = Some r -> DataEvent r = Some d -> sameEvent d ev = true ->
  exists j, scanDuplicate ev events k = Found j.
Proof.
  intros Hok. revert k i. induction Hok as [|r0 events [d0 Hd0] Hok IH]; intros k i Hi Hd Hs.
  - discriminate.
  - simpl. rewrite Hd0. destruct (sameEvent d0 ev) eqn:E; [eauto|].
    destruct i as [|i]; simpl in Hi.
    + injection Hi as ->. congruence.
    + eapply IH; eassumption.
Qed.

Lemma scanDuplicate_NotFound ev events k :
  scanDuplicate ev events k = NotFound ->
  timelineOk events
  /\ forall r d, r ∈ events -> DataEvent r = Some d -> sameEvent d ev = false.
Proof.
  revert k. induction events as [|r0 events IH]; intros k; simpl.
  - intros _. split; [constructor|]. intros r d Hin. inversion Hin.
  - destruct (DataEvent r0) as [d0|] eqn:Hd0; [|discriminate].
    destruct (sameEvent d0 ev) eqn:E; [discriminate|].
    intros [Hok Hno]%IH. split.
    + constructor; [rewrite Hd0; eauto|exact Hok].
    + intros r d [->|Hin]%elem_of_cons Hd; [congruence|eauto].
Qed.

Lemma SetupEventForTime_duplicate s m ev c i r d :
  ExchangeAssetPairStatistics s = Some m ->
  lookupStats m (GetExchange ev) (GetAssetType ev) (GetPair ev) = Some c ->
  timelineOk (Events c) ->
  Events c !! i = Some r -> DataEvent r = Some d -> sameEvent d ev = true ->
  SetupEventForTime (Some ev) s = (Returns (Some ErrAlreadyProcessed), s).
Proof.
  intros Hm Hc Hok Hi Hd Hs. unfold SetupEventForTime. cbv zeta.
  rewrite Hm, (setupMap_registered _ _ _ _ _ Hc), Hc. simpl.
  destruct (scanDuplicate_found ev (Events c) 0 i r d Hok Hi Hd Hs) as [j ->].
  now rewrite <- Hm, withStatistics_same.
Qed.

(** C2.  When the timeline of the event's tuple already holds a record for
    the same exchange, asset, pair, time and offset, [SetupEventForTime]
    returns [ErrAlreadyProcessed] and leaves the store, hence the timeline,
    as it was. *)
Theorem SetupEventForTime_already_processed s m ev c i r d :
  ExchangeAssetPairStatistics s = Some m ->
  lookupStats m (GetExchange ev) (GetAssetType ev) (GetPair ev) = Some c ->
  timelineOk (Events c) ->
  Events c !! i = Some r -> DataEvent r = Some d ->
  GetExchange d = GetExchange ev -> GetAssetType d = GetAssetType ev ->
  pairEqual (GetPair d) (GetPair ev) = true ->
  GetTime d = GetTime ev -> GetOffset d = GetOffset ev ->
  SetupEventForTime (Some ev) s = (Returns (Some ErrAlreadyProcessed), s).
Proof.
  intros Hm Hc Hok Hi Hd Hex Ha Hp Ht Ho.
  eapply SetupEventForTime_duplicate; try eassumption.
  apply sameEvent_true. tauto.
Qed.

(** Recording the same event twice: the second call is rejected, whatever
    the store was, as soon as a pair equals itself. *)
Lemma SetupEventForTime_twice s s' ev :
  pairEqual (GetPair ev) (GetPair ev) = true ->
  SetupEventForTime (Some ev) s = (Returns None, s') ->
  SetupEventForTime (Some ev) s' = (Returns (Some ErrAlreadyProcessed), s').
Proof.
  intros Hrefl. unfold SetupEventForTime at 1. cbv zeta.
  set (m := setupMap _ _ _).
  set (lookup := default zeroValue _).
  destruct (scanDuplicate ev (Events lookup) 0) eqn:Hscan; try discriminate.
  intros [= <-].
  apply scanDuplicate_NotFound in Hscan as [Hok _].
  eapply SetupEventForTime_duplicate with
    (i := length (Events lookup)) (r := newEventStore ev) (d := ev).
  - reflexivity.
  - apply lookupStats_storeStats.
  - simpl. apply Forall_app. split; [exact Hok|].
    constructor; [simpl; eauto|constructor].
  - simpl. now rewrite lookup_app_r, Nat.sub_diag.
  - reflexivity.
  - apply sameEvent_true. repeat split; auto.
Qed.

Lemma storeOk_zero : storeOk (zeroValue : StatisticT).
Proof. intros m ex a p c Hm. discriminate. Qed.

Lemma storeOk_setupMap s ex a :
  storeOk s -> storeOk (withStatistics s (Some (setupMap ex a (ExchangeAssetPairStatistics s)))).
Proof.
  intros Hs m ex' a' p' c [= <-]. rewrite lookupStats_setupMap.
  destruct (ExchangeAssetPairStatistics s) as [m0|] eqn:E; simpl.
  - now apply Hs.
  - unfold lookupStats. rewrite lookup_empty. discriminate.
Qed.

Lemma storeOk_storeStats s m ex a p c :
  storeOk (withStatistics s (Some m)) ->
  Events c <> [] -> timelineOk (Events c) ->
  storeOk (withStatistics s (Some (storeStats m ex a p c))).
Proof.
  intros Hs Hne Hok m' ex' a' p' c' [= <-].
  destruct (decide ((ex', a', p') = (ex, a, p))) as [[= -> -> ->]|Hk].
  - rewrite lookupStats_storeStats. intros [= <-]. now split.
  - rewrite lookupStats_storeStats_ne by exact Hk. now apply Hs.
Qed.

Lemma SetupEventForTime_storeOk s (oev : option EventT) res s' :
  storeOk s -> SetupEventForTime oev s = (res, s') -> storeOk s'.
Proof.
  intros Hs. destruct oev as [ev|]; simpl; [|now intros [= _ <-]].
  set (m := setupMap _ _ _).
  pose proof (storeOk_setupMap s (GetExchange ev) (GetAssetType ev) Hs) as Hm.
  fold m in Hm.
  set (lookup := default zeroValue _).
  destruct (scanDuplicate ev (Events lookup) 0) eqn:Hscan; intros [= _ <-]; try exact Hm.
  apply scanDuplicate_NotFound in Hscan as [Hok _].
  apply storeOk_storeStats; [exact Hm| |].
  - simpl. now destruct (Events lookup).
  - simpl. apply Forall_app. split; [exact Hok|].
    constructor; [simpl; eauto|constructor].
Qed.

(** *** Enrichment at an offset *)

Lemma scanOffset_spec events offset n :
  n <= length events ->
  Forall (fun r => is_Some (DataEvent r)) events ->
  match scanOffset events offset n with
  | Found i =>
    i < n /\ (exists r, events !! i = Some r /\ offsetOf r = Some offset)
    /\ forall j r, i < j < n -> events !! j = Some r -> offsetOf r <> Some offset
  | NotFound =>
    forall j r, j < n -> events !! j = Some r -> offsetOf r <> Some offset
  | ScanPanics _ => False
  end.
Proof.
  intros Hn Hok. induction n as [|i IH]; simpl.
  - intros j r Hj. lia.
  - destruct (events !! i) as [r|] eqn:Hi.
    2:{ apply lookup_ge_None in Hi. lia. }
    assert (Hr : is_Some (DataEvent r)).
    { rewrite Forall_forall in Hok. apply Hok. now apply list_elem_of_lookup_2 in Hi. }
    destruct Hr as [d Hd]. rewrite Hd.
    destruct (Z.eqb_spec (GetOffset d) offset) as [Heq|Hneq].
    + split; [lia|]. split.
      * exists r. split; [exact Hi|]. unfold offsetOf. now rewrite Hd, <- Heq.
      * intros j r' Hj. lia.
    + specialize (IH ltac:(lia)).
      assert (Hi' : forall j r', j = i -> events !! j = Some r' -> offsetOf r' <> Some offset).
      { intros j r' -> Hj. rewrite Hi in Hj. injection Hj as <-.
        unfold offsetOf. rewrite Hd. simpl. congruence. }
      destruct (scanOffset events offset i) as [|k|]; [| |exact IH].
      * intros j r' Hj Hl. destruct (decide (j = i)); [eauto|]. apply IH with j; [lia|exact Hl].
      * destruct IH as (Hk & Hex & Hlater). split; [lia|]. split; [exact Hex|].
        intros j r' Hj Hl. destruct (decide (j = i)); [eauto|]. apply Hlater with j; [lia|exact Hl].
Qed.

Lemma scanOffset_latest events offset i r :
  timelineOk events -> latestAt events offset i r ->
  scanOffset events offset (length events) = Found i.
Proof.
  intros Hok (Hi & Ho & Hlater).
  pose proof (scanOffset_spec events offset (length events) (le_n _) Hok) as Hs.
  destruct (scanOffset events offset (length events)) as [|k|]; [| |contradiction].
  - exfalso. apply (Hs i r); [now apply lookup_lt_Some in Hi|exact Hi|exact Ho].
  - destruct Hs as (Hk & (rk & Hrk & Hok') & Hno).
    destruct (Nat.lt_trichotomy i k) as [Hlt|[->|Hgt]]; [|reflexivity|].
    + exfalso. now apply (Hlater k rk).
    + exfalso. apply (Hno i r); [|exact Hi|exact Ho].
      split; [exact Hgt|]. now apply lookup_lt_Some in Hi.
Qed.

Lemma scanOffset_absent events offset :
  timelineOk events ->
  (forall r, r ∈ events -> offsetOf r <> Some offset) ->
  scanOffset events offset (length events) = NotFound.
Proof.
  intros Hok Hno.
  pose proof (scanOffset_spec events offset (length events) (le_n _) Hok) as Hs.
  destruct (scanOffset events offset (length events)) as [|k|]; [reflexivity| |contradiction].
  destruct Hs as (_ & (rk & Hrk & Hok') & _).
  exfalso. apply (Hno rk); [|exact Hok']. now apply list_elem_of_lookup_2 in Hrk.
Qed.

Lemma applyEventAtOffset_kind ev c i r :
  Events c !! i = Some r ->
  match kindOf ev with
  | None => applyEventAtOffset ev c i = (Returns (Some errUnknownEventType), c)
  | Some k =>
    exists r',
      applyEventAtOffset ev c i = (Returns None, withEvents c (<[i := r']> (Events c)))
      /\ fieldOf k r' = Some ev
      /\ (forall k', k' <> k -> fieldOf k' r' = fieldOf k' r)
      /\ Holdings r' = Holdings r /\ Transactions r' = Transactions r
  end.
Proof.
  intros Hi. unfold applyEventAtOffset, kindOf. rewrite Hi.
  destruct (isDataEventHandler ev);
    [|destruct (isSignalEvent ev);
      [|destruct (isOrderEvent ev); [|destruct (isFillEvent ev); [|reflexivity]]]];
    eexists; (split; [reflexivity|]); (split; [reflexivity|]);
    (split; [|split; reflexivity]); intros [] Hk; congruence || reflexivity.
Qed.

(** C6.  For an event whose tuple has a timeline in an initialised store,
    [SetEventForOffset] finds the latest record whose offset is the event's;
    there it sets the one field of the event's kind and nothing else, or
    returns the unknown-event-type error for an event of no kind, leaving
    the store as it was; with no record at that offset it returns nil and
    leaves the store as it was. *)
Theorem SetEventForOffset_latest_record s m ev c :
  ExchangeAssetPairStatistics s = Some m ->
  lookupStats m (GetExchange ev) (GetAssetType ev) (GetPair ev) = Some c ->
  timelineOk (Events c) ->
  ((forall r, r ∈ Events c -> offsetOf r <> Some (GetOffset ev)) ->
   SetEventForOffset (Some ev) s = (Returns None, s))
  /\ (forall i r, latestAt (Events c) (GetOffset ev) i r ->
      match kindOf ev with
      | None =>
        SetEventForOffset (Some ev) s = (Returns (Some errUnknownEventType), s)
      | Some k =>
        exists r',
          SetEventForOffset (Some ev) s =
            (Returns None,
             withStatistics s
               (Some (storeStats m (GetExchange ev) (GetAssetType ev) (GetPair ev)
                        (withEvents c (<[i := r']> (Events c))))))
          /\ fieldOf k r' = Some ev
          /\ (forall k', k' <> k -> fieldOf k' r' = fieldOf k' r)
          /\ Holdings r' = Holdings r /\ Transactions r' = Transactions r
      end).
Proof.
  intros Hm Hc Hok. split.
  - intros Hno. unfold SetEventForOffset. rewrite Hm. cbv zeta. rewrite Hc.
    now rewrite (scanOffset_absent _ _ Hok Hno).
  - intros i r Hlatest. unfold SetEventForOffset. rewrite Hm. cbv zeta. rewrite Hc.
    rewrite (scanOffset_latest _ _ _ _ Hok Hlatest).
    destruct Hlatest as (Hi & _ & _).
    pose proof (applyEventAtOffset_kind ev c i r Hi) as Hk.
    destruct (kindOf ev) as [k|].
    + destruct Hk as (r' & -> & Hf & Hothers & Hh & Ht).
      exists r'. repeat split; assumption.
    + rewrite Hk, (storeStats_registered _ _ _ _ _ Hc).
      now rewrite <- Hm, withStatistics_same.
Qed.

Lemma SetEventForOffset_storeOk s (oev : option EventT) res s' :
  storeOk s -> SetEventForOffset oev s = (res, s') -> storeOk s'.
Proof.
  intros Hs. destruct oev as [ev|]; simpl; [|now intros [= _ <-]].
  destruct (ExchangeAssetPairStatistics s) as [m|] eqn:Hm; [|now intros [= _ <-]].
  destruct (lookupStats m _ _ _) as [c|] eqn:Hc; [|now intros [= _ <-]].
  destruct (Hs _ _ _ _ _ Hm Hc) as [Hne Hok].
  pose proof (scanOffset_spec (Events c) (GetOffset ev) _ (le_n _) Hok) as Hscan.
  destruct (scanOffset _ _ _) as [|i|]; [now intros [= _ <-]| |contradiction].
  destruct Hscan as (_ & (r & Hi & _) & _).
  assert (Hr : is_Some (DataEvent r)).
  { unfold timelineOk in Hok. rewrite Forall_forall in Hok. apply Hok.
    now apply list_elem_of_lookup_2 in Hi. }
  assert (Hs' : storeOk (withStatistics s (Some m))).
  { now rewrite <- Hm, withStatistics_same. }
  unfold applyEventAtOffset. rewrite Hi.
  destruct (isDataEventHandler ev);
    [|destruct (isSignalEvent ev);
      [|destruct (isOrderEvent ev); [|destruct (isFillEvent ev)]]];
    intros [= _ <-]; apply storeOk_storeStats; try exact Hs'; try exact Hne; try exact Hok;
    simpl;
    try (intros Hnil; apply (f_equal length) in Hnil; rewrite length_insert in Hnil;
         destruct (Events c); [congruence|discriminate]);
    apply Forall_insert; try exact Hok; simpl; eauto.
Qed.

(** The two attach operations keep the invariant as well. *)
Lemma updateRecord_storeOk s m ex a p c i (f : EventStoreT -> EventStoreT) res s' :
  storeOk s ->
  ExchangeAssetPairStatistics s = Some m ->
  lookupStats m ex a p = Some c ->
  (forall r, DataEvent (f r) = DataEvent r) ->
  updateRecord s m ex a p c i f = (res, s') ->
  storeOk s'.
Proof.
  intros Hs Hm Hc Hf. unfold updateRecord.
  destruct (Events c !! i) as [r|] eqn:Hi; intros [= _ <-]; [|exact Hs].
  destruct (Hs _ _ _ _ _ Hm Hc) as [Hne Hok].
  apply storeOk_storeStats.
  - now rewrite <- Hm, withStatistics_same.
  - simpl. intros Hnil. apply (f_equal length) in Hnil. rewrite length_insert in Hnil.
    destruct (Events c); [congruence|discriminate].
  - simpl. apply Forall_insert; [exact Hok|]. rewrite Hf.
    unfold timelineOk in Hok. rewrite Forall_forall in Hok. apply Hok.
    now apply list_elem_of_lookup_2 in Hi.
Qed.

Lemma AddHoldingsForTime_storeOk `{!HoldingFields Pair Holding}
    s (h : option Holding) res s' :
  storeOk s -> AddHoldingsForTime h s = (res, s') -> storeOk s'.
Proof.
  intros Hs. unfold AddHoldingsForTime.
  destruct (ExchangeAssetPairStatistics s) as [m|] eqn:Hm; [|now intros [= _ <-]].
  destruct h as [h|]; [|now intros [= _ <-]]. cbv zeta.
  destruct (lookupStats m _ _ _) as [c|] eqn:Hc; [|now intros [= _ <-]].
  destruct (scanOffset _ _ _) as [|i|]; try (now intros [= _ <-]).
  apply updateRecord_storeOk; auto.
Qed.

Lemma AddComplianceSnapshotForTime_storeOk s (snapshot : Snapshot) (e : option EventT) res s' :
  storeOk s -> AddComplianceSnapshotForTime snapshot e s = (res, s') -> storeOk s'.
Proof.
  intros Hs. unfold AddComplianceSnapshotForTime.
  destruct e as [e|]; [|now intros [= _ <-]].
  destruct (ExchangeAssetPairStatistics s) as [m|] eqn:Hm; [|now intros [= _ <-]]. cbv zeta.
  destruct (lookupStats m _ _ _) as [c|] eqn:Hc; [|now intros [= _ <-]].
  destruct (scanOffset _ _ _) as [|i|]; try (now intros [= _ <-]).
  apply updateRecord_storeOk; auto.
Qed.

(** *** The tuples of the store *)

Lemma tuples_lookup s ex a p c :
  (ex, a, p, c) ∈ tuples s <->
  exists m, ExchangeAssetPairStatistics s = Some m /\ lookupStats m ex a p = Some c.
Proof.
  unfold tuples. destruct (ExchangeAssetPairStatistics s) as [m|].
  2:{ split; [intros Hin; inversion Hin|intros (m & Hm & _); discriminate]. }
  rewrite list_elem_of_bind. split.
  - intros ([ex' am] & Hin & Hex%elem_of_map_to_list).
    apply list_elem_of_bind in Hin as ([a' pm] & Hin & Ha%elem_of_map_to_list).
    apply list_elem_of_bind in Hin as ([p' c'] & Hin & Hp%elem_of_map_to_list).
    apply list_elem_of_singleton in Hin. injection Hin as -> -> -> ->.
    exists m. split; [reflexivity|]. apply lookupStats_Some. eauto.
  - intros (m' & [= <-] & (am & pm & Hex & Ha & Hp)%lookupStats_Some).
    exists (ex, am). split; [|now apply elem_of_map_to_list].
    apply list_elem_of_bind. exists (a, pm). split; [|now apply elem_of_map_to_list].
    apply list_elem_of_bind. exists (p, c). split; [|now apply elem_of_map_to_list].
    now apply list_elem_of_singleton.
Qed.

Lemma storeOk_tuples s :
  storeOk s -> Forall (fun t : string * string * Pair * CurrencyStatisticT => Events t.2 <> []) (tuples s).
Proof.
  intros Hs. apply Forall_forall. intros [[[ex a] p] c] (m & Hm & Hc)%tuples_lookup.
  simpl. exact (proj1 (Hs m ex a p c Hm Hc)).
Qed.

Lemma Reset_storeOk s : storeOk (Reset s).
Proof. apply storeOk_zero. Qed.

End StoreProperties.

(** ** Best-performer selectors *)

Section SelectorProperties.
Context {Pair : Type} `{!GoZero Pair}.

Local Abbreviation HolderT := (FinalResultsHolder Pair).

Implicit Types (results rs pre xs : list HolderT) (metric : HolderT -> decimal).

Lemma deref_app pre xs ref : refWithin pre ref -> deref (pre ++ xs) ref = deref pre ref.
Proof.
  destruct ref as [|j]; simpl; [reflexivity|]. intros Hj. now rewrite lookup_app_l.
Qed.

Lemma deref_here pre c xs : deref (pre ++ c :: xs) (ElementAt (length pre)) = c.
Proof. simpl. now rewrite list_lookup_middle. Qed.

Lemma snoc_app pre (c : HolderT) xs : pre ++ c :: xs = (pre ++ [c]) ++ xs.
Proof. now rewrite <- app_assoc. Qed.

Lemma rangeBest_runningBest metric xs : forall pre ref i,
  i = length pre ->
  refWithin pre ref ->
  refWithin (pre ++ xs) (rangeBest metric (pre ++ xs) xs i ref)
  /\ deref (pre ++ xs) (rangeBest metric (pre ++ xs) xs i ref)
     = fold_left (fun best candidate =>
                    if replaces metric candidate best then candidate else best)
                 xs (deref pre ref).
Proof.
  induction xs as [|c xs IH]; intros pre ref i Hi Href.
  - simpl. rewrite app_nil_r. now split.
  - cbn [rangeBest fold_left]. rewrite (deref_app pre (c :: xs) ref Href).
    fold (replaces metric c (deref pre ref)).
    assert (Hlen : S i = length (pre ++ [c])).
    { rewrite length_app. simpl. lia. }
    rewrite (snoc_app pre c xs).
    destruct (replaces metric c (deref pre ref)).
    + destruct (IH (pre ++ [c]) (ElementAt i) (S i) Hlen) as [Hw Hd].
      { simpl. lia. }
      split; [exact Hw|]. rewrite Hd. f_equal.
      subst i. simpl. now rewrite list_lookup_middle.
    + destruct (IH (pre ++ [c]) ref (S i) Hlen) as [Hw Hd].
      { destruct ref; simpl in *; [exact I|]. rewrite length_app. lia. }
      split; [exact Hw|]. rewrite Hd. f_equal. now apply deref_app.
Qed.

Lemma rangeBest_all_zero metric xs : forall pre ref i,
  i = length pre ->
  refWithin pre ref ->
  IsZero (metric (deref pre ref)) = true ->
  xs <> [] ->
  Forall (fun r => (metric r == 0)%Q) xs ->
  rangeBest metric (pre ++ xs) xs i ref = ElementAt (i + length xs - 1).
Proof.
  induction xs as [|c xs IH]; intros pre ref i Hi Href Hz Hne Hall; [congruence|].
  cbn [rangeBest]. rewrite (deref_app pre (c :: xs) ref Href), Hz, orb_true_r.
  inversion Hall as [|? ? Hc Hxs]; subst.
  destruct xs as [|c' xs].
  - simpl. f_equal. lia.
  - rewrite (snoc_app pre c (c' :: xs)).
    rewrite (IH (pre ++ [c]) (ElementAt (length pre)) (S (length pre))).
    + f_equal. simpl. lia.
    + rewrite length_app. simpl. lia.
    + simpl. rewrite length_app. simpl. lia.
    + simpl. rewrite list_lookup_middle by reflexivity. simpl.
      now apply IsZero_true.
    + discriminate.
    + exact Hxs.
Qed.

Lemma rangeBest_selectsBy metric :
  metric zeroValue = 0%Q ->
  selectsBy (fun rs => rangeBest metric rs rs 0 FreshHolder) metric.
Proof.
  intros Hzero. split; [|split].
  - intros rs. exact (rangeBest_runningBest metric rs [] FreshHolder 0 eq_refl I).
  - intros z p Hz Hp. cbn [rangeBest deref]. rewrite Hzero. cbn [IsZero Qeq_bool].
    rewrite orb_true_r. simpl.
    apply IsZero_true in Hz. now rewrite Hz, orb_true_r.
  - intros rs Hne Hall.
    apply (rangeBest_all_zero metric rs [] FreshHolder 0 eq_refl I); [|exact Hne|exact Hall].
    simpl. now rewrite Hzero.
Qed.

(** C4.  [GetBestStrategyPerformer], over [StrategyMovement], and
    [GetTheBiggestDrawdownAcrossCurrencies], over
    [MaxDrawdown.DrawdownPercent], return the entry the rule chooses: the
    running best starts at the zero value and is replaced by a candidate of
    strictly greater metric, or whenever its own metric is zero.  A
    zero-metric entry followed by a positive one yields the positive one; an
    all-zero list yields its last entry. *)
Theorem best_selectors_follow_rule :
  selectsBy (Pair := Pair) GetBestStrategyPerformer HolderStrategyMovement
  /\ selectsBy (Pair := Pair) GetTheBiggestDrawdownAcrossCurrencies drawdownOf.
Proof.
  split; apply rangeBest_selectsBy; reflexivity.
Qed.

(** [GetBestMarketPerformer] leaves its loop at the first iteration: the
    running best starts with a zero movement, so the first entry replaces it,
    and the [break] follows. *)
Lemma GetBestMarketPerformer_first (r : HolderT) rs :
  GetBestMarketPerformer (r :: rs) = ElementAt 0.
Proof.
  unfold GetBestMarketPerformer. cbn [rangeBestBreak deref].
  now rewrite orb_true_r.
Qed.

End SelectorProperties.

(** ** Results aggregator *)

Section AggregatorProperties.
Context {Pair : Type} `{Countable Pair} `{!GoZero Pair}.
Context {Holding Snapshot Report PairReader : Type}.

Local Abbreviation EventT := (Event Pair).
Local Abbreviation EventStoreT := (EventStore Pair Holding Snapshot).
Local Abbreviation CurrencyStatisticT := (CurrencyStatistic Pair Holding Snapshot).
Local Abbreviation HolderT := (FinalResultsHolder Pair).
Local Abbreviation StatisticT := (Statistic Pair Holding Snapshot Report).
Local Abbreviation FundingT := (IFundingManager Pair Report PairReader).
Local Abbreviation TupleT := (@Tuple Pair Holding Snapshot).
Local Abbreviation AggregationT := (@Aggregation Pair _ _ Holding Snapshot Report).

Variable CalculateResults : CurrencyStatisticT -> PairReader -> Calculated * option Error.

Implicit Types (s : StatisticT) (st : AggregationT) (stats : CurrencyStatisticT).
Implicit Types (funds : FundingT) (order pre rest : list TupleT).
Implicit Types (first last : EventStoreT) (dl : EventT).

Lemma lastRecord_nonempty stats : Events stats <> [] -> is_Some (lastRecord stats).
Proof.
  unfold lastRecord, index. intros Hne.
  destruct (Events stats) as [|r l]; [congruence|].
  cbn [length]. destruct (Z.ltb_spec (Z.of_nat (S (length l)) - 1) 0) as [Hlt|Hge]; [lia|].
  apply lookup_lt_is_Some. simpl. lia.
Qed.

Lemma firstRecord_nonempty stats : Events stats <> [] -> is_Some (firstRecord stats).
Proof.
  unfold firstRecord, index. intros Hne.
  destruct (Events stats) as [|r l]; [congruence|]. simpl. eauto.
Qed.

Lemma lastRecord_empty stats : Events stats = [] -> lastRecord stats = None.
Proof. unfold lastRecord. now intros ->. Qed.

Lemma rangeTuples_app funds pre rest st :
  rangeTuples CalculateResults funds (pre ++ rest) st =
  match rangeTuples CalculateResults funds pre st with
  | Next st' => rangeTuples CalculateResults funds rest st'
  | Stop r s => Stop r s
  end.
Proof.
  revert st. induction pre as [|[[[ex a] p] stats] pre IH]; intros st; [reflexivity|].
  simpl. destruct (tupleStep _ _ _ _ _ _ _); [apply IH|reflexivity].
Qed.

(** What an iteration that falls through has read and written. *)
Lemma tupleStep_Next funds ex a p stats st st' :
  tupleStep CalculateResults funds ex a p stats st = Next st' ->
  exists first last d0 dl f,
    lastRecord stats = Some last /\ firstRecord stats = Some first
    /\ DataEvent first = Some d0 /\ DataEvent last = Some dl
    /\ GetFundingForEvent funds (activeEvent last dl) = inr f
    /\ let stats' :=
         withTerminal (withCalculated stats (CalculateResults stats f).1)
           (Holdings last) (Holdings first) (Transactions last) in
       st' = {| statistic := recordTuple (statistic st) ex a p stats';
                currCount := currCount st + 1;
                finalResults := finalResults st ++ [holderOf ex a p stats'];
                startDate := GetTime d0;
                endDate := GetTime dl |}.
Proof.
  unfold tupleStep, lastRecord, firstRecord. cbv zeta.
  destruct (index (Events stats) (Z.of_nat (length (Events stats)) - 1)) as [last|];
    [|discriminate].
  destruct (index (Events stats) 0) as [first|]; [|discriminate].
  destruct (DataEvent first) as [d0|] eqn:Hd0; [|destruct (DataEvent last); discriminate].
  destruct (DataEvent last) as [dl|] eqn:Hdl; [|discriminate].
  destruct (GetFundingForEvent funds (activeEvent last dl)) as [err|f] eqn:Hf;
    [discriminate|].
  destruct (CalculateResults stats f) as [calculated err] eqn:Hc.
  intros [= <-]. exists first, last, d0, dl, f.
  rewrite Hc. repeat split; try reflexivity; assumption.
Qed.

Lemma tupleStep_Stop funds ex a p stats st r s :
  tupleStep CalculateResults funds ex a p stats st = Stop r s ->
  s = statistic st
  /\ (r = Panics IndexOutOfRange -> Events stats = [])
  /\ r <> Returns None.
Proof.
  unfold tupleStep, lastRecord, firstRecord. cbv zeta.
  destruct (index (Events stats) (Z.of_nat (length (Events stats)) - 1)) as [last|] eqn:Hl.
  - destruct (index (Events stats) 0) as [first|] eqn:Hf.
    + destruct (DataEvent first) as [d0|];
        [|destruct (DataEvent last); intros [= <- <-]; repeat split; discriminate].
      destruct (DataEvent last) as [dl|];
        [|intros [= <- <-]; repeat split; discriminate].
      destruct (GetFundingForEvent funds _) as [err|f];
        [intros [= <- <-]; repeat split; discriminate|].
      destruct (CalculateResults stats f). discriminate.
    + exfalso. unfold index in Hl, Hf. simpl in Hf.
      destruct (Events stats); [|discriminate].
      simpl in Hl. discriminate.
  - intros [= <- <-]. repeat split; [|discriminate]. intros _.
    destruct (Events stats) as [|r0 l] eqn:E; [reflexivity|]. exfalso.
    assert (Hs : is_Some (lastRecord stats)) by (apply lastRecord_nonempty; congruence).
    unfold lastRecord in Hs. rewrite E, Hl in Hs. now destruct Hs.
Qed.

Lemma rangeTuples_Stop funds order : forall st r s,
  rangeTuples CalculateResults funds order st = Stop r s -> r <> Returns None.
Proof.
  induction order as [|[[[ex a] p] stats] order IH]; intros st r s; simpl; [discriminate|].
  destruct (tupleStep _ _ _ _ _ _ _) as [st'|r' s'] eqn:Hstep; [apply IH|].
  intros [= <- <-]. now apply tupleStep_Stop in Hstep.
Qed.

Lemma rangeTuples_in_range funds order : forall st r s,
  Forall (fun t : TupleT => Events t.2 <> []) order ->
  rangeTuples CalculateResults funds order st = Stop r s -> r <> Panics IndexOutOfRange.
Proof.
  induction order as [|[[[ex a] p] stats] order IH]; intros st r s Hall; simpl; [discriminate|].
  inversion Hall as [|? ? Hne Hrest]; subst. simpl in Hne.
  destruct (tupleStep _ _ _ _ _ _ _) as [st'|r' s'] eqn:Hstep; [now apply IH|].
  intros [= <- <-] ->. apply tupleStep_Stop in Hstep as (_ & Hempty & _). auto.
Qed.

(** C5.  A funding-lookup error leaves [CalculateAllResults] at once with
    that error, the tuples after it unvisited.  An error of the tuple's
    calculator does not: the iteration still sets the tuple's final and
    initial holdings and final orders, appends its summary to the results
    and its statistic to [AllStats], adds its buy and sell counts to the
    totals, and the loop goes on with the next tuple. *)
Theorem CalculateAllResults_error_policy funds :
  (forall pre ex a p stats rest s st last first d0 dl err,
      rangeTuples CalculateResults funds pre (enter s) = Next st ->
      lastRecord stats = Some last -> firstRecord stats = Some first ->
      DataEvent first = Some d0 -> DataEvent last = Some dl ->
      GetFundingForEvent funds (activeEvent last dl) = inl err ->
      CalculateAllResults CalculateResults funds (pre ++ (ex, a, p, stats) :: rest) s
      = (Returns (Some err), statistic st))
  /\ (forall ex a p stats rest st last first d0 dl f calculated err m,
      lastRecord stats = Some last -> firstRecord stats = Some first ->
      DataEvent first = Some d0 -> DataEvent last = Some dl ->
      GetFundingForEvent funds (activeEvent last dl) = inr f ->
      CalculateResults stats f = (calculated, Some err) ->
      ExchangeAssetPairStatistics (statistic st) = Some m ->
      exists st' stats' m',
        tupleStep CalculateResults funds ex a p stats st = Next st'
        /\ rangeTuples CalculateResults funds ((ex, a, p, stats) :: rest) st
           = rangeTuples CalculateResults funds rest st'
        /\ ExchangeAssetPairStatistics (statistic st') = Some m'
        /\ lookupStats m' ex a p = Some stats'
        /\ FinalHoldings stats' = Holdings last
        /\ InitialHoldings stats' = Holdings first
        /\ FinalOrders stats' = Transactions last
        /\ finalResults st' = finalResults st ++ [holderOf ex a p stats']
        /\ AllStats (statistic st') = AllStats (statistic st) ++ [stats']
        /\ BuyOrders stats' = calcBuyOrders calculated
        /\ SellOrders stats' = calcSellOrders calculated
        /\ TotalBuyOrders (statistic st')
           = wrap64 (TotalBuyOrders (statistic st) + BuyOrders stats')
        /\ TotalSellOrders (statistic st')
           = wrap64 (TotalSellOrders (statistic st) + SellOrders stats')).
Proof.
  split.
  - intros pre ex a p stats rest s st last first d0 dl err Hpre Hl Hf Hd0 Hdl Herr.
    unfold CalculateAllResults. rewrite rangeTuples_app, Hpre. simpl.
    unfold tupleStep.
    now rewrite Hl, Hf, Hd0, Hdl, Herr.
  - intros ex a p stats rest st last first d0 dl f calculated err m
      Hl Hf Hd0 Hdl Hfund Hcalc Hm.
    assert (Hstep : tupleStep CalculateResults funds ex a p stats st
      = Next {| statistic :=
                  recordTuple (statistic st) ex a p
                    (withTerminal (withCalculated stats calculated)
                       (Holdings last) (Holdings first) (Transactions last));
                currCount := currCount st + 1;
                finalResults :=
                  finalResults st
                  ++ [holderOf ex a p
                        (withTerminal (withCalculated stats calculated)
                           (Holdings last) (Holdings first) (Transactions last))];
                startDate := GetTime d0;
                endDate := GetTime dl |}).
    { unfold tupleStep.
      now rewrite Hl, Hf, Hd0, Hdl, Hfund, Hcalc. }
    eexists _, _, _. split; [exact Hstep|].
    split; [simpl; now rewrite Hstep|].
    split; [simpl; rewrite Hm; reflexivity|].
    split; [apply lookupStats_storeStats|].
    repeat split.
Qed.

(** C8 (as amended).  When [CalculateAllResults] completes, the funding
    report is generated from the time of the first record to the time of the
    last record of the tuple the iteration visited last. *)
Theorem CalculateAllResults_report_span funds pre ex a p stats s s' :
  CalculateAllResults CalculateResults funds (pre ++ [(ex, a, p, stats)]) s
  = (Returns None, s') ->
  exists first last d0 dl,
    firstRecord stats = Some first /\ lastRecord stats = Some last
    /\ DataEvent first = Some d0 /\ DataEvent last = Some dl
    /\ Funding s' = Some (GenerateReport funds (GetTime d0) (GetTime dl)).
Proof.
  unfold CalculateAllResults. rewrite rangeTuples_app.
  destruct (rangeTuples CalculateResults funds pre (enter s)) as [st|r s0] eqn:Hpre.
  - simpl. destruct (tupleStep _ _ _ _ _ _ _) as [st'|r s0] eqn:Hstep.
    + intros [= <-].
      apply tupleStep_Next in Hstep as (first & last & d0 & dl & f & Hl & Hf & Hd0 & Hdl & _ & ->).
      exists first, last, d0, dl. repeat split; assumption.
    + intros [= -> _]. now apply tupleStep_Stop in Hstep.
  - intros [= -> _]. now apply rangeTuples_Stop in Hpre.
Qed.

(** When all tuples cover one and the same period, as the tuples of a
    backtest run over common start and end dates do, the report is asked for
    that period, whichever tuple comes last. *)
Lemma CalculateAllResults_common_span funds order s s' (t0 t1 : Time) :
  order <> [] ->
  Forall (fun t : TupleT => spanOf t.2 = Some (t0, t1)) order ->
  CalculateAllResults CalculateResults funds order s = (Returns None, s') ->
  Funding s' = Some (GenerateReport funds t0 t1).
Proof.
  intros Hne Hall.
  destruct (exists_last Hne) as (pre & [[[ex a] p] stats] & ->).
  apply Forall_app in Hall as [_ Hlast]. inversion Hlast as [|? ? Hspan _]; subst.
  simpl in Hspan.
  unfold CalculateAllResults. rewrite rangeTuples_app.
  destruct (rangeTuples CalculateResults funds pre (enter s)) as [st|r s0] eqn:Hpre.
  - simpl. destruct (tupleStep _ _ _ _ _ _ _) as [st'|r s0] eqn:Hstep.
    + intros [= <-].
      apply tupleStep_Next in Hstep
        as (first & last & d0 & dl & f & Hl & Hf & Hd0 & Hdl & _ & ->).
      unfold spanOf in Hspan. rewrite Hf, Hl in Hspan. simpl in Hspan.
      rewrite Hd0, Hdl in Hspan. simpl in Hspan. injection Hspan as <- <-.
      reflexivity.
    + intros [= -> _]. now apply tupleStep_Stop in Hstep.
  - intros [= -> _]. now apply rangeTuples_Stop in Hpre.
Qed.

(** An empty store: the report spans two zero times. *)
Lemma CalculateAllResults_no_tuples funds s :
  CalculateAllResults CalculateResults funds [] s
  = (Returns None, finish funds (enter s))
  /\ Funding (finish funds (enter s)) = Some (GenerateReport funds 0%Z 0%Z).
Proof. split; reflexivity. Qed.

(** C10.  [CalculateAllResults] reads the last and the first record of
    every timeline without a length check.  When every registered timeline
    holds a record, both reads are in bounds at every tuple and the function
    does not panic with an index out of range; at a tuple with an empty
    timeline the read of the last record is out of bounds, and a run that
    reaches it panics there. *)
Theorem CalculateAllResults_timeline_reads funds order s :
  (Traversal s order ->
   Forall (fun t : TupleT => Events t.2 <> []) (tuples s) ->
   (forall t : TupleT, t ∈ order -> is_Some (lastRecord t.2) /\ is_Some (firstRecord t.2))
   /\ (CalculateAllResults CalculateResults funds order s).1 <> Panics IndexOutOfRange)
  /\ (forall pre ex a p stats rest,
      order = pre ++ (ex, a, p, stats) :: rest -> Events stats = [] ->
      lastRecord stats = None
      /\ forall st, rangeTuples CalculateResults funds pre (enter s) = Next st ->
           CalculateAllResults CalculateResults funds order s
           = (Panics IndexOutOfRange, statistic st)).
Proof.
  split.
  - intros Htrav Hall. unfold Traversal in Htrav. rewrite <- Htrav in Hall. split.
    + intros t Ht. rewrite Forall_forall in Hall. specialize (Hall t Ht).
      split; [now apply lastRecord_nonempty|now apply firstRecord_nonempty].
    + unfold CalculateAllResults.
      destruct (rangeTuples CalculateResults funds order (enter s)) as [st|r s0] eqn:Hrun;
        [discriminate|].
      simpl. eapply rangeTuples_in_range; eassumption.
  - intros pre ex a p stats rest -> Hempty. split; [now apply lastRecord_empty|].
    intros st Hpre. unfold CalculateAllResults.
    rewrite rangeTuples_app, Hpre. simpl.
    unfold tupleStep.
    now rewrite (lastRecord_empty _ Hempty).
Qed.

(** Stores built by the operations of the timeline store are read in
    bounds. *)
Lemma CalculateAllResults_in_range funds order s :
  storeOk s -> Traversal s order ->
  (CalculateAllResults CalculateResults funds order s).1 <> Panics IndexOutOfRange.
Proof.
  intros Hs Htrav. apply storeOk_tuples in Hs.
  unfold Traversal in Htrav. rewrite <- Htrav in Hs.
  unfold CalculateAllResults.
  destruct (rangeTuples CalculateResults funds order (enter s)) as [st|r s0] eqn:Hrun;
    [discriminate|].
  simpl. eapply rangeTuples_in_range; eassumption.
Qed.

End AggregatorProperties.

(** ** Timeline store: further properties *)

Section StoreCoverage.
Context {Pair : Type} `{Countable Pair} `{!GoZero Pair} `{!PairEqual Pair}.
Context {Holding Snapshot Report : Type}.
Context `{!GoZero Holding} `{!GoZero Snapshot}.

Local Abbreviation EventT := (Event Pair).
Local Abbreviation EventStoreT := (EventStore Pair Holding Snapshot).
Local Abbreviation CurrencyStatisticT := (CurrencyStatistic Pair Holding Snapshot).
Local Abbreviation StatisticT := (Statistic Pair Holding Snapshot Report).
Local Abbreviation PairStats := (gmap string (gmap string (gmap Pair CurrencyStatisticT))).
Local Abbreviation Key := (string * string * Pair)%type.

Implicit Types (s : StatisticT) (m : PairStats) (c : CurrencyStatisticT).
Implicit Types (ev d : EventT) (r : EventStoreT) (events : list EventStoreT).
Implicit Types (k : Key).

Lemma withStatistics_twice s (x y : option PairStats) :
  withStatistics (withStatistics s x) y = withStatistics s y.
Proof. reflexivity. Qed.

Lemma lookupIn_withStatistics s m k :
  lookupIn (withStatistics s (Some m)) k = lookupStats m k.1.1 k.1.2 k.2.
Proof. reflexivity. Qed.

Lemma lookupIn_default s k :
  lookupStats (default ∅ (ExchangeAssetPairStatistics s)) k.1.1 k.1.2 k.2 = lookupIn s k.
Proof.
  unfold lookupIn. destruct (ExchangeAssetPairStatistics s) as [m|]; [reflexivity|].
  simpl. unfold lookupStats. now rewrite lookup_empty.
Qed.

Lemma lookupIn_setupMap s ex a k :
  lookupIn (withStatistics s (Some (setupMap ex a (ExchangeAssetPairStatistics s)))) k
  = lookupIn s k.
Proof. now rewrite lookupIn_withStatistics, lookupStats_setupMap, lookupIn_default. Qed.

Lemma lookupIn_storeStats s m k c k' :
  lookupIn (withStatistics s (Some (storeStats m k.1.1 k.1.2 k.2 c))) k'
  = if decide (k' = k) then Some c else lookupStats m k'.1.1 k'.1.2 k'.2.
Proof.
  rewrite lookupIn_withStatistics. destruct k as [[ex a] p], k' as [[ex' a'] p']. simpl.
  destruct (decide _) as [[= -> -> ->]|Hne].
  - apply lookupStats_storeStats.
  - now apply lookupStats_storeStats_ne.
Qed.

(** *** Recording *)

Lemma scanDuplicate_no_match ev events n :
  timelineOk events ->
  (forall r d, r ∈ events -> DataEvent r = Some d -> sameEvent d ev = false) ->
  scanDuplicate ev events n = NotFound.
Proof.
  intros Hok. revert n. induction Hok as [|r0 events [d0 Hd0] Hok IH]; intros n Hno.
  - reflexivity.
  - simpl. rewrite Hd0, (Hno r0 d0); [|left|exact Hd0].
    apply IH. intros r d Hin. apply Hno. now right.
Qed.

Lemma SetupEventForTime_Some ev s :
  SetupEventForTime (Some ev) s =
  let m := setupMap (GetExchange ev) (GetAssetType ev) (ExchangeAssetPairStatistics s) in
  let lookup := default zeroValue (lookupIn s (tupleOf ev)) in
  match scanDuplicate ev (Events lookup) 0 with
  | ScanPanics k => (Panics k, withStatistics s (Some m))
  | Found _ => (Returns (Some ErrAlreadyProcessed), withStatistics s (Some m))
  | NotFound =>
    (Returns None,
     withStatistics s
       (Some (storeStats m (GetExchange ev) (GetAssetType ev) (GetPair ev)
                (withEvents lookup (Events lookup ++ [newEventStore ev])))))
  end.
Proof.
  unfold SetupEventForTime. cbv zeta. rewrite lookupStats_setupMap.
  pose proof (lookupIn_default s (tupleOf ev)) as E. simpl in E. now rewrite E.
Qed.

Lemma timelineOf_default s k : Events (default zeroValue (lookupIn s k)) = timelineOf s k.
Proof. unfold timelineOf. now destruct (lookupIn s k). Qed.

(** X1.  An event that matches no record of its tuple's timeline is
    accepted: [SetupEventForTime] returns nil, makes the store and the
    tuple's statistic where they are missing, and leaves the timeline as it
    was, followed by one record that holds the event and nothing else. *)
Theorem SetupEventForTime_appends s ev :
  timelineOk (timelineOf s (tupleOf ev)) ->
  (forall r d, r ∈ timelineOf s (tupleOf ev) -> DataEvent r = Some d ->
               sameEvent d ev = false) ->
  exists s',
    SetupEventForTime (Some ev) s = (Returns None, s')
    /\ lookupIn s' (tupleOf ev)
       = Some (withEvents (default zeroValue (lookupIn s (tupleOf ev)))
                 (timelineOf s (tupleOf ev) ++ [newEventStore ev]))
    /\ timelineOf s' (tupleOf ev) = timelineOf s (tupleOf ev) ++ [newEventStore ev].
Proof.
  intros Hok Hno. rewrite SetupEventForTime_Some. cbv zeta.
  rewrite timelineOf_default, (scanDuplicate_no_match _ _ _ Hok Hno).
  eexists. split; [reflexivity|].
  assert (Hl : forall c',
    lookupIn (withStatistics s
      (Some (storeStats (setupMap (GetExchange ev) (GetAssetType ev)
                           (ExchangeAssetPairStatistics s))
               (GetExchange ev) (GetAssetType ev) (GetPair ev) c'))) (tupleOf ev)
    = Some c').
  { intros c'. rewrite (lookupIn_storeStats _ _ (tupleOf ev)).
    now destruct (decide _). }
  split; [apply Hl|]. unfold timelineOf at 1. now rewrite Hl.
Qed.

(** X2.  Whatever it returns, [SetupEventForTime] leaves the statistic of
    every other tuple and every field of the store but the map as they
    were; on a nil event it leaves the store as it was. *)
Theorem SetupEventForTime_frame (oev : option EventT) s :
  (SetupEventForTime oev s).2
  = withStatistics s (ExchangeAssetPairStatistics (SetupEventForTime oev s).2)
  /\ (forall k, (forall ev, oev = Some ev -> k <> tupleOf ev) ->
        lookupIn (SetupEventForTime oev s).2 k = lookupIn s k)
  /\ (oev = None -> SetupEventForTime oev s = (Returns (Some ErrNilEvent), s)).
Proof.
  destruct oev as [ev|].
  - rewrite SetupEventForTime_Some. cbv zeta.
    destruct (scanDuplicate _ _ _); cbn [snd]; (split; [reflexivity|]);
      (split; [|discriminate]); intros k Hk; specialize (Hk ev eq_refl);
      try apply lookupIn_setupMap.
    rewrite (lookupIn_storeStats _ _ (tupleOf ev)).
    destruct (decide _) as [->|_]; [congruence|].
    now rewrite lookupStats_setupMap, lookupIn_default.
  - simpl. split; [now rewrite withStatistics_same|]. split; reflexivity.
Qed.

(** *** Enrichment by offset *)

Lemma scanOffset_Found events offset n i :
  scanOffset events offset n = Found i ->
  i < n /\ exists r, events !! i = Some r /\ offsetOf r = Some offset.
Proof.
  induction n as [|j IH]; simpl; [discriminate|].
  destruct (events !! j) as [r|] eqn:Hj; [|discriminate].
  destruct (DataEvent r) as [d|] eqn:Hd; [|discriminate].
  destruct (Z.eqb_spec (GetOffset d) offset) as [Heq|Hneq].
  - intros [= <-]. split; [lia|]. exists r. split; [exact Hj|].
    unfold offsetOf. now rewrite Hd, <- Heq.
  - intros [Hlt Hr]%IH. split; [lia|exact Hr].
Qed.

Lemma scanOffset_ext events events' offset n :
  length events = length events' ->
  offsetOf <$> events = offsetOf <$> events' ->
  scanOffset events offset n = scanOffset events' offset n.
Proof.
  intros Hlen Hoff. induction n as [|j IH]; simpl; [reflexivity|].
  assert (Hj : offsetOf <$> (events !! j) = offsetOf <$> (events' !! j))
    by now rewrite <- !list_lookup_fmap, Hoff.
  destruct (events !! j) as [r|], (events' !! j) as [r'|]; simpl in Hj; try discriminate;
    [|reflexivity].
  injection Hj as Hj. unfold offsetOf in Hj.
  destruct (DataEvent r) as [d|], (DataEvent r') as [d'|]; simpl in Hj; try discriminate;
    [|reflexivity].
  injection Hj as ->. now rewrite IH.
Qed.

Lemma setLatest_view {V : Type} (view : EventStoreT -> V) (f : EventStoreT -> EventStoreT)
    offset events :
  (forall r, offsetOf r = Some offset -> view (f r) = view r) ->
  view <$> setLatest f offset events = view <$> events.
Proof.
  intros Hf. unfold setLatest, setAt.
  destruct (scanOffset _ _ _) as [|i|] eqn:Hscan; try reflexivity.
  apply scanOffset_Found in Hscan as (_ & r & Hi & Hoff). rewrite Hi.
  rewrite list_fmap_insert, Hf by exact Hoff.
  apply list_insert_id. now rewrite list_lookup_fmap, Hi.
Qed.

Lemma setLatest_length (f : EventStoreT -> EventStoreT) offset events :
  length (setLatest f offset events) = length events.
Proof.
  unfold setLatest, setAt. destruct (scanOffset _ _ _); try reflexivity.
  destruct (events !! _); [apply length_insert|reflexivity].
Qed.

Lemma enrichWith_frame ev r :
  offsetOf r = Some (GetOffset ev) -> recordFrame (enrichWith ev r) = recordFrame r.
Proof.
  intros Hoff. unfold enrichWith, recordFrame.
  destruct (kindOf ev) as [[]|]; try reflexivity.
  unfold offsetOf in *. simpl. now rewrite Hoff.
Qed.

Lemma applyEventAtOffset_enrichWith ev c i r :
  Events c !! i = Some r ->
  (applyEventAtOffset ev c i).2 = withEvents c (<[i := enrichWith ev r]> (Events c))
  /\ (applyEventAtOffset ev c i).1
     = match kindOf ev with
       | Some _ => Returns None
       | None => Returns (Some errUnknownEventType)
       end.
Proof.
  intros Hi. unfold applyEventAtOffset, enrichWith, kindOf. rewrite Hi.
  destruct (isDataEventHandler ev); [now split|].
  destruct (isSignalEvent ev); [now split|].
  destruct (isOrderEvent ev); [now split|].
  destruct (isFillEvent ev); [now split|].
  simpl. split; [|reflexivity].
  now rewrite (list_insert_id _ _ _ Hi), withEvents_same.
Qed.

(** What the three enrichments have in common: the outcome of the scan
    decides between a write to one record and no change at all. *)
Lemma updateRecord_lookupIn s m k c i (f : EventStoreT -> EventStoreT) k' :
  ExchangeAssetPairStatistics s = Some m ->
  lookupIn s k = Some c ->
  lookupIn (updateRecord s m k.1.1 k.1.2 k.2 c i f).2 k'
  = if decide (k' = k)
    then Some (withEvents c (match Events c !! i with
                             | Some r => <[i := f r]> (Events c)
                             | None => Events c
                             end))
    else lookupIn s k'.
Proof.
  intros Hm Hc. unfold updateRecord.
  destruct (Events c !! i) as [r|]; cbn [snd].
  - rewrite (lookupIn_storeStats s m k). destruct (decide _); [reflexivity|].
    unfold lookupIn. now rewrite Hm.
  - destruct (decide _) as [->|]; [|reflexivity]. now rewrite withEvents_same.
Qed.

Lemma SetEventForOffset_lookupIn ev s k :
  lookupIn (SetEventForOffset (Some ev) s).2 k
  = (fun c => if decide (k = tupleOf ev)
              then withEvents c (setLatest (enrichWith ev) (GetOffset ev) (Events c))
              else c) <$> lookupIn s k.
Proof.
  unfold SetEventForOffset.
  destruct (ExchangeAssetPairStatistics s) as [m|] eqn:Hm.
  2:{ cbn [snd]. unfold lookupIn. now rewrite Hm. }
  cbv zeta. fold (lookupIn s k).
  assert (Hid : forall g : CurrencyStatisticT -> CurrencyStatisticT,
    (forall c, lookupIn s k = Some c -> g c = c) -> lookupIn s k = g <$> lookupIn s k).
  { intros g Hg. destruct (lookupIn s k) as [c|]; [|reflexivity]. simpl. now rewrite Hg. }
  destruct (lookupStats m _ _ _) as [c|] eqn:Hc.
  2:{ cbn [snd]. apply Hid. intros c Hk. destruct (decide _) as [->|]; [|reflexivity].
      unfold lookupIn in Hk. rewrite Hm in Hk. simpl in Hk. congruence. }
  assert (Hc' : lookupIn s (tupleOf ev) = Some c) by (unfold lookupIn; now rewrite Hm).
  unfold setLatest, setAt.
  destruct (scanOffset (Events c) _ _) as [|i|] eqn:Hscan; cbn [snd].
  - apply Hid. intros c0 Hk. destruct (decide _) as [->|]; [|reflexivity].
    assert (c0 = c) as -> by congruence. now rewrite Hscan, withEvents_same.
  - destruct (scanOffset_Found _ _ _ _ Hscan) as (_ & r & Hi & _).
    destruct (applyEventAtOffset_enrichWith ev c i r Hi) as [Hst _].
    destruct (applyEventAtOffset ev c i) as [res c'] eqn:Happly. cbn [snd] in *. subst c'.
    rewrite (lookupIn_storeStats s m (tupleOf ev)).
    destruct (decide _) as [->|Hne].
    + rewrite Hc'. simpl. now rewrite Hscan, Hi.
    + fold (lookupIn s k). unfold lookupIn at 1. rewrite Hm. simpl.
      change (lookupStats m k.1.1 k.1.2 k.2) with
        (mbind (M := option) (fun m0 : PairStats => lookupStats m0 k.1.1 k.1.2 k.2) (Some m)).
      rewrite <- Hm. fold (lookupIn s k).
      destruct (lookupIn s k); reflexivity.
  - apply Hid. intros c0 Hk. destruct (decide _) as [->|]; [|reflexivity].
    assert (c0 = c) as -> by congruence. now rewrite Hscan, withEvents_same.
Qed.

Context `{!HoldingFields Pair Holding}.

Local Abbreviation CallT := (@Call Pair Holding Snapshot).

Lemma lookupIn_Some s m k :
  ExchangeAssetPairStatistics s = Some m -> lookupIn s k = lookupStats m k.1.1 k.1.2 k.2.
Proof. intros Hm. unfold lookupIn. now rewrite Hm. Qed.

Lemma storeOk_lookupIn s k c :
  storeOk s -> lookupIn s k = Some c -> Events c <> [] /\ timelineOk (Events c).
Proof.
  intros Hs Hc. destruct (ExchangeAssetPairStatistics s) as [m|] eqn:Hm.
  - rewrite (lookupIn_Some s m k Hm) in Hc. exact (Hs _ _ _ _ _ Hm Hc).
  - unfold lookupIn in Hc. now rewrite Hm in Hc.
Qed.

Lemma storeOk_timelineOf s k : storeOk s -> timelineOk (timelineOf s k).
Proof.
  intros Hs. unfold timelineOf. destruct (lookupIn s k) as [c|] eqn:Hc.
  - exact (proj2 (storeOk_lookupIn s k c Hs Hc)).
  - constructor.
Qed.

Lemma scan_update_lookupIn s m k c offset (f : EventStoreT -> EventStoreT) k' :
  ExchangeAssetPairStatistics s = Some m ->
  lookupIn s k = Some c ->
  lookupIn (match scanOffset (Events c) offset (length (Events c)) with
            | ScanPanics kind => (Panics kind, s)
            | NotFound => (Returns None, s)
            | Found i => updateRecord s m k.1.1 k.1.2 k.2 c i f
            end).2 k'
  = if decide (k' = k) then Some (withEvents c (setLatest f offset (Events c)))
    else lookupIn s k'.
Proof.
  intros Hm Hc. unfold setLatest, setAt.
  destruct (scanOffset _ _ _) as [|i|]; cbn [snd].
  - destruct (decide _) as [->|]; [|reflexivity]. now rewrite withEvents_same.
  - now apply updateRecord_lookupIn.
  - destruct (decide _) as [->|]; [|reflexivity]. now rewrite withEvents_same.
Qed.

Lemma lookupIn_fmap_id s k (g : CurrencyStatisticT -> CurrencyStatisticT) :
  (forall c, lookupIn s k = Some c -> g c = c) -> lookupIn s k = g <$> lookupIn s k.
Proof.
  intros Hg. destruct (lookupIn s k) as [c|]; [|reflexivity]. simpl. now rewrite Hg.
Qed.

Lemma scan_update_fmap s k0 k (x : Result * StatisticT) (g : CurrencyStatisticT -> CurrencyStatisticT) :
  (forall c, lookupIn s k0 = Some c ->
     lookupIn x.2 k = if decide (k = k0) then Some (g c) else lookupIn s k) ->
  (lookupIn s k0 = None -> x.2 = s) ->
  lookupIn x.2 k = (fun c => if decide (k = k0) then g c else c) <$> lookupIn s k.
Proof.
  intros Hsome Hnone. destruct (lookupIn s k0) as [c0|] eqn:Hc0.
  - rewrite (Hsome c0 eq_refl). destruct (decide _) as [->|].
    + now rewrite Hc0.
    + now destruct (lookupIn s k).
  - rewrite Hnone by reflexivity. apply lookupIn_fmap_id. intros c Hc.
    destruct (decide _) as [->|]; [congruence|reflexivity].
Qed.

Lemma AddHoldingsForTime_lookupIn (h : Holding) s k :
  lookupIn (AddHoldingsForTime (Some h) s).2 k
  = (fun c => if decide (k = holdingTuple h)
              then withEvents c (setLatest (fun r => withHoldings r h) (HoldingOffset h)
                                   (Events c))
              else c) <$> lookupIn s k.
Proof.
  apply (scan_update_fmap s (holdingTuple h) k _
           (fun c => withEvents c (setLatest (fun r => withHoldings r h) (HoldingOffset h)
                                     (Events c)))).
  - intros c Hc. unfold AddHoldingsForTime.
    destruct (ExchangeAssetPairStatistics s) as [m|] eqn:Hm.
    2:{ unfold lookupIn in Hc. now rewrite Hm in Hc. }
    cbv zeta. rewrite (lookupIn_Some s m _ Hm) in Hc. unfold holdingTuple in Hc. simpl in Hc.
    rewrite Hc. apply (scan_update_lookupIn s m (holdingTuple h)); [exact Hm|].
    now rewrite (lookupIn_Some s m _ Hm).
  - intros Hc. unfold AddHoldingsForTime.
    destruct (ExchangeAssetPairStatistics s) as [m|] eqn:Hm; [|reflexivity].
    cbv zeta. rewrite (lookupIn_Some s m _ Hm) in Hc. unfold holdingTuple in Hc. simpl in Hc.
    now rewrite Hc.
Qed.

Lemma AddComplianceSnapshotForTime_lookupIn (snapshot : Snapshot) (e : EventT) s k :
  lookupIn (AddComplianceSnapshotForTime snapshot (Some e) s).2 k
  = (fun c => if decide (k = tupleOf e)
              then withEvents c (setLatest (fun r => withTransactions r snapshot)
                                   (GetOffset e) (Events c))
              else c) <$> lookupIn s k.
Proof.
  apply (scan_update_fmap s (tupleOf e) k _
           (fun c => withEvents c (setLatest (fun r => withTransactions r snapshot)
                                     (GetOffset e) (Events c)))).
  - intros c Hc. unfold AddComplianceSnapshotForTime.
    destruct (ExchangeAssetPairStatistics s) as [m|] eqn:Hm.
    2:{ unfold lookupIn in Hc. now rewrite Hm in Hc. }
    cbv zeta. rewrite (lookupIn_Some s m _ Hm) in Hc. unfold tupleOf in Hc. simpl in Hc.
    rewrite Hc. apply (scan_update_lookupIn s m (tupleOf e)); [exact Hm|].
    now rewrite (lookupIn_Some s m _ Hm).
  - intros Hc. unfold AddComplianceSnapshotForTime.
    destruct (ExchangeAssetPairStatistics s) as [m|] eqn:Hm; [|reflexivity].
    cbv zeta. rewrite (lookupIn_Some s m _ Hm) in Hc. unfold tupleOf in Hc. simpl in Hc.
    now rewrite Hc.
Qed.

(** *** Outcomes *)

Lemma updateRecord_outcome s m ex a p c i (f : EventStoreT -> EventStoreT) r :
  Events c !! i = Some r ->
  (updateRecord s m ex a p c i f).1 = Returns None.
Proof. intros Hi. unfold updateRecord. now rewrite Hi. Qed.

Lemma SetEventForOffset_outcome ev s :
  (SetEventForOffset (Some ev) s).1
  = enrichVerdict s (tupleOf ev) (GetOffset ev) (kindVerdict ev)
  /\ ((SetEventForOffset (Some ev) s).1 <> Returns None ->
      (SetEventForOffset (Some ev) s).2 = s).
Proof.
  unfold SetEventForOffset, enrichVerdict.
  destruct (ExchangeAssetPairStatistics s) as [m|] eqn:Hm; [|now split].
  cbv zeta. rewrite (lookupIn_Some s m _ Hm). unfold tupleOf. cbn [fst snd].
  destruct (lookupStats m _ _ _) as [c|] eqn:Hc; [|now split].
  destruct (scanOffset _ _ _) as [|i|] eqn:Hscan; [now split| |now split].
  destruct (scanOffset_Found _ _ _ _ Hscan) as (_ & r & Hi & _).
  pose proof (applyEventAtOffset_kind ev c i r Hi) as Hk. unfold kindVerdict.
  destruct (kindOf ev) as [kd|].
  - destruct Hk as (r' & -> & _). cbn [fst snd]. split; [reflexivity|congruence].
  - rewrite Hk. cbn [fst snd]. split; [reflexivity|]. intros _.
    rewrite (storeStats_registered _ _ _ _ _ Hc), <- Hm. apply withStatistics_same.
Qed.

Lemma AddHoldingsForTime_outcome (h : Holding) s :
  (AddHoldingsForTime (Some h) s).1
  = enrichVerdict s (holdingTuple h) (HoldingOffset h) (Returns None)
  /\ ((AddHoldingsForTime (Some h) s).1 <> Returns None ->
      (AddHoldingsForTime (Some h) s).2 = s).
Proof.
  unfold AddHoldingsForTime, enrichVerdict.
  destruct (ExchangeAssetPairStatistics s) as [m|] eqn:Hm; [|now split].
  cbv zeta. rewrite (lookupIn_Some s m _ Hm). unfold holdingTuple. cbn [fst snd].
  destruct (lookupStats m _ _ _) as [c|] eqn:Hc; [|now split].
  destruct (scanOffset _ _ _) as [|i|] eqn:Hscan; [now split| |now split].
  destruct (scanOffset_Found _ _ _ _ Hscan) as (_ & r & Hi & _).
  rewrite (updateRecord_outcome _ _ _ _ _ _ _ _ r Hi). split; [reflexivity|congruence].
Qed.

Lemma AddComplianceSnapshotForTime_outcome (snapshot : Snapshot) (e : EventT) s :
  (AddComplianceSnapshotForTime snapshot (Some e) s).1
  = enrichVerdict s (tupleOf e) (GetOffset e) (Returns None)
  /\ ((AddComplianceSnapshotForTime snapshot (Some e) s).1 <> Returns None ->
      (AddComplianceSnapshotForTime snapshot (Some e) s).2 = s).
Proof.
  unfold AddComplianceSnapshotForTime, enrichVerdict.
  destruct (ExchangeAssetPairStatistics s) as [m|] eqn:Hm; [|now split].
  cbv zeta. rewrite (lookupIn_Some s m _ Hm). unfold tupleOf. cbn [fst snd].
  destruct (lookupStats m _ _ _) as [c|] eqn:Hc; [|now split].
  destruct (scanOffset _ _ _) as [|i|] eqn:Hscan; [now split| |now split].
  destruct (scanOffset_Found _ _ _ _ Hscan) as (_ & r & Hi & _).
  rewrite (updateRecord_outcome _ _ _ _ _ _ _ _ r Hi). split; [reflexivity|congruence].
Qed.

Lemma enrichVerdict_unset s k offset found :
  found <> Returns (Some errExchangeAssetPairStatsUnset) ->
  found <> Returns (Some errCurrencyStatisticsUnset) ->
  unsetVerdict (enrichVerdict s k offset found) s k.
Proof.
  intros H1 H2. unfold unsetVerdict, enrichVerdict.
  destruct (ExchangeAssetPairStatistics s) as [m|] eqn:Hm;
    [destruct (lookupIn s k) as [c|] eqn:Hc; [destruct (scanOffset _ _ _)|]|];
    intuition (try congruence; try discriminate).
Qed.

Lemma enrichVerdict_storeOk s k offset found kind :
  storeOk s -> enrichVerdict s k offset found = Panics kind -> found = Panics kind.
Proof.
  intros Hs. unfold enrichVerdict.
  destruct (ExchangeAssetPairStatistics s) as [m|]; [|discriminate].
  destruct (lookupIn s k) as [c|] eqn:Hc; [|discriminate].
  destruct (storeOk_lookupIn s k c Hs Hc) as [_ Hok].
  pose proof (scanOffset_spec (Events c) offset _ (le_n _) Hok) as Hscan.
  destruct (scanOffset _ _ _); [discriminate|easy|contradiction].
Qed.

(** X3.  An enrichment never makes a timeline.  [SetEventForOffset],
    [AddComplianceSnapshotForTime] and [AddHoldingsForTime] return the
    unset-store error exactly when the store's map is nil, and the
    unset-statistic error exactly when the map is set and holds nothing for
    the tuple; whenever one of them does not return nil (an error or a
    panic), the store is as it was before the call.  [AddHoldingsForTime]
    reads its pointer only once the map is known to be set. *)
Theorem enrichment_unset_and_atomic :
  (forall ev s,
     unsetVerdict (SetEventForOffset (Some ev) s).1 s (tupleOf ev)
     /\ ((SetEventForOffset (Some ev) s).1 <> Returns None ->
         (SetEventForOffset (Some ev) s).2 = s))
  /\ (forall (snapshot : Snapshot) (e : EventT) s,
        unsetVerdict (AddComplianceSnapshotForTime snapshot (Some e) s).1 s (tupleOf e)
        /\ ((AddComplianceSnapshotForTime snapshot (Some e) s).1 <> Returns None ->
            (AddComplianceSnapshotForTime snapshot (Some e) s).2 = s))
  /\ (forall (h : Holding) s,
        unsetVerdict (AddHoldingsForTime (Some h) s).1 s (holdingTuple h)
        /\ ((AddHoldingsForTime (Some h) s).1 <> Returns None ->
            (AddHoldingsForTime (Some h) s).2 = s))
  /\ (forall s,
        AddHoldingsForTime None s
        = (match ExchangeAssetPairStatistics s with
           | None => Returns (Some errExchangeAssetPairStatsUnset)
           | Some _ => Panics NilDereference
           end, s)).
Proof.
  split; [|split; [|split]].
  - intros ev s. split; [|apply SetEventForOffset_outcome].
    rewrite (proj1 (SetEventForOffset_outcome ev s)).
    apply enrichVerdict_unset; unfold kindVerdict; now destruct (kindOf ev).
  - intros snapshot e s. split; [|apply AddComplianceSnapshotForTime_outcome].
    rewrite (proj1 (AddComplianceSnapshotForTime_outcome snapshot e s)).
    now apply enrichVerdict_unset.
  - intros h s. split; [|apply AddHoldingsForTime_outcome].
    rewrite (proj1 (AddHoldingsForTime_outcome h s)). now apply enrichVerdict_unset.
  - intros s. unfold AddHoldingsForTime. now destruct (ExchangeAssetPairStatistics s).
Qed.

Lemma storeOk_from_tuples s :
  Forall (fun t : string * string * Pair * CurrencyStatisticT =>
            Events t.2 <> [] /\ timelineOk (Events t.2)) (tuples s) ->
  storeOk s.
Proof.
  intros Hall m ex a p c Hm Hc. rewrite Forall_forall in Hall.
  apply (Hall (ex, a, p, c)). apply tuples_lookup. eauto.
Qed.

(** *** Histories *)

Lemma scanDuplicate_timelineOk ev events n kind :
  timelineOk events -> scanDuplicate ev events n <> ScanPanics kind.
Proof.
  intros Hok. revert n. induction Hok as [|r events [d Hd] _ IH]; intros n; simpl.
  - discriminate.
  - rewrite Hd. destruct (sameEvent d ev); [discriminate|apply IH].
Qed.

Lemma SetStrategyName_storeOk name s : storeOk s -> storeOk (SetStrategyName name s).
Proof. intros Hs m ex a p c Hm. exact (Hs m ex a p c Hm). Qed.

Lemma call_storeOk (x : CallT) s : storeOk s -> storeOk (call x s).2.
Proof.
  intros Hs. destruct x as [|name|oev|oev|oh|snapshot oe]; simpl.
  - apply Reset_storeOk.
  - now apply SetStrategyName_storeOk.
  - exact (SetupEventForTime_storeOk s oev _ _ Hs (surjective_pairing _)).
  - exact (SetEventForOffset_storeOk s oev _ _ Hs (surjective_pairing _)).
  - exact (AddHoldingsForTime_storeOk s oh _ _ Hs (surjective_pairing _)).
  - exact (AddComplianceSnapshotForTime_storeOk s snapshot oe _ _ Hs (surjective_pairing _)).
Qed.

Lemma history_storeOk (xs : list CallT) : storeOk (history xs : StatisticT).
Proof.
  unfold history.
  assert (Hgen : forall s, storeOk s -> storeOk (fold_left (fun s x => (call x s).2) xs s)).
  { induction xs as [|x xs IH]; intros s Hs; simpl; [exact Hs|].
    apply IH. now apply call_storeOk. }
  apply Hgen, storeOk_zero.
Qed.

Lemma call_panics (x : CallT) s kind :
  storeOk s -> (call x s).1 = Panics kind ->
  x = CallAddHoldingsForTime None /\ kind = NilDereference
  /\ ExchangeAssetPairStatistics s <> None.
Proof.
  intros Hs. destruct x as [|name|[ev|]|[ev|]|[h|]|snapshot [e|]]; unfold call;
    try (simpl; discriminate).
  - rewrite SetupEventForTime_Some. cbv zeta.
    rewrite timelineOf_default.
    pose proof (fun kind' => scanDuplicate_timelineOk ev _ 0 kind'
                               (storeOk_timelineOf s (tupleOf ev) Hs)) as Hscan.
    destruct (scanDuplicate _ _ _) as [|i|kind']; try discriminate.
    exfalso. exact (Hscan kind' eq_refl).
  - rewrite (proj1 (SetEventForOffset_outcome ev s)).
    intros Hp%enrichVerdict_storeOk; [|exact Hs].
    unfold kindVerdict in Hp. now destruct (kindOf ev).
  - rewrite (proj1 (AddHoldingsForTime_outcome h s)).
    now intros Hp%enrichVerdict_storeOk.
  - unfold AddHoldingsForTime.
    destruct (ExchangeAssetPairStatistics s); [|discriminate].
    cbn [fst]. now intros [= <-].
  - rewrite (proj1 (AddComplianceSnapshotForTime_outcome snapshot e s)).
    now intros Hp%enrichVerdict_storeOk.
Qed.

(** X4.  Whatever calls were made on a fresh [Statistic], in whatever
    order and with whatever arguments, every timeline of the store holds a
    record and every record its data event; and the next call panics in one
    case only, [AddHoldingsForTime] with a nil pointer on a store whose map
    is set.  No scan reads a nil data event and no index is out of range. *)
Theorem history_keeps_invariant (xs : list CallT) (x : CallT) :
  storeOk (history xs : StatisticT)
  /\ match (call x (history xs : StatisticT)).1 with
     | Panics kind =>
       x = CallAddHoldingsForTime None /\ kind = NilDereference
       /\ ExchangeAssetPairStatistics (history xs : StatisticT) <> None
     | Returns _ => True
     end.
Proof.
  split; [apply history_storeOk|].
  destruct (call x (history xs : StatisticT)).1 as [e|kind] eqn:E; [exact I|].
  exact (call_panics x _ kind (history_storeOk xs) E).
Qed.

(** X5.  [SetEventForOffset] changes event fields only: in every timeline
    it leaves the number of records, and the offset, the holdings and the
    compliance snapshot of every record as they were; it leaves the other
    fields of the tuple's statistic, the statistics of the other tuples, and
    the name, the totals and the summaries of the store as they were. *)
Theorem SetEventForOffset_frame (oev : option EventT) s k :
  summaryOf (SetEventForOffset oev s).2 = summaryOf s
  /\ recordFrame <$> timelineOf (SetEventForOffset oev s).2 k = recordFrame <$> timelineOf s k
  /\ lookupIn (SetEventForOffset oev s).2 k
     = (fun c => withEvents c (timelineOf (SetEventForOffset oev s).2 k)) <$> lookupIn s k
  /\ ((forall ev, oev = Some ev -> k <> tupleOf ev) ->
      lookupIn (SetEventForOffset oev s).2 k = lookupIn s k).
Proof.
  destruct oev as [ev|].
  2:{ simpl. split; [reflexivity|]. split; [reflexivity|].
      split; [|reflexivity]. unfold timelineOf.
      destruct (lookupIn s k) as [c|]; [|reflexivity]. simpl. now rewrite withEvents_same. }
  split.
  { unfold SetEventForOffset.
    destruct (ExchangeAssetPairStatistics s) as [m|] eqn:Hm; [|reflexivity].
    cbv zeta. destruct (lookupStats m _ _ _) as [c|]; [|reflexivity].
    destruct (scanOffset _ _ _); try reflexivity.
    now destruct (applyEventAtOffset ev c _). }
  unfold timelineOf. rewrite SetEventForOffset_lookupIn.
  destruct (lookupIn s k) as [c|]; simpl; [|now repeat split].
  destruct (decide (k = tupleOf ev)) as [->|Hne]; simpl.
  - split; [|split; [reflexivity|]].
    + apply setLatest_view. intros r Hr. now apply enrichWith_frame.
    + intros Hk. now specialize (Hk ev eq_refl).
  - split; [reflexivity|]. split; [now rewrite withEvents_same|reflexivity].
Qed.

Lemma SetupEventForTime_accepted s ev :
  (SetupEventForTime (Some ev) s).1 = Returns None ->
  exists c,
    lookupIn (SetupEventForTime (Some ev) s).2 (tupleOf ev) = Some c
    /\ Events c = timelineOf s (tupleOf ev) ++ [newEventStore ev].
Proof.
  rewrite SetupEventForTime_Some. cbv zeta. rewrite timelineOf_default.
  destruct (scanDuplicate _ _ _); try discriminate. intros _. cbn [snd].
  eexists. split.
  - rewrite (lookupIn_storeStats _ _ (tupleOf ev)). now destruct (decide _).
  - reflexivity.
Qed.

(** The scan of [SetEventForOffset] starts at the last record. *)
Lemma SetEventForOffset_last_record s (e2 : EventT) c (earlier : list EventStoreT) r :
  lookupIn s (tupleOf e2) = Some c ->
  Events c = earlier ++ [r] ->
  offsetOf r = Some (GetOffset e2) ->
  (SetEventForOffset (Some e2) s).1 = kindVerdict e2
  /\ timelineOf (SetEventForOffset (Some e2) s).2 (tupleOf e2)
     = earlier ++ [enrichWith e2 r].
Proof.
  intros Hc Hevents Hoffset.
  assert (Hscan : scanOffset (Events c) (GetOffset e2) (length (Events c))
                  = Found (length earlier)).
  { rewrite Hevents, length_app, Nat.add_comm. cbn [length Nat.add scanOffset].
    rewrite list_lookup_middle by reflexivity.
    unfold offsetOf in Hoffset. destruct (DataEvent r) as [d|]; [|discriminate].
    injection Hoffset as ->. now rewrite Z.eqb_refl. }
  split.
  - rewrite (proj1 (SetEventForOffset_outcome e2 s)). unfold enrichVerdict.
    rewrite Hc. cbv beta iota. rewrite Hscan.
    unfold lookupIn in Hc. now destruct (ExchangeAssetPairStatistics s).
  - unfold timelineOf. rewrite SetEventForOffset_lookupIn, Hc.
    cbn [fmap option_fmap option_map default from_option id].
    destruct (decide _) as [_|Hne]; [|congruence].
    cbn [Events withEvents].
    unfold setLatest, setAt. rewrite Hscan, Hevents.
    rewrite list_lookup_middle by reflexivity.
    rewrite insert_app_r_alt by reflexivity. now rewrite Nat.sub_diag.
Qed.

(** X6.  Recording then enriching.  Once [SetupEventForTime] has accepted
    an event, [SetEventForOffset] with an event of the same tuple and offset
    writes to the record just appended, the last of the timeline: the
    scan stops there at once, whatever the earlier records hold. *)
Theorem record_then_enrich s ev (e2 : EventT) :
  (SetupEventForTime (Some ev) s).1 = Returns None ->
  tupleOf e2 = tupleOf ev -> GetOffset e2 = GetOffset ev ->
  (SetEventForOffset (Some e2) (SetupEventForTime (Some ev) s).2).1 = kindVerdict e2
  /\ timelineOf (SetEventForOffset (Some e2) (SetupEventForTime (Some ev) s).2).2 (tupleOf ev)
     = timelineOf s (tupleOf ev) ++ [enrichWith e2 (newEventStore ev)].
Proof.
  intros Haccepted Htuple Hoffset.
  destruct (SetupEventForTime_accepted s ev Haccepted) as (c & Hc & Hevents).
  rewrite <- Htuple in *.
  apply (SetEventForOffset_last_record _ e2 c); [exact Hc|exact Hevents|].
  unfold offsetOf. cbn [newEventStore DataEvent fmap option_fmap option_map].
  now rewrite Hoffset.
Qed.

(** *** Attachments *)

Lemma setLatest_attachedAt (f : EventStoreT -> EventStoreT) offset events :
  timelineOk events -> attachedAt f offset events (setLatest f offset events).
Proof.
  intros Hok. split; [apply setLatest_length|]. intros i r Hi.
  pose proof (scanOffset_spec events offset _ (le_n _) Hok) as Hs.
  unfold setLatest, setAt.
  destruct (scanOffset _ _ _) as [|i0|] eqn:Hscan; [| |contradiction].
  - split; [|now intros _]. intros (_ & Hoff & _). exfalso.
    exact (Hs i r (lookup_lt_Some _ _ _ Hi) Hi Hoff).
  - destruct Hs as (Hlt & (r0 & Hi0 & Hoff0) & Hlater). rewrite Hi0. split.
    + intros Hlatest. pose proof (scanOffset_latest _ _ _ _ Hok Hlatest) as E.
      rewrite Hscan in E. injection E as ->.
      assert (r0 = r) as -> by congruence.
      now rewrite list_lookup_insert_eq.
    + intros Hnot. rewrite list_lookup_insert_ne; [exact Hi|].
      intros ->. apply Hnot. assert (r0 = r) as -> by congruence.
      split; [exact Hi|]. split; [exact Hoff0|].
      intros j r' Hj Hr'. apply (Hlater j r'); [|exact Hr'].
      split; [exact Hj|]. exact (lookup_lt_Some _ _ _ Hr').
Qed.

(** X7.  On a store that keeps the invariant, [AddHoldingsForTime] and
    [AddComplianceSnapshotForTime] for a tuple with a statistic return nil;
    the first sets the holdings, the second the compliance snapshot, of the
    latest record of the tuple's timeline whose data event has the offset,
    and of no other record (of none when no record has the offset); the
    statistics of the other tuples stay as they were. *)
Theorem attachments_reach_latest_record s :
  storeOk s ->
  (forall h : Holding, lookupIn s (holdingTuple h) <> None ->
     (AddHoldingsForTime (Some h) s).1 = Returns None
     /\ attachedAt (fun r => withHoldings r h) (HoldingOffset h)
          (timelineOf s (holdingTuple h))
          (timelineOf (AddHoldingsForTime (Some h) s).2 (holdingTuple h))
     /\ forall k, k <> holdingTuple h ->
          lookupIn (AddHoldingsForTime (Some h) s).2 k = lookupIn s k)
  /\ (forall (snapshot : Snapshot) (e : EventT), lookupIn s (tupleOf e) <> None ->
        (AddComplianceSnapshotForTime snapshot (Some e) s).1 = Returns None
        /\ attachedAt (fun r => withTransactions r snapshot) (GetOffset e)
             (timelineOf s (tupleOf e))
             (timelineOf (AddComplianceSnapshotForTime snapshot (Some e) s).2 (tupleOf e))
        /\ forall k, k <> tupleOf e ->
             lookupIn (AddComplianceSnapshotForTime snapshot (Some e) s).2 k = lookupIn s k).
Proof.
  intros Hs.
  assert (Hverdict : forall k offset c, lookupIn s k = Some c ->
            enrichVerdict s k offset (Returns None) = Returns None).
  { intros k offset c Hc. unfold enrichVerdict. rewrite Hc.
    destruct (ExchangeAssetPairStatistics s) as [m|] eqn:Hm.
    2:{ unfold lookupIn in Hc. now rewrite Hm in Hc. }
    pose proof (scanOffset_spec (Events c) offset _ (le_n _)
                  (proj2 (storeOk_lookupIn s k c Hs Hc))) as Hscan.
    now destruct (scanOffset _ _ _). }
  split.
  - intros h Hk. destruct (lookupIn s (holdingTuple h)) as [c|] eqn:Hc; [clear Hk|easy].
    split; [|split].
    + rewrite (proj1 (AddHoldingsForTime_outcome h s)). now apply (Hverdict _ _ c).
    + unfold timelineOf. rewrite AddHoldingsForTime_lookupIn, Hc. simpl.
      destruct (decide _) as [_|Hne]; [|congruence]. simpl.
      apply setLatest_attachedAt. exact (proj2 (storeOk_lookupIn s _ c Hs Hc)).
    + intros k Hne. rewrite AddHoldingsForTime_lookupIn.
      destruct (lookupIn s k); [|reflexivity]. simpl. now destruct (decide _).
  - intros snapshot e Hk. destruct (lookupIn s (tupleOf e)) as [c|] eqn:Hc; [clear Hk|easy].
    split; [|split].
    + rewrite (proj1 (AddComplianceSnapshotForTime_outcome snapshot e s)).
      now apply (Hverdict _ _ c).
    + unfold timelineOf. rewrite AddComplianceSnapshotForTime_lookupIn, Hc. simpl.
      destruct (decide _) as [_|Hne]; [|congruence]. simpl.
      apply setLatest_attachedAt. exact (proj2 (storeOk_lookupIn s _ c Hs Hc)).
    + intros k Hne. rewrite AddComplianceSnapshotForTime_lookupIn.
      destruct (lookupIn s k); [|reflexivity]. simpl. now destruct (decide _).
Qed.

(** *** The order of the attachments *)

Lemma setAt_commute (f g : EventStoreT -> EventStoreT) i j events :
  (forall r, f (g r) = g (f r)) ->
  setAt f i (setAt g j events) = setAt g j (setAt f i events).
Proof.
  intros Hfg. unfold setAt.
  destruct (events !! j) as [rj|] eqn:Hj, (events !! i) as [ri|] eqn:Hi;
    rewrite ?Hi, ?Hj; try reflexivity.
  - destruct (decide (i = j)) as [->|Hne].
    + assert (ri = rj) as -> by congruence.
      rewrite !list_lookup_insert_eq by exact (lookup_lt_Some _ _ _ Hj).
      now rewrite !list_insert_insert_eq, Hfg.
    + rewrite !list_lookup_insert_ne by congruence. rewrite Hi, Hj.
      now apply list_insert_insert_ne.
  - rewrite list_lookup_insert_ne, Hi; [reflexivity|].
    intros ->. congruence.
  - rewrite list_lookup_insert_ne, Hj; [reflexivity|].
    intros ->. congruence.
Qed.

Lemma setLatest_scan (f : EventStoreT -> EventStoreT) offset events offset' :
  (forall r, DataEvent (f r) = DataEvent r) ->
  scanOffset (setLatest f offset events) offset' (length (setLatest f offset events))
  = scanOffset events offset' (length events).
Proof.
  intros Hf. rewrite setLatest_length. apply scanOffset_ext.
  - apply setLatest_length.
  - apply setLatest_view. intros r _. unfold offsetOf. now rewrite Hf.
Qed.

Lemma setLatest_commute (f g : EventStoreT -> EventStoreT) offset offset' events :
  (forall r, DataEvent (f r) = DataEvent r) ->
  (forall r, DataEvent (g r) = DataEvent r) ->
  (forall r, f (g r) = g (f r)) ->
  setLatest f offset (setLatest g offset' events)
  = setLatest g offset' (setLatest f offset events).
Proof.
  intros Hf Hg Hfg.
  assert (Hunfold : forall (f0 : EventStoreT -> EventStoreT) offset0 events0,
            setLatest f0 offset0 events0
            = match scanOffset events0 offset0 (length events0) with
              | Found i => setAt f0 i events0
              | _ => events0
              end) by reflexivity.
  rewrite (Hunfold f offset (setLatest g offset' events)),
    (setLatest_scan g offset' events offset Hg).
  rewrite (Hunfold g offset' (setLatest f offset events)),
    (setLatest_scan f offset events offset' Hf).
  unfold setLatest.
  destruct (scanOffset events offset _), (scanOffset events offset' _); try reflexivity.
  now apply setAt_commute.
Qed.

Lemma enrichVerdict_ext s s' k offset found :
  (ExchangeAssetPairStatistics s' = None <-> ExchangeAssetPairStatistics s = None) ->
  (fun c => offsetOf <$> Events c) <$> lookupIn s' k
  = (fun c => offsetOf <$> Events c) <$> lookupIn s k ->
  enrichVerdict s' k offset found = enrichVerdict s k offset found.
Proof.
  intros Hset Hoff. unfold enrichVerdict.
  destruct (ExchangeAssetPairStatistics s') as [m'|], (ExchangeAssetPairStatistics s) as [m|];
    try reflexivity; [|exfalso; now pose proof (proj2 Hset eq_refl)
                      |exfalso; now pose proof (proj1 Hset eq_refl)].
  destruct (lookupIn s' k) as [c'|], (lookupIn s k) as [c|]; try discriminate;
    [|reflexivity].
  injection Hoff as Hoff.
  assert (Hlen : length (Events c') = length (Events c))
    by (rewrite <- (length_fmap offsetOf (Events c')), Hoff; apply length_fmap).
  now rewrite Hlen, (scanOffset_ext _ (Events c) _ _ Hlen Hoff).
Qed.

Lemma updateRecord_set s m ex a p c i (f : EventStoreT -> EventStoreT) :
  ExchangeAssetPairStatistics s = Some m ->
  ExchangeAssetPairStatistics (updateRecord s m ex a p c i f).2 <> None.
Proof.
  intros Hm. unfold updateRecord. destruct (Events c !! i); cbn [snd]; [discriminate|].
  now rewrite Hm.
Qed.

Lemma AddHoldingsForTime_set (h : Holding) s :
  ExchangeAssetPairStatistics (AddHoldingsForTime (Some h) s).2 = None
  <-> ExchangeAssetPairStatistics s = None.
Proof.
  unfold AddHoldingsForTime.
  destruct (ExchangeAssetPairStatistics s) as [m|] eqn:Hm; [|cbn [snd]; now rewrite Hm].
  cbv zeta. destruct (lookupStats m _ _ _) as [c|]; [|cbn [snd]; now rewrite Hm].
  destruct (scanOffset _ _ _); try (cbn [snd]; now rewrite Hm).
  split; [|discriminate]. intros Hnone. now apply updateRecord_set in Hnone.
Qed.

Lemma AddComplianceSnapshotForTime_set (snapshot : Snapshot) (e : EventT) s :
  ExchangeAssetPairStatistics (AddComplianceSnapshotForTime snapshot (Some e) s).2 = None
  <-> ExchangeAssetPairStatistics s = None.
Proof.
  unfold AddComplianceSnapshotForTime.
  destruct (ExchangeAssetPairStatistics s) as [m|] eqn:Hm; [|cbn [snd]; now rewrite Hm].
  cbv zeta. destruct (lookupStats m _ _ _) as [c|]; [|cbn [snd]; now rewrite Hm].
  destruct (scanOffset _ _ _); try (cbn [snd]; now rewrite Hm).
  split; [|discriminate]. intros Hnone. now apply updateRecord_set in Hnone.
Qed.

Lemma fmap_setLatest_offsets (k k0 : Key) (f : EventStoreT -> EventStoreT) offset
    (o : option CurrencyStatisticT) :
  (forall r, DataEvent (f r) = DataEvent r) ->
  (fun c => offsetOf <$> Events c)
    <$> ((fun c => if decide (k = k0) then withEvents c (setLatest f offset (Events c)) else c)
           <$> o)
  = (fun c => offsetOf <$> Events c) <$> o.
Proof.
  intros Hf. destruct o as [c|]; [|reflexivity]. simpl. f_equal.
  destruct (decide _); [|reflexivity]. simpl.
  apply setLatest_view. intros r _. unfold offsetOf. now rewrite Hf.
Qed.

(** X8.  The order of the two attachments does not matter: holdings
    first and compliance snapshot second, or the other way round, return
    the same and leave the same statistic at every tuple, whatever the
    tuples and offsets of the two calls.  Neither changes what the other's
    scan compares. *)
Theorem attachments_commute (h : Holding) (snapshot : Snapshot) (e : EventT) s k :
  (AddComplianceSnapshotForTime snapshot (Some e) (AddHoldingsForTime (Some h) s).2).1
  = (AddComplianceSnapshotForTime snapshot (Some e) s).1
  /\ (AddHoldingsForTime (Some h) (AddComplianceSnapshotForTime snapshot (Some e) s).2).1
     = (AddHoldingsForTime (Some h) s).1
  /\ lookupIn
       (AddComplianceSnapshotForTime snapshot (Some e) (AddHoldingsForTime (Some h) s).2).2 k
     = lookupIn
         (AddHoldingsForTime (Some h) (AddComplianceSnapshotForTime snapshot (Some e) s).2).2 k.
Proof.
  split; [|split].
  - rewrite !(fun s0 => proj1 (AddComplianceSnapshotForTime_outcome snapshot e s0)).
    apply enrichVerdict_ext; [apply AddHoldingsForTime_set|].
    rewrite AddHoldingsForTime_lookupIn. now apply fmap_setLatest_offsets.
  - rewrite !(fun s0 => proj1 (AddHoldingsForTime_outcome h s0)).
    apply enrichVerdict_ext; [apply AddComplianceSnapshotForTime_set|].
    rewrite AddComplianceSnapshotForTime_lookupIn. now apply fmap_setLatest_offsets.
  - rewrite AddComplianceSnapshotForTime_lookupIn, !AddHoldingsForTime_lookupIn,
      AddComplianceSnapshotForTime_lookupIn.
    destruct (lookupIn s k) as [c|]; [|reflexivity]. simpl. f_equal.
    destruct (decide (k = tupleOf e)), (decide (k = holdingTuple h)); try reflexivity.
    simpl. f_equal. now apply setLatest_commute.
Qed.

(** *** Writing twice *)

Lemma setLatest_scan_at (f : EventStoreT -> EventStoreT) offset events offset' :
  (forall r, offsetOf r = Some offset -> offsetOf (f r) = offsetOf r) ->
  scanOffset (setLatest f offset events) offset' (length (setLatest f offset events))
  = scanOffset events offset' (length events).
Proof.
  intros Hf. rewrite setLatest_length. apply scanOffset_ext.
  - apply setLatest_length.
  - now apply setLatest_view.
Qed.

Lemma setLatest_overwrite (f g : EventStoreT -> EventStoreT) offset events :
  (forall r, offsetOf r = Some offset -> offsetOf (f r) = offsetOf r) ->
  (forall r, g (f r) = g r) ->
  setLatest g offset (setLatest f offset events) = setLatest g offset events.
Proof.
  intros Hf Hgf.
  assert (Hunfold : forall (f0 : EventStoreT -> EventStoreT) events0,
            setLatest f0 offset events0
            = match scanOffset events0 offset (length events0) with
              | Found i => setAt f0 i events0
              | _ => events0
              end) by reflexivity.
  rewrite (Hunfold g (setLatest f offset events)), (setLatest_scan_at f offset events offset Hf).
  unfold setLatest. destruct (scanOffset events offset _) as [|i|]; try reflexivity.
  unfold setAt. destruct (events !! i) as [r|] eqn:Hi; rewrite ?Hi; [|reflexivity].
  rewrite list_lookup_insert_eq by exact (lookup_lt_Some _ _ _ Hi).
  now rewrite list_insert_insert_eq, Hgf.
Qed.

Lemma fmap_setLatest_offsets_at (k k0 : Key) (f : EventStoreT -> EventStoreT) offset
    (o : option CurrencyStatisticT) :
  (forall r, offsetOf r = Some offset -> offsetOf (f r) = offsetOf r) ->
  (fun c => offsetOf <$> Events c)
    <$> ((fun c => if decide (k = k0) then withEvents c (setLatest f offset (Events c)) else c)
           <$> o)
  = (fun c => offsetOf <$> Events c) <$> o.
Proof.
  intros Hf. destruct o as [c|]; [|reflexivity]. simpl. f_equal.
  destruct (decide _); [|reflexivity]. simpl. now apply setLatest_view.
Qed.

Lemma fmap_setLatest_overwrite (k k0 : Key) (f g : EventStoreT -> EventStoreT) offset
    (o : option CurrencyStatisticT) :
  (forall r, offsetOf r = Some offset -> offsetOf (f r) = offsetOf r) ->
  (forall r, g (f r) = g r) ->
  (fun c => if decide (k = k0) then withEvents c (setLatest g offset (Events c)) else c)
    <$> ((fun c => if decide (k = k0) then withEvents c (setLatest f offset (Events c)) else c)
           <$> o)
  = (fun c => if decide (k = k0) then withEvents c (setLatest g offset (Events c)) else c)
      <$> o.
Proof.
  intros Hf Hgf. destruct o as [c|]; [|reflexivity]. simpl. f_equal.
  destruct (decide _); [|reflexivity]. simpl. f_equal. now apply setLatest_overwrite.
Qed.

Lemma SetEventForOffset_set ev s :
  ExchangeAssetPairStatistics (SetEventForOffset (Some ev) s).2 = None
  <-> ExchangeAssetPairStatistics s = None.
Proof.
  unfold SetEventForOffset.
  destruct (ExchangeAssetPairStatistics s) as [m|] eqn:Hm; [|cbn [snd]; now rewrite Hm].
  cbv zeta. destruct (lookupStats m _ _ _) as [c|]; [|cbn [snd]; now rewrite Hm].
  destruct (scanOffset _ _ _); try (cbn [snd]; now rewrite Hm).
  destruct (applyEventAtOffset ev c _). cbn [snd]. split; discriminate.
Qed.

Lemma enrichWith_offset ev r :
  offsetOf r = Some (GetOffset ev) -> offsetOf (enrichWith ev r) = offsetOf r.
Proof. intros Hr. now injection (enrichWith_frame ev r Hr). Qed.

Lemma enrichWith_overwrite (e1 e2 : EventT) r :
  kindOf e1 = kindOf e2 -> enrichWith e2 (enrichWith e1 r) = enrichWith e2 r.
Proof. intros Hk. unfold enrichWith. rewrite Hk. now destruct (kindOf e2) as [[]|]. Qed.

(** X20.  The last write wins.  Of two calls of [AddHoldingsForTime] for
    one tuple and offset, of [AddComplianceSnapshotForTime] for one tuple
    and offset, or of [SetEventForOffset] with two events of one tuple,
    offset and kind, the first leaves no trace: the second call returns
    what it returns without the first, and the statistic of every tuple is
    what the second call alone makes it.  In particular a call made twice
    has the effect of the call made once. *)
Theorem enrichment_last_write_wins s k :
  (forall h1 h2 : Holding,
     holdingTuple h1 = holdingTuple h2 -> HoldingOffset h1 = HoldingOffset h2 ->
     (AddHoldingsForTime (Some h2) (AddHoldingsForTime (Some h1) s).2).1
     = (AddHoldingsForTime (Some h2) s).1
     /\ lookupIn (AddHoldingsForTime (Some h2) (AddHoldingsForTime (Some h1) s).2).2 k
        = lookupIn (AddHoldingsForTime (Some h2) s).2 k)
  /\ (forall (c1 c2 : Snapshot) (e1 e2 : EventT),
        tupleOf e1 = tupleOf e2 -> GetOffset e1 = GetOffset e2 ->
        (AddComplianceSnapshotForTime c2 (Some e2)
           (AddComplianceSnapshotForTime c1 (Some e1) s).2).1
        = (AddComplianceSnapshotForTime c2 (Some e2) s).1
        /\ lookupIn (AddComplianceSnapshotForTime c2 (Some e2)
                       (AddComplianceSnapshotForTime c1 (Some e1) s).2).2 k
           = lookupIn (AddComplianceSnapshotForTime c2 (Some e2) s).2 k)
  /\ (forall e1 e2 : EventT,
        tupleOf e1 = tupleOf e2 -> GetOffset e1 = GetOffset e2 -> kindOf e1 = kindOf e2 ->
        (SetEventForOffset (Some e2) (SetEventForOffset (Some e1) s).2).1
        = (SetEventForOffset (Some e2) s).1
        /\ lookupIn (SetEventForOffset (Some e2) (SetEventForOffset (Some e1) s).2).2 k
           = lookupIn (SetEventForOffset (Some e2) s).2 k).
Proof.
  split; [|split].
  - intros h1 h2 Htuple Hoffset. split.
    + rewrite !(fun s0 => proj1 (AddHoldingsForTime_outcome h2 s0)).
      apply enrichVerdict_ext; [apply AddHoldingsForTime_set|].
      rewrite AddHoldingsForTime_lookupIn. now apply fmap_setLatest_offsets.
    + rewrite !AddHoldingsForTime_lookupIn, Htuple, Hoffset.
      now apply fmap_setLatest_overwrite.
  - intros c1 c2 e1 e2 Htuple Hoffset. split.
    + rewrite !(fun s0 => proj1 (AddComplianceSnapshotForTime_outcome c2 e2 s0)).
      apply enrichVerdict_ext; [apply AddComplianceSnapshotForTime_set|].
      rewrite AddComplianceSnapshotForTime_lookupIn. now apply fmap_setLatest_offsets.
    + rewrite !AddComplianceSnapshotForTime_lookupIn, Htuple, Hoffset.
      now apply fmap_setLatest_overwrite.
  - intros e1 e2 Htuple Hoffset Hkind. split.
    + rewrite !(fun s0 => proj1 (SetEventForOffset_outcome e2 s0)).
      apply enrichVerdict_ext; [apply SetEventForOffset_set|].
      rewrite SetEventForOffset_lookupIn. apply fmap_setLatest_offsets_at.
      intros r. apply enrichWith_offset.
    + rewrite !SetEventForOffset_lookupIn, Htuple.
      rewrite <- Hoffset. apply fmap_setLatest_overwrite.
      * intros r. apply enrichWith_offset.
      * intros r. now apply enrichWith_overwrite.
Qed.

End StoreCoverage.

(** ** Best-performer selectors: further properties *)

Section SelectorCoverage.
Context {Pair : Type} `{!GoZero Pair}.

Local Abbreviation HolderT := (FinalResultsHolder Pair).

Implicit Types (results rs pre xs : list HolderT) (metric : HolderT -> decimal).

Lemma rangeBest_leftmost metric xs : forall pre j best,
  pre !! j = Some best ->
  ~ (metric best == 0)%Q ->
  Forall (fun r => ~ (metric r == 0)%Q) xs ->
  (forall r, r ∈ pre -> (metric r <= metric best)%Q) ->
  (forall i r, i < j -> pre !! i = Some r -> (metric r < metric best)%Q) ->
  leftmostMaximum metric (pre ++ xs)
    (rangeBest metric (pre ++ xs) xs (length pre) (ElementAt j)).
Proof.
  induction xs as [|c xs IH]; intros pre j best Hj Hnz Hall Hmax Hleft.
  - simpl. rewrite app_nil_r. now exists j, best.
  - cbn [rangeBest deref]. rewrite (lookup_app_l_Some _ _ _ _ Hj).
    cbn [default from_option id].
    apply IsZero_false in Hnz as Hz. rewrite Hz, orb_false_r.
    inversion Hall as [|? ? Hc Hxs]; subst.
    assert (Hlen : S (length pre) = length (pre ++ [c]))
      by (rewrite length_app; simpl; lia).
    rewrite (snoc_app pre c xs), Hlen.
    destruct (GreaterThan (metric c) (metric best)) eqn:Hgt.
    + apply GreaterThan_true in Hgt.
      apply (IH (pre ++ [c]) (length pre) c); [|exact Hc|exact Hxs| |].
      * now apply list_lookup_middle.
      * intros r [Hr|Hr%list_elem_of_singleton]%elem_of_app.
        -- apply Qlt_le_weak. eapply Qle_lt_trans; [now apply Hmax|exact Hgt].
        -- subst. apply Qle_refl.
      * intros i r Hi Hr. rewrite lookup_app_l in Hr by exact Hi.
        eapply Qle_lt_trans; [|exact Hgt]. apply Hmax.
        now apply list_elem_of_lookup_2 in Hr.
    + apply GreaterThan_false in Hgt.
      apply (IH (pre ++ [c]) j best); [|exact Hnz|exact Hxs| |].
      * now apply lookup_app_l_Some.
      * intros r [Hr|Hr%list_elem_of_singleton]%elem_of_app; [now apply Hmax|].
        now subst.
      * intros i r Hi Hr. apply (Hleft i r Hi).
        rewrite lookup_app_l in Hr; [exact Hr|].
        apply lookup_lt_Some in Hj. lia.
Qed.

Lemma rangeBest_leftmost_from_fresh metric rs :
  metric zeroValue = 0%Q ->
  rs <> [] ->
  Forall (fun r => ~ (metric r == 0)%Q) rs ->
  leftmostMaximum metric rs (rangeBest metric rs rs 0 FreshHolder).
Proof.
  intros Hzero Hne Hall. destruct rs as [|c xs]; [congruence|].
  cbn [rangeBest deref]. rewrite Hzero. cbn [IsZero Qeq_bool]. rewrite orb_true_r.
  inversion Hall as [|? ? Hc Hxs]; subst.
  apply (rangeBest_leftmost metric xs [c] 0 c eq_refl Hc Hxs).
  - intros r ->%list_elem_of_singleton. apply Qle_refl.
  - intros i r Hi. lia.
Qed.

(** X9.  On a run in which no tuple has a zero metric,
    [GetBestStrategyPerformer] returns the entry of greatest strategy
    movement and [GetTheBiggestDrawdownAcrossCurrencies] the entry of
    greatest drawdown percentage, the first one among equals; the metrics
    may be negative. *)
Theorem best_selectors_leftmost_maximum rs :
  rs <> [] ->
  (Forall (fun r => ~ (HolderStrategyMovement r == 0)%Q) rs ->
   leftmostMaximum HolderStrategyMovement rs (GetBestStrategyPerformer rs))
  /\ (Forall (fun r => ~ (drawdownOf r == 0)%Q) rs ->
      leftmostMaximum drawdownOf rs (GetTheBiggestDrawdownAcrossCurrencies rs)).
Proof.
  intros Hne. split; intros Hall; now apply rangeBest_leftmost_from_fresh.
Qed.

End SelectorCoverage.

(** ** Results aggregator: further properties *)

Section AggregatorCoverage.
Context {Pair : Type} `{Countable Pair} `{!GoZero Pair}.
Context {Holding Snapshot Report PairReader : Type}.

Local Abbreviation EventT := (Event Pair).
Local Abbreviation EventStoreT := (EventStore Pair Holding Snapshot).
Local Abbreviation CurrencyStatisticT := (CurrencyStatistic Pair Holding Snapshot).
Local Abbreviation HolderT := (FinalResultsHolder Pair).
Local Abbreviation StatisticT := (Statistic Pair Holding Snapshot Report).
Local Abbreviation FundingT := (IFundingManager Pair Report PairReader).
Local Abbreviation TupleT := (@Tuple Pair Holding Snapshot).
Local Abbreviation AggregationT := (@Aggregation Pair _ _ Holding Snapshot Report).
Local Abbreviation Key := (string * string * Pair)%type.

Variable CalculateResults : CurrencyStatisticT -> PairReader -> Calculated * option Error.

Implicit Types (s : StatisticT) (st : AggregationT) (stats c : CurrencyStatisticT).
Implicit Types (funds : FundingT) (order pre rest ts : list TupleT) (k : Key).

Lemma wrap64_add_l (x y : Z) : wrap64 (wrap64 x + y) = wrap64 (x + y).
Proof.
  unfold wrap64. set (h := (2 ^ 63)%Z). set (M := (2 ^ 64)%Z). f_equal.
  replace ((x + h) mod M - h + y + h)%Z with ((x + h) mod M + y)%Z by lia.
  rewrite Zplus_mod_idemp_l. f_equal. lia.
Qed.

Lemma wrap64_idem (x : Z) : wrap64 (wrap64 x) = wrap64 x.
Proof.
  transitivity (wrap64 (wrap64 x + 0)); [f_equal; lia|].
  rewrite wrap64_add_l. f_equal. lia.
Qed.

Lemma wrap64_add (x y : Z) : wrap64 (x + y) = wrap64 (wrap64 x + wrap64 y).
Proof.
  rewrite wrap64_add_l, (Z.add_comm x (wrap64 y)), wrap64_add_l. f_equal. lia.
Qed.

(** *** One iteration, and the loop *)

Lemma tupleStep_settled funds ex a p stats st :
  match settled CalculateResults funds stats with
  | Some c =>
    exists st',
      tupleStep CalculateResults funds ex a p stats st = Next st'
      /\ statistic st' = recordTuple (statistic st) ex a p c
      /\ currCount st' = (currCount st + 1)%Z
      /\ finalResults st' = finalResults st ++ [holderOf ex a p c]
  | None =>
    exists r,
      tupleStep CalculateResults funds ex a p stats st = Stop r (statistic st)
      /\ r <> Returns None
  end.
Proof.
  unfold settled, tupleStep. cbv zeta.
  destruct (lastRecord stats) as [last|]; simpl; [|eexists; split; [reflexivity|discriminate]].
  destruct (firstRecord stats) as [first|]; simpl;
    [|eexists; split; [reflexivity|discriminate]].
  destruct (DataEvent first) as [d0|]; simpl.
  2:{ destruct (DataEvent last); eexists; split; try reflexivity; discriminate. }
  destruct (DataEvent last) as [dl|]; simpl; [|eexists; split; [reflexivity|discriminate]].
  destruct (GetFundingForEvent funds _) as [err|f];
    [eexists; split; [reflexivity|discriminate]|].
  destruct (CalculateResults stats f) as [calculated e]. simpl.
  eexists. split; [reflexivity|]. simpl. auto.
Qed.

Lemma rangeTuples_settled funds order : forall st,
  match settleAll CalculateResults funds order with
  | Some ts =>
    exists st',
      rangeTuples CalculateResults funds order st = Next st'
      /\ statistic st' = recordAll (statistic st) ts
      /\ currCount st' = (currCount st + Z.of_nat (length order))%Z
      /\ finalResults st' = finalResults st ++ holdersOf ts
  | None =>
    exists r s0, rangeTuples CalculateResults funds order st = Stop r s0 /\ r <> Returns None
  end.
Proof.
  induction order as [|[[[ex a] p] stats] order IH]; intros st.
  - exists st. split; [reflexivity|]. split; [reflexivity|]. split.
    + cbn [length Z.of_nat]. lia.
    + unfold holdersOf. cbn [fmap list_fmap]. now rewrite app_nil_r.
  - cbn [settleAll rangeTuples].
    pose proof (tupleStep_settled funds ex a p stats st) as Hstep.
    destruct (settled CalculateResults funds stats) as [c|]; simpl.
    2:{ destruct Hstep as (r & -> & Hr). now exists r, (statistic st). }
    destruct Hstep as (st1 & -> & Hs1 & Hc1 & Hf1).
    specialize (IH st1).
    destruct (settleAll CalculateResults funds order) as [ts|]; simpl.
    2:{ exact IH. }
    destruct IH as (st' & -> & Hs' & Hc' & Hf').
    exists st'. split; [reflexivity|]. split; [|split].
    + rewrite Hs', Hs1. reflexivity.
    + rewrite Hc', Hc1. cbn [length]. lia.
    + rewrite Hf', Hf1. unfold holdersOf. simpl. now rewrite <- app_assoc.
Qed.

(** A run that returns nil has settled every tuple. *)
Lemma CalculateAllResults_Returns_None funds order s s' :
  CalculateAllResults CalculateResults funds order s = (Returns None, s') ->
  exists ts st,
    settleAll CalculateResults funds order = Some ts
    /\ s' = finish funds st
    /\ statistic st = recordAll s ts
    /\ currCount st = Z.of_nat (length order)
    /\ finalResults st = holdersOf ts.
Proof.
  unfold CalculateAllResults.
  pose proof (rangeTuples_settled funds order (enter s)) as Hrun.
  destruct (settleAll CalculateResults funds order) as [ts|].
  - destruct Hrun as (st & -> & Hs & Hc & Hf). intros [= <-].
    exists ts, st. repeat split; assumption.
  - destruct Hrun as (r & s0 & -> & Hr). intros [= -> _]. congruence.
Qed.

Lemma CalculateAllResults_settled funds order s ts :
  settleAll CalculateResults funds order = Some ts ->
  exists s', CalculateAllResults CalculateResults funds order s = (Returns None, s').
Proof.
  intros Hts. unfold CalculateAllResults.
  pose proof (rangeTuples_settled funds order (enter s)) as Hrun. rewrite Hts in Hrun.
  destruct Hrun as (st & -> & _). eauto.
Qed.

Lemma settleAll_length funds order ts :
  settleAll CalculateResults funds order = Some ts -> length ts = length order.
Proof.
  revert ts. induction order as [|[[[ex a] p] stats] order IH]; intros ts; simpl.
  - now intros [= <-].
  - destruct (settled _ _ _) as [c|]; simpl; [|discriminate].
    destruct (settleAll _ _ _) as [ts'|]; simpl; [|discriminate].
    intros [= <-]. simpl. f_equal. now apply IH.
Qed.

(** *** The fields after the loop *)

Lemma recordAll_snoc s ts (t : TupleT) :
  recordAll s (ts ++ [t]) = recordTuple (recordAll s ts) t.1.1.1 t.1.1.2 t.1.2 t.2.
Proof. unfold recordAll. now rewrite fold_left_app. Qed.

Lemma recordAll_fields s ts :
  StrategyName (recordAll s ts) = StrategyName s
  /\ AllStats (recordAll s ts) = AllStats s ++ (snd <$> ts)
  /\ wrap64 (TotalBuyOrders (recordAll s ts))
     = wrap64 (TotalBuyOrders s + totalOf BuyOrders ts)
  /\ wrap64 (TotalSellOrders (recordAll s ts))
     = wrap64 (TotalSellOrders s + totalOf SellOrders ts)
  /\ WasAnyDataMissing (recordAll s ts)
     = existsb (fun t : TupleT => ShowMissingDataWarning t.2) ts || WasAnyDataMissing s
  /\ TotalOrders (recordAll s ts) = TotalOrders s
  /\ Funding (recordAll s ts) = Funding s
  /\ BiggestDrawdown (recordAll s ts) = BiggestDrawdown s
  /\ BestMarketMovement (recordAll s ts) = BestMarketMovement s
  /\ BestStrategyResults (recordAll s ts) = BestStrategyResults s.
Proof.
  revert s. induction ts as [|t ts IH]; intros s.
  - unfold totalOf. simpl. rewrite app_nil_r, !Z.add_0_r. repeat split.
  - change (recordAll s (t :: ts))
      with (recordAll (recordTuple s t.1.1.1 t.1.1.2 t.1.2 t.2) ts).
    destruct (IH (recordTuple s t.1.1.1 t.1.1.2 t.1.2 t.2))
      as (H1 & H2 & H3 & H4 & H5 & H6 & H7 & H8 & H9 & H10).
    rewrite H1, H2, H3, H4, H5, H6, H7, H8, H9, H10. unfold totalOf. cbn.
    rewrite <- app_assoc, !wrap64_add_l.
    repeat split; try (f_equal; lia).
    destruct (ShowMissingDataWarning t.2); simpl; [now rewrite orb_true_r|reflexivity].
Qed.

(** *** Which runs return nil *)

Lemma index_elem {A} (l : list A) (i : Z) (x : A) : index l i = Some x -> x ∈ l.
Proof.
  unfold index. destruct (i <? 0)%Z; [discriminate|]. apply list_elem_of_lookup_2.
Qed.

Lemma tupleStep_outcome funds ex a p stats st :
  Events stats <> [] -> timelineOk (Events stats) ->
  match tupleStep CalculateResults funds ex a p stats st with
  | Next _ => exists f, fundingFor funds stats = Some (inr f)
  | Stop (Returns (Some err)) _ => fundingFor funds stats = Some (inl err)
  | Stop _ _ => False
  end.
Proof.
  intros Hne Hok. unfold tupleStep, fundingFor. cbv zeta.
  destruct (lastRecord_nonempty stats Hne) as [last Hl].
  destruct (firstRecord_nonempty stats Hne) as [first Hf]. rewrite Hl, Hf.
  unfold timelineOk in Hok. rewrite Forall_forall in Hok.
  destruct (Hok first (index_elem _ _ _ Hf)) as [d0 Hd0].
  destruct (Hok last (index_elem _ _ _ Hl)) as [dl Hdl].
  simpl. rewrite Hd0, !Hdl. simpl.
  destruct (GetFundingForEvent funds _) as [err|f]; [reflexivity|].
  destruct (CalculateResults stats f). eauto.
Qed.

Lemma rangeTuples_outcome funds order : forall st,
  Forall (fun t : TupleT => Events t.2 <> [] /\ timelineOk (Events t.2)) order ->
  match rangeTuples CalculateResults funds order st with
  | Next _ => Forall (fun t : TupleT => exists f, fundingFor funds t.2 = Some (inr f)) order
  | Stop (Returns (Some err)) _ =>
    exists pre (t : TupleT) rest,
      order = pre ++ t :: rest
      /\ Forall (fun t : TupleT => exists f, fundingFor funds t.2 = Some (inr f)) pre
      /\ fundingFor funds t.2 = Some (inl err)
  | Stop _ _ => False
  end.
Proof.
  induction order as [|[[[ex a] p] stats] order IH]; intros st Hall; [constructor|].
  inversion Hall as [|? ? [Hne Hok] Hrest]; subst. simpl in Hne, Hok.
  cbn [rangeTuples].
  pose proof (tupleStep_outcome funds ex a p stats st Hne Hok) as Hstep.
  destruct (tupleStep _ _ _ _ _ _ _) as [st1|[[err|]|kind] s0]; try contradiction.
  - specialize (IH st1 Hrest).
    destruct (rangeTuples _ _ _ _) as [st'|[[err|]|kind] s0]; try contradiction.
    + now constructor.
    + destruct IH as (pre & t & rest & -> & Hpre & Ht).
      exists ((ex, a, p, stats) :: pre), t, rest. split; [reflexivity|].
      split; [now constructor|exact Ht].
  - exists [], (ex, a, p, stats), order. split; [reflexivity|]. split; [constructor|exact Hstep].
Qed.

Lemma storeOk_tuples_ok s :
  storeOk s ->
  Forall (fun t : TupleT => Events t.2 <> [] /\ timelineOk (Events t.2)) (tuples s).
Proof.
  intros Hs. apply Forall_forall. intros [[[ex a] p] c] (m & Hm & Hc)%tuples_lookup.
  exact (Hs m ex a p c Hm Hc).
Qed.

(** X10.  On a store that keeps the invariant, [CalculateAllResults] never
    panics and returns no error of its own: it returns nil when the funding
    source serves every tuple, and otherwise the error the funding source
    gave for the first tuple, in the order of the run, that it did not
    serve. *)
Theorem CalculateAllResults_only_funding_errors funds order s :
  storeOk s -> Traversal s order ->
  match (CalculateAllResults CalculateResults funds order s).1 with
  | Returns None =>
    Forall (fun t : TupleT => exists f, fundingFor funds t.2 = Some (inr f)) order
  | Returns (Some err) =>
    exists pre (t : TupleT) rest,
      order = pre ++ t :: rest
      /\ Forall (fun t : TupleT => exists f, fundingFor funds t.2 = Some (inr f)) pre
      /\ fundingFor funds t.2 = Some (inl err)
  | Panics _ => False
  end.
Proof.
  intros Hs Htrav. apply storeOk_tuples_ok in Hs.
  unfold Traversal in Htrav. rewrite <- Htrav in Hs.
  pose proof (rangeTuples_outcome funds order (enter s) Hs) as Hrun.
  unfold CalculateAllResults.
  destruct (rangeTuples _ _ _ _) as [st'|[[err|]|kind] s0]; simpl; try contradiction;
    exact Hrun.
Qed.

(** X11.  A run of [CalculateAllResults] that returns nil has appended the
    settled statistic of every tuple to [AllStats], in the order of the run;
    has added the buy and the sell counts of the tuples to the two totals, in
    64-bit arithmetic; has set [TotalOrders] to the sum of the two totals;
    has raised [WasAnyDataMissing] if a tuple asked for the warning and never
    lowered it; has set the funding report and kept the strategy name. *)
Theorem CalculateAllResults_totals funds order s s' :
  CalculateAllResults CalculateResults funds order s = (Returns None, s') ->
  exists ts,
    settleAll CalculateResults funds order = Some ts
    /\ AllStats s' = AllStats s ++ (snd <$> ts)
    /\ wrap64 (TotalBuyOrders s') = wrap64 (TotalBuyOrders s + totalOf BuyOrders ts)
    /\ wrap64 (TotalSellOrders s') = wrap64 (TotalSellOrders s + totalOf SellOrders ts)
    /\ TotalOrders s' = wrap64 (TotalBuyOrders s' + TotalSellOrders s')
    /\ WasAnyDataMissing s'
       = existsb (fun t : TupleT => ShowMissingDataWarning t.2) ts || WasAnyDataMissing s
    /\ is_Some (Funding s')
    /\ StrategyName s' = StrategyName s.
Proof.
  intros (ts & st & Hts & -> & Hst & _ & _)%CalculateAllResults_Returns_None.
  exists ts. split; [exact Hts|].
  destruct (recordAll_fields s ts) as (H1 & H2 & H3 & H4 & H5 & _).
  cbn [finish AllStats TotalBuyOrders TotalSellOrders TotalOrders WasAnyDataMissing
       Funding StrategyName].
  rewrite Hst. repeat split; try assumption. eauto.
Qed.

Lemma settleAll_Permutation funds order order' ts :
  order ≡ₚ order' ->
  settleAll CalculateResults funds order = Some ts ->
  exists ts', settleAll CalculateResults funds order' = Some ts' /\ ts ≡ₚ ts'.
Proof.
  intros Hperm. revert ts.
  induction Hperm as [|[[[ex a] p] stats] l l' _ IH
                      |[[[ex a] p] stats] [[[ex' a'] p'] stats'] l
                      |l l' l'' _ IH1 _ IH2]; intros ts; simpl.
  - intros [= <-]. now exists [].
  - destruct (settled _ _ _) as [c|]; simpl; [|discriminate].
    destruct (settleAll _ _ l) as [ts0|]; simpl; [|discriminate].
    intros [= <-]. destruct (IH ts0 eq_refl) as (ts' & -> & Hp). simpl.
    eexists. split; [reflexivity|]. now constructor.
  - destruct (settled _ _ stats') as [c'|]; simpl; [|discriminate].
    destruct (settled _ _ stats) as [c|]; simpl; [|discriminate].
    destruct (settleAll _ _ l) as [ts0|]; simpl; [|discriminate].
    intros [= <-]. eexists. split; [reflexivity|]. constructor.
  - intros Hts. destruct (IH1 ts Hts) as (ts1 & Hts1 & Hp1).
    destruct (IH2 ts1 Hts1) as (ts2 & Hts2 & Hp2).
    exists ts2. split; [exact Hts2|]. now transitivity ts1.
Qed.

Lemma totalOf_Permutation (count : CurrencyStatisticT -> Z) ts ts' :
  ts ≡ₚ ts' -> totalOf count ts = totalOf count ts'.
Proof.
  intros Hperm. unfold totalOf.
  induction Hperm as [|t l l' _ IH|t t' l|l l' l'' _ IH1 _ IH2];
    cbn [fmap list_fmap foldr] in *; lia.
Qed.

Lemma existsb_Permutation {A} (f : A -> bool) (l l' : list A) :
  l ≡ₚ l' -> existsb f l = existsb f l'.
Proof.
  intros Hperm.
  induction Hperm as [|t l l' _ IH|t t' l|l l' l'' _ IH1 _ IH2]; simpl.
  - reflexivity.
  - now rewrite IH.
  - now destruct (f t), (f t').
  - congruence.
Qed.

(** X12.  Go leaves the order of the iteration over the map open; the
    totals do not depend on it.  If a run returns nil, the run in any other
    order of the same tuples returns nil as well, with the same order
    totals, the same missing-data flag and the same statistics in
    [AllStats], possibly in another order. *)
Theorem CalculateAllResults_totals_any_order funds order order' s s' :
  order ≡ₚ order' ->
  CalculateAllResults CalculateResults funds order s = (Returns None, s') ->
  exists s'',
    CalculateAllResults CalculateResults funds order' s = (Returns None, s'')
    /\ wrap64 (TotalBuyOrders s'') = wrap64 (TotalBuyOrders s')
    /\ wrap64 (TotalSellOrders s'') = wrap64 (TotalSellOrders s')
    /\ TotalOrders s'' = TotalOrders s'
    /\ WasAnyDataMissing s'' = WasAnyDataMissing s'
    /\ AllStats s'' ≡ₚ AllStats s'.
Proof.
  intros Hperm Hrun.
  destruct (CalculateAllResults_Returns_None _ _ _ _ Hrun)
    as (ts & st & Hts & -> & Hst & _ & _).
  destruct (settleAll_Permutation funds order order' ts Hperm Hts) as (ts' & Hts' & Hp).
  destruct (CalculateAllResults_settled funds order' s ts' Hts') as (s'' & Hrun').
  exists s''. split; [exact Hrun'|].
  destruct (CalculateAllResults_Returns_None _ _ _ _ Hrun')
    as (ts2 & st' & Hts2 & -> & Hst' & _ & _).
  assert (ts2 = ts') as -> by congruence.
  destruct (recordAll_fields s ts) as (_ & A1 & B1 & S1 & W1 & _).
  destruct (recordAll_fields s ts') as (_ & A2 & B2 & S2 & W2 & _).
  cbn [finish AllStats TotalBuyOrders TotalSellOrders TotalOrders WasAnyDataMissing].
  rewrite Hst, Hst'.
  assert (HB : wrap64 (TotalBuyOrders (recordAll s ts'))
               = wrap64 (TotalBuyOrders (recordAll s ts)))
    by (rewrite B1, B2; now rewrite (totalOf_Permutation BuyOrders ts ts' Hp)).
  assert (HS : wrap64 (TotalSellOrders (recordAll s ts'))
               = wrap64 (TotalSellOrders (recordAll s ts)))
    by (rewrite S1, S2; now rewrite (totalOf_Permutation SellOrders ts ts' Hp)).
  split; [exact HB|]. split; [exact HS|]. split; [|split].
  - rewrite (wrap64_add (TotalBuyOrders (recordAll s ts'))),
      (wrap64_add (TotalBuyOrders (recordAll s ts))). now rewrite HB, HS.
  - rewrite W1, W2. f_equal. symmetry. now apply existsb_Permutation.
  - rewrite A1, A2. apply Permutation_app_head. symmetry. now apply fmap_Permutation.
Qed.

(** *** The timelines *)

Lemma lookupIn_recordTuple s ex a p c k :
  lookupIn (recordTuple s ex a p c) k
  = if decide (k = (ex, a, p))
    then ExchangeAssetPairStatistics s ≫= (fun _ => Some c)
    else lookupIn s k.
Proof.
  unfold lookupIn, recordTuple. cbn [ExchangeAssetPairStatistics].
  destruct (ExchangeAssetPairStatistics s) as [m|]; simpl; [|now destruct (decide _)].
  destruct k as [[ex' a'] p']. simpl.
  destruct (decide _) as [[= -> -> ->]|Hne].
  - apply lookupStats_storeStats.
  - now apply lookupStats_storeStats_ne.
Qed.

Lemma tupleStep_timelines funds ex a p stats st s :
  lookupIn s (ex, a, p) = Some stats ->
  (forall k, Events <$> lookupIn (statistic st) k = Events <$> lookupIn s k) ->
  match tupleStep CalculateResults funds ex a p stats st with
  | Next st' => forall k, Events <$> lookupIn (statistic st') k = Events <$> lookupIn s k
  | Stop _ s0 => forall k, Events <$> lookupIn s0 k = Events <$> lookupIn s k
  end.
Proof.
  intros Hstats Hinv.
  pose proof (tupleStep_settled funds ex a p stats st) as Hstep.
  destruct (settled CalculateResults funds stats) as [c|] eqn:Hc.
  - destruct Hstep as (st' & -> & -> & _). intros k.
    rewrite lookupIn_recordTuple. destruct (decide _) as [->|]; [|apply Hinv].
    specialize (Hinv (ex, a, p)). rewrite Hstats in *.
    assert (Hev : Events c = Events stats).
    { unfold settled in Hc.
      destruct (lastRecord stats) as [last|]; simpl in Hc; [|discriminate].
      destruct (firstRecord stats) as [first|]; simpl in Hc; [|discriminate].
      destruct (DataEvent first); simpl in Hc; [|discriminate].
      destruct (DataEvent last); simpl in Hc; [|discriminate].
      destruct (GetFundingForEvent _ _); [discriminate|]. now injection Hc as <-. }
    unfold lookupIn in Hinv.
    destruct (ExchangeAssetPairStatistics (statistic st)); simpl in *; [|discriminate].
    now rewrite Hev.
  - destruct Hstep as (r & -> & _). exact Hinv.
Qed.

Lemma rangeTuples_timelines funds order s : forall st,
  (forall t : TupleT, t ∈ order -> lookupIn s t.1 = Some t.2) ->
  (forall k, Events <$> lookupIn (statistic st) k = Events <$> lookupIn s k) ->
  match rangeTuples CalculateResults funds order st with
  | Next st' => forall k, Events <$> lookupIn (statistic st') k = Events <$> lookupIn s k
  | Stop _ s0 => forall k, Events <$> lookupIn s0 k = Events <$> lookupIn s k
  end.
Proof.
  induction order as [|[[[ex a] p] stats] order IH]; intros st Hall Hinv; [exact Hinv|].
  cbn [rangeTuples].
  pose proof (tupleStep_timelines funds ex a p stats st s
                (Hall (ex, a, p, stats) ltac:(left)) Hinv) as Hstep.
  destruct (tupleStep _ _ _ _ _ _ _) as [st1|r s0]; [|exact Hstep].
  apply IH; [|exact Hstep]. intros t Ht. apply Hall. now right.
Qed.

(** X13.  [CalculateAllResults] reads the timelines and does not touch
    them: whatever it returns, and wherever it leaves the loop, every tuple
    of the store has the records it had, and no tuple was added or
    dropped. *)
Theorem CalculateAllResults_keeps_timelines funds order s k :
  Traversal s order ->
  Events <$> lookupIn (CalculateAllResults CalculateResults funds order s).2 k
  = Events <$> lookupIn s k.
Proof.
  intros Htrav. unfold CalculateAllResults.
  assert (Hall : forall t : TupleT, t ∈ order -> lookupIn s t.1 = Some t.2).
  { intros [[[ex a] p] c] Ht. unfold Traversal in Htrav. rewrite Htrav in Ht.
    apply tuples_lookup in Ht as (m & Hm & Hc). unfold lookupIn. now rewrite Hm. }
  pose proof (rangeTuples_timelines funds order s (enter s) Hall (fun _ => eq_refl)) as Hrun.
  destruct (rangeTuples _ _ _ _) as [st|r s0]; cbn [snd]; [|apply Hrun].
  exact (Hrun k).
Qed.

(** *** The summaries across tuples *)

(** X14.  The three summaries across tuples are written only by a run
    over more than one tuple: a run over one tuple, or none, that returns nil
    leaves [BiggestDrawdown], [BestMarketMovement] and [BestStrategyResults]
    as they were before the call.  A run over more than one tuple sets
    [BestMarketMovement] to the entry of the tuple it visited first, whatever
    the market movements are, and the two others to the entries the running
    best of the selectors ends with. *)
Theorem CalculateAllResults_summaries funds order s s' :
  CalculateAllResults CalculateResults funds order s = (Returns None, s') ->
  exists ts,
    settleAll CalculateResults funds order = Some ts
    /\ (length order <= 1 ->
        BiggestDrawdown s' = BiggestDrawdown s
        /\ BestMarketMovement s' = BestMarketMovement s
        /\ BestStrategyResults s' = BestStrategyResults s)
    /\ (1 < length order ->
        BestMarketMovement s' = head (holdersOf ts)
        /\ BestStrategyResults s' = Some (runningBest HolderStrategyMovement (holdersOf ts))
        /\ BiggestDrawdown s' = Some (runningBest drawdownOf (holdersOf ts))).
Proof.
  intros (ts & st & Hts & -> & Hst & Hcount & Hholders)%CalculateAllResults_Returns_None.
  exists ts. split; [exact Hts|].
  destruct (recordAll_fields s ts) as (_ & _ & _ & _ & _ & _ & _ & D & M & S).
  cbn [finish BiggestDrawdown BestMarketMovement BestStrategyResults].
  rewrite Hcount, Hholders, Hst, D, M, S. split.
  - intros Hle. destruct (Z.ltb_spec 1 (Z.of_nat (length order))) as [Hlt|_]; [lia|].
    now repeat split.
  - intros Hgt. destruct (Z.ltb_spec 1 (Z.of_nat (length order))) as [_|Hge]; [|lia].
    assert (Hbest : forall metric : HolderT -> decimal,
              deref (holdersOf ts) (rangeBest metric (holdersOf ts) (holdersOf ts) 0 FreshHolder)
              = runningBest metric (holdersOf ts))
      by (intros metric;
          exact (proj2 (rangeBest_runningBest metric (holdersOf ts) [] FreshHolder 0 eq_refl I))).
    split; [|split].
    + pose proof (settleAll_length funds order ts Hts) as Hlen.
      unfold holdersOf. destruct ts as [|t ts]; [simpl in Hlen; lia|].
      cbn [fmap list_fmap head]. now rewrite GetBestMarketPerformer_first.
    + unfold GetBestStrategyPerformer. now rewrite Hbest.
    + unfold GetTheBiggestDrawdownAcrossCurrencies. now rewrite Hbest.
Qed.

End AggregatorCoverage.

(** ** The chronological audit log *)

Lemma notAfter_le (b1 b2 : eventOutputHolder) :
  notAfter b1 b2 <-> (OutputTime b1 <= OutputTime b2)%Z.
Proof. unfold notAfter, outputBefore. apply Z.ltb_ge. Qed.

#[global] Instance notAfter_Transitive : Transitive notAfter.
Proof. intros b1 b2 b3. rewrite !notAfter_le. lia. Qed.

#[global] Instance notAfter_Total : Total notAfter.
Proof. intros b1 b2. rewrite !notAfter_le. lia. Qed.

Section Buckets.

Implicit Types (events results : list eventOutputHolder) (t u : Time) (message : string).
Implicit Types (es : list (Time * string)) (b : eventOutputHolder).

Lemma addEventOutputToTime_times events t message :
  OutputTime <$> addEventOutputToTime events t message
  = if decide (t ∈ OutputTime <$> events) then OutputTime <$> events
    else (OutputTime <$> events) ++ [t].
Proof.
  induction events as [|e rest IH].
  - reflexivity.
  - cbn [addEventOutputToTime]. unfold timeEqual.
    destruct (Z.eqb_spec (OutputTime e) t) as [Heq|Hne]; rewrite !fmap_cons.
    + cbn [withMessage OutputTime].
      clear IH. case_decide as Hnot; [reflexivity|]. exfalso. apply Hnot. rewrite Heq. left.
    + rewrite IH. clear IH. destruct (decide (t ∈ OutputTime <$> rest)) as [Hin|Hnot].
      * case_decide as Hnot'; [reflexivity|]. exfalso. apply Hnot'. now right.
      * case_decide as Hin'; [|reflexivity].
        apply elem_of_cons in Hin' as [->|Hin']; [congruence|contradiction].
Qed.

Lemma addEventOutputToTime_NoDup events t message :
  NoDup (OutputTime <$> events) ->
  NoDup (OutputTime <$> addEventOutputToTime events t message).
Proof.
  intros Hnd. rewrite addEventOutputToTime_times.
  case_decide as Hnot; [exact Hnd|].
  apply NoDup_app. split; [exact Hnd|]. split; [|apply NoDup_singleton].
  intros x Hx ->%list_elem_of_singleton. contradiction.
Qed.

Lemma filter_time_absent events u :
  u ∉ OutputTime <$> events -> filter (fun b => OutputTime b = u) events = [].
Proof.
  induction events as [|e rest IH]; [reflexivity|]. rewrite fmap_cons. intros Hnot.
  rewrite filter_cons. case_decide as Heq.
  - exfalso. apply Hnot. rewrite Heq. left.
  - apply IH. intros Hin. apply Hnot. now right.
Qed.

Lemma addEventOutputToTime_messagesAt events t message u :
  NoDup (OutputTime <$> events) ->
  messagesAt u (addEventOutputToTime events t message)
  = messagesAt u events ++ (if decide (t = u) then [message] else []).
Proof.
  unfold messagesAt. induction events as [|e rest IH]; intros Hnd.
  - cbn [addEventOutputToTime]. rewrite filter_cons, filter_nil. cbn [OutputTime].
    case_decide; reflexivity.
  - rewrite fmap_cons in Hnd. apply NoDup_cons in Hnd as [Hnot Hnd].
    cbn [addEventOutputToTime].
    unfold timeEqual. destruct (Z.eqb_spec (OutputTime e) t) as [Heq|Hne].
    + rewrite !filter_cons. cbn [withMessage OutputTime]. subst t.
      destruct (decide (OutputTime e = u)) as [Hu|Hu].
      * rewrite Hu in Hnot. rewrite (filter_time_absent rest u Hnot).
        rewrite !fmap_cons, fmap_nil. cbn [concat OutputEvents]. now rewrite !app_nil_r.
      * now rewrite app_nil_r.
    + rewrite !filter_cons. destruct (decide (OutputTime e = u)) as [Hu|Hu].
      * rewrite !fmap_cons. cbn [concat]. rewrite (IH Hnd). now rewrite app_assoc.
      * exact (IH Hnd).
Qed.

Lemma bucket_messagesAt events b :
  NoDup (OutputTime <$> events) -> b ∈ events ->
  messagesAt (OutputTime b) events = OutputEvents b.
Proof.
  unfold messagesAt. induction events as [|e rest IH]; intros Hnd Hin; [inversion Hin|].
  rewrite fmap_cons in Hnd. apply NoDup_cons in Hnd as [Hnot Hnd].
  rewrite filter_cons. apply elem_of_cons in Hin as [->|Hin].
  - case_decide as Hne; [|congruence].
    rewrite (filter_time_absent rest _ Hnot). rewrite fmap_cons, fmap_nil.
    cbn [concat]. apply app_nil_r.
  - case_decide as Heq; [|now apply IH].
    exfalso. apply Hnot. rewrite Heq. apply list_elem_of_fmap. now exists b.
Qed.

Lemma fmap_NoDup_inj {A B} (f : A -> B) (l : list A) (x y : A) :
  NoDup (f <$> l) -> x ∈ l -> y ∈ l -> f x = f y -> x = y.
Proof.
  induction l as [|z l IH]; intros Hnd Hx Hy Heq; [inversion Hx|].
  rewrite fmap_cons in Hnd. apply NoDup_cons in Hnd as [Hnot Hnd].
  apply elem_of_cons in Hx as [->|Hx]; apply elem_of_cons in Hy as [->|Hy].
  - reflexivity.
  - exfalso. apply Hnot. rewrite Heq. apply list_elem_of_fmap. now exists y.
  - exfalso. apply Hnot. rewrite <- Heq. apply list_elem_of_fmap. now exists x.
  - now apply IH.
Qed.

(** A slice of holders of distinct instants has one sorted arrangement. *)
Lemma sorted_arrangement_unique results (l : list eventOutputHolder) :
  NoDup (OutputTime <$> results) ->
  l ≡ₚ results -> Sorted notAfter l -> l = sortSlice results.
Proof.
  intros Hnd Hperm Hsorted.
  apply (sorting.Sorted_unique_strong notAfter).
  - intros x1 x2 Hx1 Hx2 H12 H21. apply (fmap_NoDup_inj OutputTime results).
    + exact Hnd.
    + now rewrite <- Hperm.
    + unfold sortSlice in Hx2. now rewrite sorting.merge_sort_Permutation in Hx2.
    + apply notAfter_le in H12, H21. lia.
  - exact Hsorted.
  - apply sorting.Sorted_merge_sort. apply _.
  - unfold sortSlice. now rewrite sorting.merge_sort_Permutation.
Qed.

Lemma bucketsOf_snoc es (e : Time * string) :
  bucketsOf (es ++ [e]) = addEventOutputToTime (bucketsOf es) e.1 e.2.
Proof. unfold bucketsOf. now rewrite fold_left_app. Qed.

Lemma linesAt_snoc es (e : Time * string) u :
  linesAt u (es ++ [e]) = linesAt u es ++ (if decide (e.1 = u) then [e.2] else []).
Proof.
  unfold linesAt. rewrite filter_app, fmap_app. f_equal.
  rewrite filter_cons, filter_nil. now case_decide.
Qed.

Lemma bucketsOf_spec es :
  NoDup (OutputTime <$> bucketsOf es)
  /\ (forall u, messagesAt u (bucketsOf es) = linesAt u es)
  /\ (forall u, u ∈ OutputTime <$> bucketsOf es <-> u ∈ fst <$> es).
Proof.
  induction es as [|e es (Hnd & Hmsg & Htimes)] using rev_ind.
  - split; [constructor|]. split; [reflexivity|]. intros u. reflexivity.
  - rewrite bucketsOf_snoc. split; [now apply addEventOutputToTime_NoDup|]. split.
    + intros u. rewrite addEventOutputToTime_messagesAt by exact Hnd.
      now rewrite Hmsg, linesAt_snoc.
    + intros u. rewrite addEventOutputToTime_times, fmap_app, elem_of_app.
      rewrite fmap_cons, fmap_nil, list_elem_of_singleton.
      case_decide as Hin.
      * rewrite Htimes. split; [tauto|]. intros [Hu| ->]; [exact Hu|].
        now apply Htimes.
      * rewrite elem_of_app, list_elem_of_singleton, Htimes. tauto.
Qed.

Lemma bucketsOf_eta es b :
  b ∈ bucketsOf es ->
  b = {| OutputTime := OutputTime b; OutputEvents := linesAt (OutputTime b) es |}.
Proof.
  intros Hin. destruct (bucketsOf_spec es) as (Hnd & Hmsg & _).
  rewrite <- Hmsg, (bucket_messagesAt _ b Hnd Hin). now destruct b.
Qed.

Lemma sortSlice_bucketsOf es :
  sortSlice (bucketsOf es)
  = (fun u => {| OutputTime := u; OutputEvents := linesAt u es |})
      <$> sorting.merge_sort Z.le (remove_dups (fst <$> es)).
Proof.
  destruct (bucketsOf_spec es) as (Hnd & Hmsg & Htimes).
  symmetry. apply sorted_arrangement_unique; [exact Hnd| |].
  - rewrite sorting.merge_sort_Permutation.
    transitivity ((fun u => {| OutputTime := u; OutputEvents := linesAt u es |})
                    <$> (OutputTime <$> bucketsOf es)).
    + apply fmap_Permutation. apply NoDup_Permutation.
      * apply NoDup_remove_dups.
      * exact Hnd.
      * intros u. now rewrite elem_of_remove_dups, Htimes.
    + rewrite <- list_fmap_compose.
      rewrite <- (list_fmap_id (bucketsOf es)) at 2.
      apply Permutation_refl'. apply list_fmap_ext.
      intros i b Hb. simpl. symmetry. apply bucketsOf_eta.
      now apply list_elem_of_lookup_2 in Hb.
  - apply sorting.Sorted_fmap with (R1 := Z.le).
    + intros x y Hxy. now apply notAfter_le.
    + apply sorting.Sorted_merge_sort. apply _.
Qed.

(** X15.  [addEventOutputToTime] keeps one holder for each instant: on
    holders of distinct instants it yields holders of distinct instants,
    the new instant last if it had no holder; the message goes to the end
    of the messages of its instant, and the messages of every other instant
    stay as they were. *)
Theorem addEventOutputToTime_one_holder events t message :
  NoDup (OutputTime <$> events) ->
  NoDup (OutputTime <$> addEventOutputToTime events t message)
  /\ OutputTime <$> addEventOutputToTime events t message
     = (if decide (t ∈ OutputTime <$> events) then OutputTime <$> events
        else (OutputTime <$> events) ++ [t])
  /\ forall u,
       messagesAt u (addEventOutputToTime events t message)
       = messagesAt u events ++ (if decide (t = u) then [message] else []).
Proof.
  intros Hnd. split; [now apply addEventOutputToTime_NoDup|].
  split; [apply addEventOutputToTime_times|].
  intros u. now apply addEventOutputToTime_messagesAt.
Qed.

End Buckets.

Section AuditCoverage.
Context {Pair : Type} `{Countable Pair}.
Context {Holding Snapshot : Type}.

Local Abbreviation EventT := (Event Pair).
Local Abbreviation EventStoreT := (EventStore Pair Holding Snapshot).
Local Abbreviation TupleT := (@Tuple Pair Holding Snapshot).

Variable GetDirection : EventT -> string.
Variables CouldNotBuy CouldNotSell DoNothing MissingData TransferredFunds : string.
Variables fillNote fillLine signalLine dataLine : EventT -> string.
Variable unexpectedData : string -> string -> Pair -> EventStoreT -> string.

Local Abbreviation render :=
  (renderRecord GetDirection CouldNotBuy CouldNotSell DoNothing MissingData
     TransferredFunds fillNote fillLine signalLine dataLine unexpectedData).
Local Abbreviation printRecordOf :=
  (printRecord GetDirection CouldNotBuy CouldNotSell DoNothing MissingData
     TransferredFunds fillNote fillLine signalLine dataLine unexpectedData).
Local Abbreviation printTimelineOf :=
  (printTimeline GetDirection CouldNotBuy CouldNotSell DoNothing MissingData
     TransferredFunds fillNote fillLine signalLine dataLine unexpectedData).
Local Abbreviation printTuplesOf :=
  (printTuples GetDirection CouldNotBuy CouldNotSell DoNothing MissingData
     TransferredFunds fillNote fillLine signalLine dataLine unexpectedData).
Local Abbreviation PrintAllEventsChronologicallyOf :=
  (PrintAllEventsChronologically GetDirection CouldNotBuy CouldNotSell DoNothing MissingData
     TransferredFunds fillNote fillLine signalLine dataLine unexpectedData).

Implicit Types (order : list TupleT) (rs : list EventStoreT).
Implicit Types (results : list eventOutputHolder) (errs : list string).
Implicit Types (xs : list (Time * string + string)) (es : list (Time * string)).

Lemma linesOf_app xs xs' : linesOf (xs ++ xs') = linesOf xs ++ linesOf xs'.
Proof. apply omap_app. Qed.

Lemma errorsOf_app xs xs' : errorsOf (xs ++ xs') = errorsOf xs ++ errorsOf xs'.
Proof. apply omap_app. Qed.

Lemma printRecords_spec exch a (p : Pair) rs : forall results errs,
  fold_left (fun acc r => printRecordOf exch a p r acc) rs (results, errs)
  = (fold_left (fun acc (e : Time * string) => addEventOutputToTime acc e.1 e.2)
       (linesOf (render exch a p <$> rs)) results,
     errs ++ errorsOf (render exch a p <$> rs)).
Proof.
  induction rs as [|r rs IH]; intros results errs.
  - cbn. now rewrite app_nil_r.
  - rewrite fmap_cons. cbn [fold_left printRecord].
    destruct (render exch a p r) as [[t message]|e]; rewrite IH.
    + reflexivity.
    + cbn [linesOf errorsOf omap list_omap]. now rewrite <- app_assoc.
Qed.

Lemma printTimelines_spec order : forall results errs,
  fold_left (fun acc t => printTimelineOf t acc) order (results, errs)
  = (fold_left (fun acc (e : Time * string) => addEventOutputToTime acc e.1 e.2)
       (linesOf (rendered render order)) results,
     errs ++ errorsOf (rendered render order)).
Proof.
  induction order as [|[[[exch a] p] c] order IH]; intros results errs.
  - cbn. now rewrite app_nil_r.
  - cbn [fold_left printTimeline]. rewrite printRecords_spec, IH.
    unfold rendered. rewrite bind_cons. cbn [fst snd].
    now rewrite linesOf_app, errorsOf_app, fold_left_app, app_assoc.
Qed.

Lemma printTuples_spec order :
  printTuplesOf order
  = (bucketsOf (linesOf (rendered render order)), errorsOf (rendered render order)).
Proof. unfold printTuples. now rewrite printTimelines_spec. Qed.

(** X16.  [sort.Slice] is not stable, and Go fixes no algorithm for it.
    For the holders [PrintAllEventsChronologically] collects this leaves
    nothing open: their instants are distinct, so every arrangement of them
    in which no holder comes before one of an earlier instant is the
    slice the merge sort of the embedding computes. *)
Theorem sortSlice_determined order (l : list eventOutputHolder) :
  l ≡ₚ (printTuplesOf order).1 ->
  Sorted notAfter l ->
  l = sortSlice (printTuplesOf order).1.
Proof.
  rewrite printTuples_spec. cbn [fst]. intros Hperm Hsorted.
  apply sorted_arrangement_unique; [|exact Hperm|exact Hsorted].
  apply bucketsOf_spec.
Qed.

(** X17.  [PrintAllEventsChronologically] logs the header, then, for each
    instant at which a record gave a line, in ascending order of the
    instants, the lines of that instant in the order in which the run over
    the store met their records; then, if a record held no event at all,
    the error header and one error for each such record. *)
Theorem PrintAllEventsChronologically_by_instant order :
  PrintAllEventsChronologicallyOf order
  = eventsHeader :: chronological (linesOf (rendered render order))
    ++ match errorsOf (rendered render order) with
       | [] => []
       | _ :: _ => errorsHeader :: errorsOf (rendered render order)
       end.
Proof.
  unfold PrintAllEventsChronologically. rewrite printTuples_spec, sortSlice_bucketsOf.
  unfold chronological. rewrite <- list_fmap_compose. reflexivity.
Qed.

Lemma linesAt_cons (e : Time * string) es u :
  linesAt u (e :: es) = if decide (e.1 = u) then e.2 :: linesAt u es else linesAt u es.
Proof. unfold linesAt. rewrite filter_cons. now case_decide. Qed.

Lemma concat_linesAt_cons (e : Time * string) es (ts : list Time) :
  NoDup ts -> e.1 ∈ ts ->
  concat ((fun u => linesAt u (e :: es)) <$> ts)
  ≡ₚ e.2 :: concat ((fun u => linesAt u es) <$> ts).
Proof.
  induction ts as [|u ts IH]; intros Hnd Hin; [inversion Hin|].
  apply NoDup_cons in Hnd as [Hnot Hnd]. rewrite !fmap_cons. cbn [concat].
  rewrite linesAt_cons. destruct (decide (e.1 = u)) as [Heq|Hne].
  - subst u. cbn [app]. constructor. apply Permutation_refl'. f_equal. f_equal.
    apply list_fmap_ext. intros i u Hu. rewrite linesAt_cons.
    destruct (decide (e.1 = u)) as [Heq|_]; [|reflexivity].
    exfalso. apply Hnot. rewrite Heq. now apply list_elem_of_lookup_2 in Hu.
  - apply elem_of_cons in Hin as [Heq|Hin]; [congruence|].
    rewrite (IH Hnd Hin). symmetry. apply Permutation_middle.
Qed.

Lemma concat_linesAt es (ts : list Time) :
  NoDup ts -> (forall e, e ∈ es -> e.1 ∈ ts) ->
  concat ((fun u => linesAt u es) <$> ts) ≡ₚ snd <$> es.
Proof.
  intros Hnd. induction es as [|e es IH]; intros Hall.
  - apply Permutation_refl'. clear. induction ts as [|u ts IH]; [reflexivity|].
    rewrite fmap_cons. cbn [concat]. now rewrite IH.
  - rewrite concat_linesAt_cons; [|exact Hnd|apply Hall; left].
    rewrite fmap_cons. constructor. apply IH. intros e' He'. apply Hall. now right.
Qed.

Lemma chronological_Permutation es : chronological es ≡ₚ snd <$> es.
Proof.
  unfold chronological. apply concat_linesAt.
  - rewrite sorting.merge_sort_Permutation. apply NoDup_remove_dups.
  - intros e He. rewrite sorting.merge_sort_Permutation, elem_of_remove_dups.
    apply list_elem_of_fmap. now exists e.
Qed.

Lemma lines_and_errors_length xs : length (linesOf xs) + length (errorsOf xs) = length xs.
Proof.
  unfold linesOf, errorsOf. induction xs as [|[e|e] xs IH]; [reflexivity| |]; simpl.
  - f_equal. exact IH.
  - rewrite Nat.add_succ_r. f_equal. exact IH.
Qed.

Lemma rendered_length order : length (rendered render order) = length (recordsOf order).
Proof.
  unfold rendered, recordsOf. induction order as [|t order IH]; [reflexivity|].
  rewrite !bind_cons, !length_app, length_fmap. now rewrite IH.
Qed.

(** X18.  The audit log loses and repeats nothing: between the header
    and the errors stand the lines the records gave, each once, in some
    order; and every record of the store gave one line or one error. *)
Theorem PrintAllEventsChronologically_complete order :
  exists lines,
    PrintAllEventsChronologicallyOf order
    = eventsHeader :: lines
      ++ match errorsOf (rendered render order) with
         | [] => []
         | _ :: _ => errorsHeader :: errorsOf (rendered render order)
         end
    /\ lines ≡ₚ snd <$> linesOf (rendered render order)
    /\ length lines + length (errorsOf (rendered render order)) = length (recordsOf order).
Proof.
  exists (chronological (linesOf (rendered render order))).
  split.
  { unfold PrintAllEventsChronologically. rewrite printTuples_spec, sortSlice_bucketsOf.
    unfold chronological. rewrite <- list_fmap_compose. reflexivity. }
  split; [apply chronological_Permutation|].
  rewrite (Permutation_length (chronological_Permutation _)), length_fmap.
  now rewrite lines_and_errors_length, rendered_length.
Qed.

End AuditCoverage.

(** ** Strategy base: the signal and the store *)

Section BaseCoverage.
Context {Pair : Type} `{Countable Pair} `{!GoZero Pair} `{!PairEqual Pair}.
Context {Holding Snapshot Report : Type}.
Context `{!GoZero Holding} `{!GoZero Snapshot}.

Local Abbreviation EventT := (Event Pair).
Local Abbreviation StatisticT := (Statistic Pair Holding Snapshot Report).

Local Abbreviation SignalT := (@base.Signal Pair).
Local Abbreviation HandlerT := (@base.Handler Pair).

Implicit Types (s : StatisticT) (g : SignalT).

Lemma GetBaseData_Some (d : HandlerT) g :
  base.GetBaseData (Some d) = (g, None) ->
  exists latest,
    base.Latest d = Some latest /\ base.readsBase g (base.dataEvent latest)
    /\ base.ClosePrice g = base.closePrice latest
    /\ base.HighPrice g = base.highPrice latest
    /\ base.OpenPrice g = base.openPrice latest
    /\ base.LowPrice g = base.lowPrice latest.
Proof.
  unfold base.GetBaseData. destruct (base.Latest d) as [latest|]; [|discriminate].
  intros [= <-]. exists latest. now repeat split.
Qed.


End BaseCoverage.

(** ** Reset *)

Section ResetCoverage.
Context {Pair : Type} `{Countable Pair} `{!GoZero Pair} `{!PairEqual Pair}.
Context {Holding Snapshot Report PairReader : Type}.
Context `{!GoZero Holding} `{!GoZero Snapshot} `{!HoldingFields Pair Holding}.

Local Abbreviation EventT := (Event Pair).
Local Abbreviation CurrencyStatisticT := (CurrencyStatistic Pair Holding Snapshot).
Local Abbreviation StatisticT := (Statistic Pair Holding Snapshot Report).
Local Abbreviation FundingT := (IFundingManager Pair Report PairReader).

Variable CalculateResults : CurrencyStatisticT -> PairReader -> Calculated * option Error.

Lemma SetupEventForTime_first (ev : EventT) (s : StatisticT) :
  ExchangeAssetPairStatistics s = None ->
  (SetupEventForTime (Some ev) s).1 = Returns None
  /\ timelineOf (SetupEventForTime (Some ev) s).2 (tupleOf ev) = [newEventStore ev].
Proof.
  intros Hnil.
  assert (Hnone : lookupIn s (tupleOf ev) = None) by (unfold lookupIn; now rewrite Hnil).
  assert (Hret : (SetupEventForTime (Some ev) s).1 = Returns None).
  { rewrite SetupEventForTime_Some. cbv zeta. now rewrite Hnone. }
  split; [exact Hret|].
  destruct (SetupEventForTime_accepted s ev Hret) as (c & Hc & Hevents).
  unfold timelineOf at 1. rewrite Hc, Hevents. unfold timelineOf. now rewrite Hnone.
Qed.

(** X21.  [Reset] forgets everything, the strategy name included.  After
    it the store holds no tuple; the three enrichments return the
    unset-store error and leave the store as it is; [SetupEventForTime]
    accepts any event and starts its timeline with it; and
    [CalculateAllResults] has nothing to iterate over: it returns nil with
    no statistic, a total of zero orders, no summary, and a report asked for
    the zero time. *)
Theorem Reset_forgets_everything (s : StatisticT) :
  Reset s = zeroValue
  /\ StrategyName (Reset s) = EmptyString
  /\ tuples (Reset s) = []
  /\ (forall ev : EventT,
        SetEventForOffset (Some ev) (Reset s)
        = (Returns (Some errExchangeAssetPairStatsUnset), Reset s))
  /\ (forall h : option Holding,
        AddHoldingsForTime h (Reset s)
        = (Returns (Some errExchangeAssetPairStatsUnset), Reset s))
  /\ (forall (snapshot : Snapshot) (e : EventT),
        AddComplianceSnapshotForTime snapshot (Some e) (Reset s)
        = (Returns (Some errExchangeAssetPairStatsUnset), Reset s))
  /\ (forall ev : EventT,
        (SetupEventForTime (Some ev) (Reset s)).1 = Returns None
        /\ timelineOf (SetupEventForTime (Some ev) (Reset s)).2 (tupleOf ev)
           = [newEventStore ev])
  /\ (forall funds : FundingT,
        (CalculateAllResults CalculateResults funds (tuples (Reset s)) (Reset s)).1
        = Returns None
        /\ AllStats (CalculateAllResults CalculateResults funds (tuples (Reset s))
                       (Reset s)).2 = []
        /\ TotalOrders (CalculateAllResults CalculateResults funds (tuples (Reset s))
                          (Reset s)).2 = 0%Z
        /\ BestMarketMovement (CalculateAllResults CalculateResults funds (tuples (Reset s))
                                 (Reset s)).2 = None
        /\ Funding (CalculateAllResults CalculateResults funds (tuples (Reset s))
                      (Reset s)).2 = Some (GenerateReport funds 0%Z 0%Z)).
Proof.
  split; [reflexivity|]. split; [reflexivity|]. split; [reflexivity|].
  split; [reflexivity|]. split; [reflexivity|]. split; [reflexivity|].
  split; [|intros funds; repeat split].
  intros ev. now apply SetupEventForTime_first.
Qed.

End ResetCoverage.
(* ===================================================================== *)
(** * Part IV: scenarios                                                  *)
(* ===================================================================== *)

(** ** Sizing scenarios of size_test.go *)

Section SizingScenarioFacts.
Local Open Scope Q_scope.

(** The expectations of size_test.go hold of the sizing functions as
    modelled: [TestSizingOverMaxSize], [TestSizingUnderMinSize],
    [TestMaximumBuySizeEqualZero], [TestMaximumSellSizeEqualZero],
    [TestSizingErrors] and [TestCalculateSellSize]. *)
Example size_test_expectations :
  (exists q, calculateBuySize 1338 1338 (2 # 100) 1 (minMax 0 (5 # 10) 1337) = inr q
             /\ q <= 5 # 10)
  /\ calculateBuySize 1338 1338 (2 # 100) 1 (minMax 1 2 1337) = inl errLessThanMinimum
  /\ calculateBuySize 1338 13380 (2 # 100) 1 (minMax 1 0 1437) = inr 1
  /\ calculateSellSize 1338 13380 (2 # 100) 1 (minMax 1 0 1437) = inr 1
  /\ calculateBuySize 1338 0 (2 # 100) 1 (minMax 1 2 1337) = inl errNoFunds
  /\ calculateSellSize 1338 0 (2 # 100) 1 (minMax 1 2 1337) = inl errNoFunds
  /\ calculateSellSize 1338 1337 (2 # 100) 1 (minMax 1 2 1337) = inl errLessThanMinimum
  /\ calculateSellSize 12 1339 (2 # 100) 1 (minMax 1 2 1337) = inr 1.
Proof.
  split; [eexists; split; [reflexivity|discriminate]|].
  repeat split.
Qed.

(** [TestSizeOrder]: a nil order, a zero-valued order without and with
    funds, then a buy and a sell of price 1 under size limits of 1. *)
Example TestSizeOrder_expectations :
  SizeOrder noFee unconstrained None 0 tt = inl ErrNilArguments
  /\ SizeOrder noFee unconstrained (Some zeroValue) 0 tt = inl errNoFunds
  /\ SizeOrder noFee unconstrained (Some zeroValue) 1337 tt = inl errCannotAllocate
  /\ SizeOrder noFee {| BuySide := minMax 1 1 0; SellSide := zeroValue |}
        (Some {| Direction := Buy; Price := 1; Amount := 0 |}) 1337 tt
      = inr {| Direction := Buy; Price := 1; Amount := 1 |}
  /\ SizeOrder noFee {| BuySide := minMax 1 1 0; SellSide := zeroValue |}
        (Some {| Direction := Sell; Price := 1; Amount := 0 |}) 1337 tt
      = inr {| Direction := Sell; Price := 1; Amount := 1337 / 1 |}
  /\ SizeOrder noFee {| BuySide := minMax 1 1 0; SellSide := minMax 1 1 0 |}
        (Some {| Direction := Sell; Price := 1; Amount := 0 |}) 1337 tt
      = inr {| Direction := Sell; Price := 1; Amount := 1 |}.
Proof. repeat split. Qed.

(** C9.  Scenario A: the buy size is 0.98, and [10 * 0.98 + 10 * 0.02] is
    exactly 10. *)
Theorem scenario_A_buy_size :
  exists q, calculateBuySize 10 11 (2 # 100) 1 scenarioA = inr q
            /\ (q == 98 # 100)%Q
            /\ (10 * q + 10 * (2 # 100) == 10)%Q.
Proof.
  exists (980 # 1000)%Q. split; [reflexivity|]. split; reflexivity.
Qed.

(** The limits hold of the quantity of Scenario A. *)
Lemma sizing_respects_limits_witness :
  sizedWithin 10 11 (2 # 100) 1 scenarioA (980 # 1000).
Proof.
  apply (sizing_respects_limits 10 11 (2 # 100) 1 scenarioA (980 # 1000)).
  - reflexivity.
  - left. reflexivity.
Defined.

(** C1 as stated fails.  With funds of 5 the funds ceiling 0.49 is the
    binding constraint (it lies below the limit 1 and the exposure ceiling
    0.98), and [10 * 0.49 + 0.02 * 10 = 5.1] is not 10.  And at a negative
    price the exposure bound itself is exceeded. *)
Lemma sizing_equality_fails_when_funds_bind :
  (calculateBuySize 10 5 (2 # 100) 1 exposureTen = inr (490 # 1000)%Q
   /\ (490 # 1000 == 5 * (1 - (2 # 100)) / 10)%Q
   /\ (490 # 1000 < 1)%Q
   /\ (490 # 1000 < exposureCeiling 10 (2 # 100) exposureTen)%Q
   /\ ~ (10 * (490 # 1000) + (2 # 100) * MaximumTotal exposureTen
         == MaximumTotal exposureTen)%Q)
  /\ (calculateBuySize (-1) 20 0 1 exposureTen = inr (-20 # 1)%Q
      /\ ~ (-1 * (-20 # 1) + 0 * MaximumTotal exposureTen
            <= MaximumTotal exposureTen)%Q).
Proof.
  split.
  - split; [reflexivity|]. split; [reflexivity|]. split; [reflexivity|].
    split; [reflexivity|]. intros E. vm_compute in E. discriminate E.
  - split; [reflexivity|]. intros L. vm_compute in L. now apply L.
Qed.

(** The three failures of [SizeOrder], on an order of price 1 with no
    direction. *)
Lemma SizeOrder_errors_witness :
  SizeOrder noFee unconstrained None 0 tt = inl ErrNilArguments
  /\ SizeOrder noFee unconstrained (Some undirected) 0 tt = inl errNoFunds
  /\ SizeOrder noFee unconstrained (Some undirected) 1337 tt = inl errCannotAllocate.
Proof.
  split; [apply (SizeOrder_errors noFee unconstrained 0 tt)|]. split.
  - apply (proj1 (proj2 (SizeOrder_errors noFee unconstrained 0 tt))).
    + reflexivity.
    + intros E. vm_compute in E. discriminate E.
  - apply (proj2 (proj2 (SizeOrder_errors noFee unconstrained 1337 tt))).
    + intros E. vm_compute in E. discriminate E.
    + intros E. vm_compute in E. discriminate E.
    + discriminate.
    + discriminate.
Defined.

End SizingScenarioFacts.

(** ** Store scenarios *)

(** The tuples of [storeTwo], in the order the map lists them. *)
Lemma storeTwo_tuples : tuples storeTwo = [ethTuple; btcTuple].
Proof. vm_compute. reflexivity. Qed.

(** [storeTwo] is the store that recording the four candles builds. *)
Lemma storeTwo_recorded :
  tuples (recorded eth1 (recorded eth0 (recorded btc1 (recorded btc0 zeroValue))))
  = tuples storeTwo.
Proof. vm_compute. reflexivity. Qed.

(** Recording the second BTC-USD candle again is rejected. *)
Lemma SetupEventForTime_already_processed_witness :
  SetupEventForTime (Some btc1) storeTwo = (Returns (Some ErrAlreadyProcessed), storeTwo).
Proof.
  apply (SetupEventForTime_already_processed storeTwo mapTwo btc1 btcTimeline 1
           (newEventStore btc1) btc1).
  - reflexivity.
  - vm_compute. reflexivity.
  - repeat constructor; simpl; eauto.
  - reflexivity.
  - reflexivity.
  - reflexivity.
  - reflexivity.
  - reflexivity.
  - reflexivity.
  - reflexivity.
Defined.

(** A signal at offset 1 lands in the second BTC-USD record, next to its
    candle. *)
Lemma SetEventForOffset_latest_record_witness :
  exists r',
    SetEventForOffset (Some btcSignal1) storeTwo
    = (Returns None,
       withStatistics storeTwo
         (Some (storeStats mapTwo "binance" "spot" "BTC-USD"
                  (withEvents btcTimeline (<[1%nat := r']> (Events btcTimeline))))))
    /\ SignalEvent r' = Some btcSignal1
    /\ DataEvent r' = Some btc1.
Proof.
  assert (Hc : lookupStats mapTwo
                 (GetExchange btcSignal1) (GetAssetType btcSignal1) (GetPair btcSignal1)
               = Some btcTimeline)
    by (vm_compute; reflexivity).
  assert (Hok : timelineOk (Events btcTimeline))
    by (repeat constructor; simpl; eauto).
  assert (Hlatest : latestAt (Events btcTimeline) (GetOffset btcSignal1) 1
                      (newEventStore btc1)).
  { split; [reflexivity|]. split; [reflexivity|].
    intros [|[|j]] r' Hj Hl; [lia|lia|discriminate Hl]. }
  destruct (proj2 (SetEventForOffset_latest_record storeTwo mapTwo btcSignal1 btcTimeline
                     eq_refl Hc Hok) 1%nat (newEventStore btc1) Hlatest)
    as (r' & Hrun & Hfield & Hothers & _).
  exists r'. split; [exact Hrun|]. split; [exact Hfield|].
  exact (Hothers MarketDataKind ltac:(discriminate)).
Defined.

(** ** Selector scenarios *)

(** The two selectors on a flat entry followed by a rising one, and on two
    flat entries. *)
Lemma best_selectors_follow_rule_witness :
  GetBestStrategyPerformer [flat; rising] = ElementAt 1
  /\ GetTheBiggestDrawdownAcrossCurrencies [flat; rising] = ElementAt 1
  /\ GetBestStrategyPerformer [flat; flatToo] = ElementAt 1
  /\ GetTheBiggestDrawdownAcrossCurrencies [flat; flatToo] = ElementAt 1.
Proof.
  destruct (@best_selectors_follow_rule string _) as [[_ [Hs1 Hs2]] [_ [Hd1 Hd2]]].
  split; [apply Hs1; reflexivity|]. split; [apply Hd1; reflexivity|].
  split; [apply (Hs2 [flat; flatToo])|apply (Hd2 [flat; flatToo])];
    try discriminate; repeat constructor.
Defined.

(** C3.  On a zero-movement entry followed by a positive one,
    [GetBestMarketPerformer] returns the first, zero-movement entry, where
    the rule yields the positive one; on two zero-movement entries it
    returns the first, where the rule yields the last. *)
Theorem GetBestMarketPerformer_keeps_first_entry :
  GetBestMarketPerformer [flat; rising] = ElementAt 0
  /\ deref [flat; rising] (GetBestMarketPerformer [flat; rising]) = flat
  /\ runningBest HolderMarketMovement [flat; rising] = rising
  /\ GetBestMarketPerformer [flat; flatToo] = ElementAt 0
  /\ runningBest HolderMarketMovement [flat; flatToo] = flatToo.
Proof. repeat split. Qed.

(** ** Aggregator scenarios *)

(** A failing funding source stops the run at the first tuple; a failing
    calculator does not stop the iteration, and its counts reach the totals. *)
Lemma CalculateAllResults_error_policy_witness :
  CalculateAllResults calculates fundsFailing [ethTuple; btcTuple] storeTwo
  = (Returns (Some (errExternal "funding")), storeTwo)
  /\ exists (st' : @Aggregation string _ _ Z Z (Time * Time))
            (stats' : CurrencyStatistic string Z Z),
       tupleStep miscalculates fundsServing "kraken" "spot" "ETH-USD" ethTimeline
         (enter storeTwo) = Next st'
       /\ finalResults st' = [holderOf "kraken" "spot" "ETH-USD" stats']
       /\ TotalBuyOrders (statistic st') = 3%Z
       /\ TotalSellOrders (statistic st') = 2%Z.
Proof.
  split.
  - apply (proj1 (CalculateAllResults_error_policy calculates fundsFailing)
             [] "kraken" "spot" "ETH-USD" ethTimeline [btcTuple] storeTwo (enter storeTwo)
             (newEventStore eth1) (newEventStore eth0) eth0 eth1 (errExternal "funding"));
      reflexivity.
  - destruct (proj2 (CalculateAllResults_error_policy miscalculates fundsServing)
                "kraken" "spot" "ETH-USD" ethTimeline [btcTuple] (enter storeTwo)
                (newEventStore eth1) (newEventStore eth0) eth0 eth1 tt threeBuys
                (errExternal "calculation") mapTwo
                eq_refl eq_refl eq_refl eq_refl eq_refl eq_refl eq_refl)
      as (st' & stats' & m' & Hstep & _ & _ & _ & _ & _ & _ & Hres & _ & Hb & Hs & Htb & Hts).
    exists st', stats'. split; [exact Hstep|]. split; [exact Hres|].
    rewrite Htb, Hts, Hb, Hs. split; reflexivity.
Defined.

(** With BTC-USD visited last, the report runs from time 1 to time 2. *)
Lemma CalculateAllResults_report_span_witness :
  Funding (CalculateAllResults calculates fundsServing [ethTuple; btcTuple] storeTwo).2
  = Some (1%Z, 2%Z).
Proof.
  destruct (CalculateAllResults_report_span calculates fundsServing
              [ethTuple] "binance" "spot" "BTC-USD" btcTimeline storeTwo
              (CalculateAllResults calculates fundsServing [ethTuple; btcTuple] storeTwo).2)
    as (first & last & d0 & dl & Hf & Hl & Hd0 & Hdl & ->).
  { apply outcome_with_state. vm_compute. reflexivity. }
  vm_compute in Hf, Hl. injection Hf as <-. injection Hl as <-.
  vm_compute in Hd0, Hdl. injection Hd0 as <-. injection Hdl as <-.
  reflexivity.
Defined.

(** C8 as stated fails.  The records of [storeTwo] run from time 1 to time
    9, and in whichever order the tuples are visited the report is asked for
    another period: 1 to 2 when BTC-USD comes last, 5 to 9 when ETH-USD
    does. *)
Lemma report_span_follows_last_tuple :
  earliest (recordTimes storeTwo) = Some 1%Z
  /\ latest (recordTimes storeTwo) = Some 9%Z
  /\ permutations (tuples storeTwo) = [[ethTuple; btcTuple]; [btcTuple; ethTuple]]
  /\ Funding (CalculateAllResults calculates fundsServing [ethTuple; btcTuple] storeTwo).2
     = Some (GenerateReport fundsServing 1%Z 2%Z)
  /\ Funding (CalculateAllResults calculates fundsServing [btcTuple; ethTuple] storeTwo).2
     = Some (GenerateReport fundsServing 5%Z 9%Z)
  /\ GenerateReport fundsServing 1%Z 2%Z <> GenerateReport fundsServing 1%Z 9%Z
  /\ GenerateReport fundsServing 5%Z 9%Z <> GenerateReport fundsServing 1%Z 9%Z.
Proof.
  split; [vm_compute; reflexivity|]. split; [vm_compute; reflexivity|].
  split; [vm_compute; reflexivity|]. split; [vm_compute; reflexivity|].
  split; [vm_compute; reflexivity|]. split; discriminate.
Qed.

(** [storeTwo] is read in bounds; the run over [storeHollow] panics at its
    one, empty timeline. *)
Lemma CalculateAllResults_timeline_reads_witness :
  (CalculateAllResults calculates fundsServing (tuples storeTwo) storeTwo).1
  <> Panics IndexOutOfRange
  /\ CalculateAllResults calculates fundsServing (tuples storeHollow) storeHollow
     = (Panics IndexOutOfRange, storeHollow).
Proof.
  split.
  - apply (proj1 (CalculateAllResults_timeline_reads calculates fundsServing
                    (tuples storeTwo) storeTwo)).
    + unfold Traversal. reflexivity.
    + rewrite storeTwo_tuples. repeat constructor; discriminate.
  - refine (proj2 (proj2 (CalculateAllResults_timeline_reads calculates fundsServing
                            (tuples storeHollow) storeHollow)
                     [] "binance" "spot" "BTC-USD" zeroValue [] _ _)
              (enter storeHollow) _).
    + vm_compute. reflexivity.
    + reflexivity.
    + reflexivity.
Defined.

(** ** Further store scenarios *)

Lemma storeTwo_storeOk : storeOk storeTwo.
Proof.
  apply storeOk_from_tuples. rewrite storeTwo_tuples.
  repeat (constructor; [split; [discriminate|repeat constructor; simpl; eauto]|]).
  constructor.
Qed.

Lemma storeTwo_btc : timelineOf storeTwo (tupleOf btc2) = Events btcTimeline.
Proof. vm_compute. reflexivity. Qed.

(** The third BTC-USD candle is accepted and becomes the third record. *)
Lemma SetupEventForTime_appends_witness :
  exists s',
    SetupEventForTime (Some btc2) storeTwo = (Returns None, s')
    /\ timelineOf s' (tupleOf btc2)
       = [newEventStore btc0; newEventStore btc1; newEventStore btc2].
Proof.
  destruct (SetupEventForTime_appends storeTwo btc2) as (s' & Hrun & _ & Htimeline).
  - rewrite storeTwo_btc. repeat constructor; simpl; eauto.
  - rewrite storeTwo_btc. intros r d Hin Hd. unfold btcTimeline in Hin. simpl in Hin.
    repeat (apply elem_of_cons in Hin as [->|Hin];
            [injection Hd as <-; vm_compute; reflexivity|]).
    inversion Hin.
  - exists s'. split; [exact Hrun|]. rewrite Htimeline, storeTwo_btc. reflexivity.
Defined.

(** A signal for the third candle, set after the candle was recorded,
    lands in the third record. *)
Lemma record_then_enrich_witness :
  (SetEventForOffset (Some btcSignal2) (SetupEventForTime (Some btc2) storeTwo).2).1
  = Returns None
  /\ timelineOf (SetEventForOffset (Some btcSignal2)
                   (SetupEventForTime (Some btc2) storeTwo).2).2 (tupleOf btc2)
     = [newEventStore btc0; newEventStore btc1;
        withSignalEvent (newEventStore btc2) btcSignal2].
Proof.
  destruct (record_then_enrich storeTwo btc2 btcSignal2) as [Hres Htimeline].
  - vm_compute. reflexivity.
  - reflexivity.
  - reflexivity.
  - split; [exact Hres|]. rewrite Htimeline, storeTwo_btc. reflexivity.
Defined.

(** The holdings at offset 1 go to the second BTC-USD record. *)
Lemma attachments_reach_latest_record_witness :
  (AddHoldingsForTime (Some 1%Z) storeTwo).1 = Returns None
  /\ timelineOf (AddHoldingsForTime (Some 1%Z) storeTwo).2 (holdingTuple 1%Z) !! 1%nat
     = Some (withHoldings (newEventStore btc1) 1%Z).
Proof.
  assert (E : timelineOf storeTwo (holdingTuple 1%Z) = Events btcTimeline)
    by (vm_compute; reflexivity).
  destruct (proj1 (attachments_reach_latest_record storeTwo storeTwo_storeOk) 1%Z)
    as (Hres & [_ Hat] & _).
  - vm_compute. discriminate.
  - split; [exact Hres|].
    apply (proj1 (Hat 1%nat (newEventStore btc1) ltac:(rewrite E; reflexivity))).
    rewrite E. split; [reflexivity|]. split; [reflexivity|].
    intros [|[|j]] r' Hj Hl; [lia|lia|discriminate Hl].
Defined.

(** ** Further selector scenarios *)

(** Of two entries that share the greatest metric, both selectors return
    the first. *)
Lemma best_selectors_leftmost_maximum_witness :
  leftmostMaximum HolderStrategyMovement threeHolders (GetBestStrategyPerformer threeHolders)
  /\ leftmostMaximum drawdownOf threeHolders
       (GetTheBiggestDrawdownAcrossCurrencies threeHolders).
Proof.
  destruct (best_selectors_leftmost_maximum threeHolders ltac:(discriminate)) as [Hs Hd].
  split; [apply Hs|apply Hd]; repeat constructor; intros E; vm_compute in E; discriminate.
Defined.

(** ** Further aggregator scenarios *)

(** The run over [storeTwo] is served at both tuples. *)
Lemma CalculateAllResults_only_funding_errors_witness :
  Forall (fun t : @Tuple string Z Z => exists f, fundingFor fundsServing t.2 = Some (inr f))
         (tuples storeTwo).
Proof.
  pose proof (CalculateAllResults_only_funding_errors calculates fundsServing
                (tuples storeTwo) storeTwo storeTwo_storeOk) as Hrun.
  assert (E : (CalculateAllResults calculates fundsServing (tuples storeTwo) storeTwo).1
              = Returns None) by (vm_compute; reflexivity).
  rewrite E in Hrun. apply Hrun. unfold Traversal. reflexivity.
Defined.

(** Two tuples of three buys and two sells each: ten orders. *)
Lemma CalculateAllResults_totals_witness :
  TotalOrders (CalculateAllResults calculates fundsServing [ethTuple; btcTuple] storeTwo).2
  = wrap64 (TotalBuyOrders
              (CalculateAllResults calculates fundsServing [ethTuple; btcTuple] storeTwo).2
            + TotalSellOrders
                (CalculateAllResults calculates fundsServing [ethTuple; btcTuple] storeTwo).2)
  /\ wrap64 (TotalBuyOrders
               (CalculateAllResults calculates fundsServing [ethTuple; btcTuple] storeTwo).2)
     = 6%Z.
Proof.
  destruct (CalculateAllResults_totals calculates fundsServing [ethTuple; btcTuple] storeTwo
              (CalculateAllResults calculates fundsServing [ethTuple; btcTuple] storeTwo).2)
    as (ts & Hts & _ & Hbuy & _ & Htotal & _).
  - apply outcome_with_state. vm_compute. reflexivity.
  - split; [exact Htotal|]. rewrite Hbuy.
    vm_compute in Hts. injection Hts as <-. vm_compute. reflexivity.
Defined.

(** The run in the other order returns nil with the same total. *)
Lemma CalculateAllResults_totals_any_order_witness :
  exists s'',
    CalculateAllResults calculates fundsServing [btcTuple; ethTuple] storeTwo
    = (Returns None, s'')
    /\ TotalOrders s''
       = TotalOrders
           (CalculateAllResults calculates fundsServing [ethTuple; btcTuple] storeTwo).2.
Proof.
  destruct (CalculateAllResults_totals_any_order calculates fundsServing
              [ethTuple; btcTuple] [btcTuple; ethTuple] storeTwo
              (CalculateAllResults calculates fundsServing [ethTuple; btcTuple] storeTwo).2)
    as (s'' & Hrun & _ & _ & Htotal & _).
  - apply perm_swap.
  - apply outcome_with_state. vm_compute. reflexivity.
  - exists s''. split; [exact Hrun|exact Htotal].
Defined.

(** After the run the BTC-USD timeline holds its two candles. *)
Lemma CalculateAllResults_keeps_timelines_witness :
  Events <$> lookupIn (CalculateAllResults calculates fundsServing (tuples storeTwo)
                         storeTwo).2 ("binance", "spot", "BTC-USD")
  = Some [newEventStore btc0; newEventStore btc1].
Proof.
  rewrite (CalculateAllResults_keeps_timelines calculates fundsServing (tuples storeTwo)
             storeTwo ("binance", "spot", "BTC-USD")).
  - vm_compute. reflexivity.
  - unfold Traversal. reflexivity.
Defined.

(** With ETH-USD visited first, the best market movement is its entry. *)
Lemma CalculateAllResults_summaries_witness :
  Exchange <$> BestMarketMovement
                 (CalculateAllResults calculates fundsServing [ethTuple; btcTuple] storeTwo).2
  = Some "kraken".
Proof.
  destruct (CalculateAllResults_summaries calculates fundsServing [ethTuple; btcTuple]
              storeTwo
              (CalculateAllResults calculates fundsServing [ethTuple; btcTuple] storeTwo).2)
    as (ts & Hts & _ & Hmany).
  - apply outcome_with_state. vm_compute. reflexivity.
  - destruct (Hmany ltac:(simpl; lia)) as (Hmarket & _). rewrite Hmarket.
    vm_compute in Hts. injection Hts as <-. reflexivity.
Defined.

(** ** Audit log scenarios *)

(** A message for instant 1 joins the holder of instant 1. *)
Lemma addEventOutputToTime_one_holder_witness :
  OutputTime <$> addEventOutputToTime twoHolders 1%Z "btc again" = [5%Z; 1%Z]
  /\ messagesAt 1%Z (addEventOutputToTime twoHolders 1%Z "btc again") = ["btc"; "btc again"].
Proof.
  destruct (addEventOutputToTime_one_holder twoHolders 1%Z "btc again")
    as (_ & Htimes & Hmessages).
  - apply (bool_decide_unpack _). vm_compute. exact I.
  - split; [rewrite Htimes|rewrite Hmessages]; vm_compute; reflexivity.
Defined.

(** The holders of [storeTwo], collected with ETH-USD first, are sorted
    into [fourHolders]. *)
Lemma sortSlice_determined_witness :
  fourHolders = sortSlice (scenarioHolders [ethTuple; btcTuple]).
Proof.
  apply (sortSlice_determined (fun _ => "BUY") "COULD NOT BUY" "COULD NOT SELL" "DO NOTHING"
           "MISSING DATA" "TRANSFERRED FUNDS" (lineOf "note") (lineOf "fill")
           (lineOf "signal") (lineOf "data") (fun _ _ _ _ => "unexpected data")
           [ethTuple; btcTuple] fourHolders).
  - vm_compute. apply (Permutation_app_comm [_; _] [_; _]).
  - repeat constructor.
Defined.

(** ** Strategy base scenario *)

